(** * psk: verification of the interactive process selector

    A shallow embedding of the Python sources of the process killer
    ([common/process_utils.py], [process_killer/models.py], [filter.py],
    [sorter.py], [prompt_utils.py], [display.py], [killer.py], [main.py],
    [cli/main.py]) and the properties its specification states about them.

    Modelling conventions.
    - Python [int] is [Z]; list positions produced by [enumerate] are [nat].
    - Python [str] is [string]; the text handled is taken to be ASCII, and
      [str.lower] is the ASCII lower-casing [lower].
    - Python [float] is the kernel's binary64 [float].
    - A Python [set] of integers is a [gset Z]; [list(a_set)] is [elements].
      The order of [list(a_set)] is the interpreter's, so what is stated of
      such a list is stated of its members only.
    - [app.run()] is the library's loop: what it does (the keys it
      dispatches, its drawings of the layout, the exceptions of its own) is
      a list of [event]s, and the callbacks are the functions of this file.
    - The closures of [select_multiple_custom] share mutable one-element
      lists; they become the fields of the record [state], and each key
      handler is a function from the state before to the outcome after.
    - Console output, child processes, signals and prompts are recorded in a
      trace of [effect]s; what the outside world answers is read from a
      [world]. *)

From Stdlib Require Import ZArith List String Ascii Bool Lia Permutation Sorted.
From Stdlib Require OrderedTypeEx.
From Stdlib Require Import Floats.PrimFloat.
From stdpp Require Import base gmap sets list strings.

Local Open Scope Z_scope.

(* ===================================================================== *)
(** ** Strings *)
(* ===================================================================== *)

(** [c.lower()] on one ASCII character. *)
Definition lower_ascii (c : ascii) : ascii :=
  let n := N_of_ascii c in
  if ((65 <=? n) && (n <=? 90))%N then ascii_of_N (n + 32) else c.

(** [s.lower()]. *)
Fixpoint lower (s : string) : string :=
  match s with
  | EmptyString => EmptyString
  | String c rest => String (lower_ascii c) (lower rest)
  end.

(** [s.startswith(p)]. *)
Definition startswith (s p : string) : bool := String.prefix p s.

(** [needle in hay] for two strings. *)
Fixpoint str_in (needle hay : string) : bool :=
  String.prefix needle hay
  || match hay with
     | EmptyString => false
     | String _ rest => str_in needle rest
     end.

(** Truth value of a string: [bool(s)]. *)
Definition str_truthy (s : string) : bool :=
  match s with EmptyString => false | String _ _ => true end.

(** Truth value of a list: [bool(l)]. *)
Definition list_truthy {A} (l : list A) : bool :=
  match l with [] => false | _ :: _ => true end.

(** [c in s] for a character and a string. *)
Fixpoint char_in (c : ascii) (s : string) : bool :=
  match s with
  | EmptyString => false
  | String d rest => Ascii.eqb c d || char_in c rest
  end.

(** [l[i]] with Python's rule for negative positions; [None] stands for
    [IndexError]. *)
Definition py_getitem {A} (l : list A) (i : Z) : option A :=
  let n := Z.of_nat (length l) in
  if 0 <=? i then l !! Z.to_nat i
  else if 0 <=? n + i then l !! Z.to_nat (n + i)
  else None.

(** [len(s)] for a string. *)
Definition str_len (s : string) : Z := Z.of_nat (String.length s).

(** A slice bound as Python clamps it for a sequence of length [n]. *)
Definition clamp (n i : Z) : Z :=
  if i <? 0 then Z.max (i + n) 0 else Z.min i n.

(** [s[a:b]]. *)
Definition str_slice (s : string) (a b : Z) : string :=
  let n := str_len s in
  String.substring (Z.to_nat (clamp n a)) (Z.to_nat (clamp n b - clamp n a)) s.

(** [" " * n]. *)
Definition spaces (n : Z) : string :=
  string_of_list_ascii (repeat " "%char (Z.to_nat n)).

(** [s.ljust(width)]. *)
Definition ljust (s : string) (width : Z) : string :=
  s +:+ spaces (width - str_len s).

(** [s.split(sep)] for a separator of one character. *)
Fixpoint str_split (sep : ascii) (s : string) : list string :=
  match s with
  | EmptyString => [""]
  | String ch rest =>
      if Ascii.eqb ch sep then "" :: str_split sep rest
      else
        match str_split sep rest with
        | [] => [String ch ""]
        | first :: more => String ch first :: more
        end
  end.

(** [ch.isspace()] for an ASCII character. *)
Definition isspace (ch : ascii) : bool :=
  let n := N_of_ascii ch in
  (((9 <=? n) && (n <=? 13)) || ((28 <=? n) && (n <=? 32)))%N.

Fixpoint lstrip (s : string) : string :=
  match s with
  | EmptyString => ""
  | String ch rest => if isspace ch then lstrip rest else s
  end.

Fixpoint rstrip (s : string) : string :=
  match s with
  | EmptyString => ""
  | String ch rest =>
      match rstrip rest with
      | EmptyString => if isspace ch then "" else String ch ""
      | kept => String ch kept
      end
  end.

(** [s.strip()]. *)
Definition strip (s : string) : string := rstrip (lstrip s).

(* ===================================================================== *)
(** ** models.py *)
(* ===================================================================== *)

Record ProcessInfo := {
  user : string;
  pid : Z;
  ppid : string;
  cpu : float;
  mem : float;
  stat : string;
  start : string;
  uptime : string;
  command : string;
  name : string;
  type : string;
  selected : bool
}.

(** [proc.selected = b]. *)
Definition set_selected (b : bool) (p : ProcessInfo) : ProcessInfo :=
  {| user := user p; pid := pid p; ppid := ppid p; cpu := cpu p; mem := mem p;
     stat := stat p; start := start p; uptime := uptime p;
     command := command p; name := name p; type := type p; selected := b |}.

(* ===================================================================== *)
(** ** common/exceptions.py and the built-in exceptions met *)
(* ===================================================================== *)

Inductive exn :=
| KeyboardInterrupt
| EOFError
| CancelledError
| IndexError
| OtherError.

(* ===================================================================== *)
(** ** common/process_utils.py *)
(* ===================================================================== *)

Definition SYSTEM_USERS : list string :=
  ["root"; "daemon"; "_"; "nobody"; "www"; "mail"; "sshd"; "postfix"]%string.

Definition SYSTEM_PROCESS_NAMES : list string :=
  ["kernel_task"; "launchd"; "WindowServer"; "loginwindow";
   "UserEventAgent"; "syspolicyd"; "trustd"; "kextd";
   "fseventsd"; "mds"; "mdworker"; "mdworker_shared";
   "cloudd"; "com.apple"; "com.apple.WebKit"; "VTDecoderXPCService";
   "hidd"; "distnoted"; "coreaudiod"; "bluetoothd"; "airportd";
   "configd"; "networksetupd"; "networkd"; "powerd"; "thermalmonitord";
   "diskarbitrationd"; "fsck"; "fsck_hfs"; "fsck_apfs"; "mount";
   "kextstat"; "kextload"; "kextunload"]%string.

Definition SYSTEM_PATHS : list string := ["/system/"; "/usr/libexec/"]%string.

(** [x in a_set_of_strings]. *)
Definition str_member (x : string) (l : list string) : bool :=
  existsb (String.eqb x) l.

Definition is_system_process (proc : ProcessInfo) : bool :=
  if pid proc =? 1 then true
  else if str_member (user proc) SYSTEM_USERS then true
  else
    let process_name := lower (name proc) in
    let command := lower (command proc) in
    if existsb (fun sys_name => str_in sys_name process_name) SYSTEM_PROCESS_NAMES
    then true
    else if existsb (fun path => startswith command path) SYSTEM_PATHS then true
    else if String.eqb (ppid proc) "1" then
      if negb (str_member (user proc) SYSTEM_USERS)
         && negb (existsb (fun sys_name => str_in sys_name process_name)
                    SYSTEM_PROCESS_NAMES)
      then false
      else false
    else false.

(** The same function with the [if proc.ppid == '1'] statement deleted. *)
Definition is_system_process_without_ppid (proc : ProcessInfo) : bool :=
  if pid proc =? 1 then true
  else if str_member (user proc) SYSTEM_USERS then true
  else
    let process_name := lower (name proc) in
    let command := lower (command proc) in
    if existsb (fun sys_name => str_in sys_name process_name) SYSTEM_PROCESS_NAMES
    then true
    else if existsb (fun path => startswith command path) SYSTEM_PATHS then true
    else false.

(* ===================================================================== *)
(** ** process_killer/filter.py *)
(* ===================================================================== *)

Module ProcessFilter.

Record t := {
  exclude_list : list string;
  name_filter : option string
}.

(** [__init__]: [self.exclude_list = exclude_list or []]. *)
Definition init (exclude_list : option (list string))
    (name_filter : option string) : t :=
  {| exclude_list := default [] exclude_list; name_filter := name_filter |}.

Definition is_excluded (self : t) (proc : ProcessInfo) : bool :=
  if negb (list_truthy (exclude_list self)) then false
  else
    let proc_name_lower := lower (name proc) in
    existsb (fun exclude_keyword => str_in (lower exclude_keyword) proc_name_lower)
      (exclude_list self).

Definition matches_name_filter (self : t) (proc : ProcessInfo) : bool :=
  match name_filter self with
  | None => true
  | Some f =>
      if negb (str_truthy f) then true
      else str_in (lower f) (lower (name proc))
  end.

Definition is_system_process (self : t) (proc : ProcessInfo) : bool :=
  is_system_process proc.

End ProcessFilter.

(* ===================================================================== *)
(** ** process_killer/sorter.py *)
(* ===================================================================== *)

Module ProcessSorter.

(** [sorted] is stable: a record moves in front of a later one only when
    the order asks for it.  [before y x] says that [y], met later in the
    input, must come in front of [x]. *)
Fixpoint insert_stable {A} (before : A -> A -> bool) (x : A) (l : list A)
    : list A :=
  match l with
  | [] => [x]
  | y :: rest =>
      if before y x then y :: insert_stable before x rest else x :: l
  end.

Definition sorted_stable {A} (before : A -> A -> bool) (l : list A) : list A :=
  foldr (insert_stable before) [] l.

(** [sorted(l, key=key, reverse=True)] for a float key. *)
Definition sorted_desc (key : ProcessInfo -> float) (l : list ProcessInfo) :=
  sorted_stable (fun y x => PrimFloat.ltb (key x) (key y)) l.

Definition sort_general (processes : list ProcessInfo) : list ProcessInfo :=
  sorted_desc (fun x => PrimFloat.add (cpu x) (mem x)) processes.

Definition sort_memory (processes : list ProcessInfo) : list ProcessInfo :=
  sorted_desc mem processes.

Definition sort_cpu (processes : list ProcessInfo) : list ProcessInfo :=
  sorted_desc cpu processes.

(** [sorted(l, key=lambda x: x.start)]. *)
Definition sort_uptime (processes : list ProcessInfo) : list ProcessInfo :=
  sorted_stable (fun y x => String.ltb (start y) (start x)) processes.

Definition sort_zombie (processes : list ProcessInfo) : list ProcessInfo :=
  let zombies := List.filter (fun p => char_in "Z" (stat p)) processes in
  let others := List.filter (fun p => negb (char_in "Z" (stat p))) processes in
  zombies ++ others.

(** The dictionary of [__init__], in insertion order. *)
Definition sort_options
    : list (string * (string * (list ProcessInfo -> list ProcessInfo))) :=
  [ ("general", ("General (CPU + Memory)", sort_general));
    ("memory", ("Memory usage", sort_memory));
    ("cpu", ("CPU usage", sort_cpu));
    ("uptime", ("Uptime (oldest first)", sort_uptime));
    ("zombie", ("Zombie processes", sort_zombie)) ]%string.

Definition get_sort_options := sort_options.

(** [d.keys()] and [d[k]] / [k in d] for the dictionary. *)
Definition keys {V} (d : list (string * V)) : list string := map fst d.

Fixpoint lookup {V} (k : string) (d : list (string * V)) : option V :=
  match d with
  | [] => None
  | (k', v) :: rest => if String.eqb k k' then Some v else lookup k rest
  end.

End ProcessSorter.

(* ===================================================================== *)
(** ** process_killer/prompt_utils.py: the selection engine *)
(* ===================================================================== *)

(** What the closures of [select_multiple_custom] capture and never
    assign: its arguments. *)
Record closure := {
  choices : list (Z * string);
  process_data : option (list ProcessInfo);
  exclude_list : option (list string)
}.

(** What the closures share and assign: [selected_indices] and the
    one-element lists [current_index], [filter_system], [search_mode],
    [search_query], [show_title_detail], [title_detail_index]. *)
Record state := {
  selected_indices : gset Z;
  current_index : Z;
  filter_system : bool;
  search_mode : bool;
  search_query : string;
  show_title_detail : bool;
  title_detail_index : Z
}.

(** [page_size = [20]] is never assigned after its creation. *)
Definition page_size : Z := 20.

Definition set_selected_indices (v : gset Z) (s : state) : state :=
  {| selected_indices := v; current_index := current_index s;
     filter_system := filter_system s; search_mode := search_mode s;
     search_query := search_query s; show_title_detail := show_title_detail s;
     title_detail_index := title_detail_index s |}.

Definition set_current_index (v : Z) (s : state) : state :=
  {| selected_indices := selected_indices s; current_index := v;
     filter_system := filter_system s; search_mode := search_mode s;
     search_query := search_query s; show_title_detail := show_title_detail s;
     title_detail_index := title_detail_index s |}.

Definition set_filter_system (v : bool) (s : state) : state :=
  {| selected_indices := selected_indices s; current_index := current_index s;
     filter_system := v; search_mode := search_mode s;
     search_query := search_query s; show_title_detail := show_title_detail s;
     title_detail_index := title_detail_index s |}.

Definition set_search_mode (v : bool) (s : state) : state :=
  {| selected_indices := selected_indices s; current_index := current_index s;
     filter_system := filter_system s; search_mode := v;
     search_query := search_query s; show_title_detail := show_title_detail s;
     title_detail_index := title_detail_index s |}.

Definition set_search_query (v : string) (s : state) : state :=
  {| selected_indices := selected_indices s; current_index := current_index s;
     filter_system := filter_system s; search_mode := search_mode s;
     search_query := v; show_title_detail := show_title_detail s;
     title_detail_index := title_detail_index s |}.

Definition set_show_title_detail (v : bool) (s : state) : state :=
  {| selected_indices := selected_indices s; current_index := current_index s;
     filter_system := filter_system s; search_mode := search_mode s;
     search_query := search_query s; show_title_detail := v;
     title_detail_index := title_detail_index s |}.

Definition set_title_detail_index (v : Z) (s : state) : state :=
  {| selected_indices := selected_indices s; current_index := current_index s;
     filter_system := filter_system s; search_mode := search_mode s;
     search_query := search_query s; show_title_detail := show_title_detail s;
     title_detail_index := v |}.

(** [len(l)] as a Python integer. *)
Definition len {A} (l : list A) : Z := Z.of_nat (length l).

Definition is_excluded_process (c : closure) (proc : ProcessInfo) : bool :=
  match exclude_list c with
  | None => false
  | Some l =>
      if negb (list_truthy l) then false
      else
        let proc_name_lower := lower (name proc) in
        existsb (fun exclude_keyword => str_in (lower exclude_keyword) proc_name_lower) l
  end.

(** The first [if] of the loop body of [get_filtered_choices]: whether the
    entry at position [idx] is skipped as a system or excluded process. *)
Definition skipped_by_filter (c : closure) (s : state) (idx : nat) : bool :=
  match process_data c with
  | None => false
  | Some pd =>
      if filter_system s && list_truthy pd && (Z.of_nat idx <? len pd) then
        match pd !! idx with
        | Some proc => is_system_process proc || is_excluded_process c proc
        | None => false
        end
      else false
  end.

(** The second [if]: whether the entry is skipped by the search query. *)
Definition skipped_by_search (s : state) (label : string) : bool :=
  if search_mode s && str_truthy (search_query s) then
    negb (str_in (lower (search_query s)) (lower label))
  else false.

(** The loop of [get_filtered_choices] from position [idx] on. *)
Fixpoint filtered_from (c : closure) (s : state) (idx : nat)
    (l : list (Z * string)) : list (Z * string) :=
  match l with
  | [] => []
  | (value, label) :: rest =>
      if skipped_by_filter c s idx then filtered_from c s (S idx) rest
      else if skipped_by_search s label then filtered_from c s (S idx) rest
      else (value, label) :: filtered_from c s (S idx) rest
  end.

Definition get_filtered_choices (c : closure) (s : state) : list (Z * string) :=
  filtered_from c s 0 (choices c).

Definition get_page_start (s : state) : Z :=
  (current_index s / page_size) * page_size.

Definition get_page_end (c : closure) (s : state) : Z :=
  let filtered := get_filtered_choices c s in
  Z.min (get_page_start s + page_size) (len filtered).

(** *** Rendering of the list ([render_content]) *)

Definition newline : string := String (ascii_of_nat 10) EmptyString.

(** One turn of the [for] loop of [render_content]: the entries appended
    for the row [(value, label)] at position [i] of the filtered view. *)
Definition render_row (s : state) (page_end i : Z) (value : Z) (label : string)
    : list (string * string) :=
  let is_selected := bool_decide (value ∈ selected_indices s) in
  let is_cursor := i =? current_index s in
  let checkbox := if is_selected then "[X]" else "[ ]" in
  let prefix := if is_cursor then "> " else "  " in
  let style :=
    if is_selected && is_cursor then "bold cyan reverse"
    else if is_cursor then "bold cyan"
    else if is_selected then "reverse"
    else "" in
  let text := prefix +:+ checkbox +:+ " " +:+ label in
  (style, text) :: (if i <? page_end - 1 then [("", newline)] else []).

(** The [for] loop over the positions [range]; [None] is the [IndexError]
    of [filtered[i]]. *)
Fixpoint render_rows (s : state) (filtered : list (Z * string)) (page_end : Z)
    (range : list Z) : option (list (string * string)) :=
  match range with
  | [] => Some []
  | i :: rest =>
      if len filtered <=? i then Some []
      else
        match py_getitem filtered i with
        | None => None
        | Some (value, label) =>
            match render_rows s filtered page_end rest with
            | None => None
            | Some more => Some (render_row s page_end i value label ++ more)
            end
        end
  end.

Definition render_content (c : closure) (s : state)
    : option (list (string * string)) :=
  let filtered := get_filtered_choices c s in
  let page_start := get_page_start s in
  let page_end := get_page_end c s in
  match render_rows s filtered page_end (seqZ page_start (page_end - page_start)) with
  | None => None
  | Some [] => Some [("", "(No items to display)")]
  | Some result => Some result
  end.

(** *** The command bar and the lines of the detail overlay *)

(** The bar drawn when there is no command to show. *)
Definition blank_bar (terminal_width : Z) : list (string * string) :=
  [("bg:#004060", spaces terminal_width); ("", newline);
   ("bg:#004060", spaces terminal_width)].

(** [get_current_command], for the terminal width
    [shutil.get_terminal_size().columns]; [None] is an [IndexError]. *)
Definition get_current_command (c : closure) (s : state) (terminal_width : Z)
    : option (list (string * string)) :=
  let filtered := get_filtered_choices c s in
  if current_index s <? len filtered then
    match py_getitem filtered (current_index s) with
    | None => None
    | Some (value, label) =>
        let original_idx := value in
        match process_data c with
        | Some pd =>
            if list_truthy pd && (original_idx <? len pd) then
              match py_getitem pd original_idx with
              | None => None
              | Some proc =>
                  let max_length := terminal_width * 2 in
                  let cmd :=
                    if max_length <? str_len (command proc)
                    then str_slice (command proc) 0 (max_length - 3) +:+ "..."
                    else command proc in
                  let line1 :=
                    if terminal_width <? str_len cmd
                    then str_slice cmd 0 terminal_width else cmd in
                  let line2 :=
                    if terminal_width <? str_len cmd
                    then str_slice cmd terminal_width (terminal_width * 2)
                    else "" in
                  Some [("bg:#004060", ljust line1 terminal_width); ("", newline);
                        ("bg:#004060", ljust line2 terminal_width)]
              end
            else Some (blank_bar terminal_width)
        | None => Some (blank_bar terminal_width)
        end
    end
  else Some (blank_bar terminal_width).

(** The [while] loop of [render_title_detail] that cuts the command into
    lines, run for at most [fuel] turns; [None] when the turns do not
    suffice. *)
Fixpoint command_lines_loop (fuel : nat) (command : string) (max_width i : Z)
    (command_lines : list string) : option (list string) :=
  match fuel with
  | O => None
  | S fuel =>
      if i <? str_len command then
        command_lines_loop fuel command max_width (i + max_width)
          (command_lines ++ [str_slice command i (i + max_width)])
      else Some command_lines
  end.

(** The lines of the command in the detail overlay. *)
Definition command_lines (fuel : nat) (command : string) (terminal_width : Z)
    : option (list string) :=
  let max_width := terminal_width - 4 in
  if str_truthy command then command_lines_loop fuel command max_width 0 []
  else Some ["(No command)"].

(** What [render_title_detail] does as far as exceptions go: it reads
    [process_data[idx]] under the test [idx < len(process_data)], which a
    negative index below [-len(process_data)] passes. *)
Definition render_title_detail_raises (c : closure) (s : state) : bool :=
  if negb (show_title_detail s) then false
  else
    match process_data c with
    | None => false
    | Some pd =>
        let idx := title_detail_index s in
        if idx <? len pd then
          match py_getitem pd idx with
          | None => true
          | Some proc => false
          end
        else false
    end.

(** Whether an [IndexError] leaves a callback when the layout of
    [get_container] is drawn on a terminal of [columns] columns: the detail
    overlay alone when it is open, else the title, the command bar, the status
    bar and the list ([render_title] and [get_status_text] index nothing). *)
Definition redraw_raises (c : closure) (s : state) (columns : Z) : bool :=
  if show_title_detail s then render_title_detail_raises c s
  else
    match get_current_command c s columns, render_content c s with
    | Some bar, Some rows => false
    | _, _ => true
    end.

(** *** Key handlers *)

(** How a key handler ends: it returns and the application goes on, it
    calls [event.app.exit(result=r)], or an exception leaves it. *)
Inductive step_result :=
| Continue (s : state)
| Exit (r : option (list Z))
| Raise (e : exn).

Definition move_up (s : state) : step_result :=
  if show_title_detail s then Continue (set_show_title_detail false s)
  else if 0 <? current_index s
       then Continue (set_current_index (current_index s - 1) s)
       else Continue s.

Definition move_down (c : closure) (s : state) : step_result :=
  if show_title_detail s then Continue (set_show_title_detail false s)
  else
    let filtered := get_filtered_choices c s in
    if current_index s <? len filtered - 1
    then Continue (set_current_index (current_index s + 1) s)
    else Continue s.

Definition page_up (s : state) : step_result :=
  if show_title_detail s then Continue (set_show_title_detail false s)
  else
    let page_start := get_page_start s in
    if 0 <? page_start
    then Continue (set_current_index (Z.max 0 (page_start - page_size)) s)
    else Continue (set_current_index 0 s).

Definition page_down (c : closure) (s : state) : step_result :=
  if show_title_detail s then Continue (set_show_title_detail false s)
  else
    let filtered := get_filtered_choices c s in
    let page_end := get_page_end c s in
    if page_end <? len filtered
    then Continue (set_current_index (Z.min (len filtered - 1) page_end) s)
    else Continue (set_current_index (len filtered - 1) s).

Definition page_up_alt (s : state) : step_result :=
  if negb (show_title_detail s) then page_up s else Continue s.

Definition page_down_alt (c : closure) (s : state) : step_result :=
  if negb (show_title_detail s) then page_down c s else Continue s.

Definition toggle_selection (c : closure) (s : state) : step_result :=
  if show_title_detail s then Continue (set_show_title_detail false s)
  else if search_mode s then
    Continue (set_current_index 0 (set_search_query (search_query s +:+ " ") s))
  else
    let filtered := get_filtered_choices c s in
    if current_index s <? len filtered then
      match py_getitem filtered (current_index s) with
      | None => Raise IndexError
      | Some (value, label) =>
          let original_idx := value in
          if bool_decide (original_idx ∈ selected_indices s)
          then Continue (set_selected_indices (selected_indices s ∖ {[original_idx]}) s)
          else Continue (set_selected_indices (selected_indices s ∪ {[original_idx]}) s)
      end
    else Continue s.

Definition show_detail (c : closure) (s : state) : step_result :=
  if show_title_detail s then Continue (set_show_title_detail false s)
  else
    match process_data c with
    | None => Continue s
    | Some pd =>
        let filtered := get_filtered_choices c s in
        if current_index s <? len filtered then
          match py_getitem filtered (current_index s) with
          | None => Raise IndexError
          | Some (value, label) =>
              let original_idx := value in
              if original_idx <? len pd
              then Continue (set_title_detail_index original_idx
                               (set_show_title_detail true s))
              else Continue s
          end
        else Continue s
    end.

Definition toggle_filter (c : closure) (s : state) : step_result :=
  if show_title_detail s then Continue (set_show_title_detail false s)
  else
    let s1 := set_filter_system (negb (filter_system s)) s in
    let filtered := get_filtered_choices c s1 in
    if len filtered <=? current_index s1
    then Continue (set_current_index (Z.max 0 (len filtered - 1)) s1)
    else Continue s1.

(** [list(selected_indices)] holds the members of the set once each, in
    an order of the interpreter's choosing; [elements] is one such list. *)
Definition confirm (s : state) : step_result :=
  if show_title_detail s then Continue (set_show_title_detail false s)
  else Exit (Some (elements (selected_indices s))).

Definition cancel (s : state) : step_result :=
  if show_title_detail s then Continue (set_show_title_detail false s)
  else Exit None.

Definition start_search (s : state) : step_result :=
  if negb (show_title_detail s) && negb (search_mode s) then
    Continue (set_current_index 0 (set_search_query "" (set_search_mode true s)))
  else if search_mode s then
    Continue (set_current_index 0 (set_search_query (search_query s +:+ "/") s))
  else Continue s.

Definition excluded_keys : string := "deq".

(** The characters of the string literal the source filters: letters,
    digits and punctuation, the last of them the double quote. *)
Definition char_candidates : string :=
  "abcdefghijklmnopqrstuvwxyz" +:+ "ABCDEFGHIJKLMNOPQRSTUVWXYZ" +:+ "0123456789"
  +:+ ".-_()[]{}@#$%^&*+=!?;:,<>\|`~'\" +:+ String (ascii_of_nat 34) EmptyString.

Fixpoint keep_allowed (s : string) : string :=
  match s with
  | EmptyString => EmptyString
  | String ch rest =>
      if negb (char_in (lower_ascii ch) excluded_keys)
      then String ch (keep_allowed rest)
      else keep_allowed rest
  end.

Definition allowed_chars : string := keep_allowed char_candidates.

Definition handle_char (ch : ascii) (s : state) : step_result :=
  if search_mode s then
    Continue (set_current_index 0
                (set_search_query (search_query s +:+ String ch EmptyString) s))
  else Continue s.

(** [q[:-1]]. *)
Fixpoint drop_last (q : string) : string :=
  match q with
  | EmptyString => EmptyString
  | String ch EmptyString => EmptyString
  | String ch rest => String ch (drop_last rest)
  end.

Definition handle_backspace (s : state) : step_result :=
  if search_mode s && str_truthy (search_query s) then
    Continue (set_current_index 0 (set_search_query (drop_last (search_query s)) s))
  else Continue s.

Definition close_or_exit_search (s : state) : step_result :=
  if show_title_detail s then Continue (set_show_title_detail false s)
  else if search_mode s then
    Continue (set_current_index 0 (set_search_query "" (set_search_mode false s)))
  else Continue s.

(** *** The key bindings *)

(** The keys bound with [kb.add]; [Char ch] is a key that sends the
    character [ch]. *)
Inductive key :=
| KeyUp
| KeyDown
| KeyPageUp
| KeyPageDown
| ControlF
| ControlB
| KeyEnter
| ControlC
| KeyBackspace
| KeyEscape
| Char (ch : ascii).

(** The handler bound to a key; a key without a binding does nothing. *)
Definition handle_key (c : closure) (k : key) (s : state) : step_result :=
  match k with
  | KeyUp => move_up s
  | KeyDown => move_down c s
  | KeyPageUp => page_up s
  | KeyPageDown => page_down c s
  | ControlF => page_up_alt s
  | ControlB => page_down_alt c s
  | KeyEnter => confirm s
  | ControlC => cancel s
  | KeyBackspace => handle_backspace s
  | KeyEscape => close_or_exit_search s
  | Char ch =>
      if Ascii.eqb ch " " then toggle_selection c s
      else if Ascii.eqb ch "d" then show_detail c s
      else if Ascii.eqb ch "e" then toggle_filter c s
      else if Ascii.eqb ch "q" then cancel s
      else if Ascii.eqb ch "/" then start_search s
      else if char_in ch allowed_chars then handle_char ch s
      else Continue s
  end.

(** *** The application loop and [select_multiple_custom] *)

(** What the library does while [app.run()] runs, as far as the closures
    can tell; the loop is the library's, and a list of events is what it did,
    in order. *)
Inductive event :=
| Key (k : key)          (* it calls the handler bound to the key [k] *)
| Leaves (e : exn)       (* it ends the run with an exception of its own *)
| Redraw (columns : Z)   (* it draws the layout, the terminal having
                            [columns] columns, and the drawing comes to an end *)
| Resume.                (* it has reported the exception that left the
                            callback before, and goes on *)

Inductive run_result :=
| Returned (r : option (list Z))
| Raised (e : exn).

(** [app.run()]: the callbacks run one after the other on the shared state.
    A handler that calls [event.app.exit(result=r)] ends the run with [r],
    unless the library draws the layout once more and a callback raises. An
    exception that leaves a callback leaves [app.run()], unless the library
    reports it and goes on, which the event [Resume] says; the state is then
    as the callback left it, and a callback raises before it assigns. The
    library raises [EOFError] when its input is closed, which is where a list
    of events ends. *)
Fixpoint app_run (c : closure) (events : list event) (s : state) : run_result :=
  match events with
  | [] => Raised EOFError
  | Leaves e :: _ => Raised e
  | Resume :: rest => app_run c rest s
  | Key k :: rest =>
      match handle_key c k s with
      | Continue s' => app_run c rest s'
      | Exit r =>
          match rest with
          | Redraw columns :: _ =>
              if redraw_raises c s columns then Raised IndexError else Returned r
          | _ => Returned r
          end
      | Raise e =>
          match rest with
          | Resume :: rest' => app_run c rest' s
          | _ => Raised e
          end
      end
  | Redraw columns :: rest =>
      if redraw_raises c s columns then
        match rest with
        | Resume :: rest' => app_run c rest' s
        | _ => Raised IndexError
        end
      else app_run c rest s
  end.

(** The state the closures start from. *)
Definition initial_state (default_values : option (list Z))
    (hide_system_processes : bool) : state :=
  {| selected_indices := list_to_set (default [] default_values);
     current_index := 0;
     filter_system := hide_system_processes;
     search_mode := false;
     search_query := "";
     show_title_detail := false;
     title_detail_index := 0 |}.

Definition select_multiple_custom (choices : list (Z * string))
    (default_values : option (list Z)) (hide_system_processes : bool)
    (process_data : option (list ProcessInfo))
    (exclude_list : option (list string)) (events : list event) : run_result :=
  if negb (list_truthy choices) then Returned (Some [])
  else
    let c := {| choices := choices; process_data := process_data;
                exclude_list := exclude_list |} in
    match app_run c events (initial_state default_values hide_system_processes) with
    | Returned result => Returned result
    | Raised KeyboardInterrupt | Raised EOFError => Returned None
    | Raised e => Raised e
    end.

(** The state after a sequence of key presses none of which ends the
    session; [None] when one of them exits or raises. *)
Fixpoint after_keys (c : closure) (ks : list key) (s : state) : option state :=
  match ks with
  | [] => Some s
  | k :: rest =>
      match handle_key c k s with
      | Continue s' => after_keys c rest s'
      | _ => None
      end
  end.

(** The state after events that keep the session going; [None] when a
    handler exits, when an exception leaves [app.run()], or when the last
    callback raised and the library has not gone on yet. *)
Fixpoint after_events (c : closure) (events : list event) (s : state)
    : option state :=
  match events with
  | [] => Some s
  | Leaves e :: _ => None
  | Resume :: rest => after_events c rest s
  | Key k :: rest =>
      match handle_key c k s with
      | Continue s' => after_events c rest s'
      | Exit r => None
      | Raise e =>
          match rest with
          | Resume :: rest' => after_events c rest' s
          | _ => None
          end
      end
  | Redraw columns :: rest =>
      if redraw_raises c s columns then
        match rest with
        | Resume :: rest' => after_events c rest' s
        | _ => None
        end
      else after_events c rest s
  end.

(* ===================================================================== *)
(** ** Effects: console, child processes, prompts, signals *)
(* ===================================================================== *)

Inductive signal := SIGTERM | SIGKILL | SIG0.

(** The texts given to [console.print], one constructor per call site
    (the markup, emoji and number formatting of the texts are left out). *)
Inductive message :=
| MsgStarting                              (* Starting Process Killer *)
| MsgInvalidSortingMethod (sort_by : string)
| MsgAvailableOptions (joined : string)    (* Available options: ... *)
| MsgExiting (blank_lines : bool)          (* Exiting program. *)
| MsgErrorOccurred (e : exn)               (* An error occurred: ... *)
| MsgStackTrace                            (* Stack trace: *)
| MsgTraceback                             (* traceback.format_exc() *)
| MsgCollecting                            (* Collecting process information... *)
| MsgPsFailed                              (* Failed to retrieve process information: e *)
| MsgRetrieveFailed                        (* Failed to retrieve process information. *)
| MsgNoMatch                               (* No processes match the criteria. *)
| MsgNoProcessesToDisplay
| MsgNoProcessesSelected
| MsgTerminateCount (n : nat)
| MsgBullet (command : string) (pid : Z)
| MsgOperationCancelled (blank_line : bool)
| MsgSendingSignals
| MsgSignalSent (command : string) (pid : Z)
| MsgSignalFailed (command : string) (pid : Z)
| MsgVerifying
| MsgTerminatedNormally (command : string) (pid : Z)
| MsgStillRunningCount (n : nat)
| MsgForceSent (command : string) (pid : Z)
| MsgForceFailed (command : string) (pid : Z)
| MsgVerifyingForce
| MsgStillRunning (command : string) (pid : Z)
| MsgForceTerminated (command : string) (pid : Z).

Inductive effect :=
| Print (m : message)
| RunPs                                          (* subprocess.run(['ps', ...]) *)
| SelectSingle (choices : list (string * string)) (* the menu prompt *)
| SelectMultiple (choices : list (Z * string))    (* the selection engine *)
| AskYesNo (question : string)
| OsKill (pid : Z) (sig : signal)
| Sleep (milliseconds : Z).

(** What [questionary.select(...).ask()] does. *)
Inductive ask_outcome (A : Type) :=
| Answered (a : option A)
| AskInterrupted            (* KeyboardInterrupt *)
| AskFailed.                (* any other exception *)
Arguments Answered {A} a.
Arguments AskInterrupted {A}.
Arguments AskFailed {A}.

(** The answers of the outside world, each a function of what has
    happened so far. *)
Record world := {
  os_getpid : Z;
  (** the records [get_process_info] parses from [ps aux]; [None] when
      [ps] fails with [CalledProcessError] *)
  ps_records : list effect -> option (list ProcessInfo);
  (** the text of the label built for row [i] (widths of East Asian
      characters and the formatting of floats are the platform's) *)
  format_label : nat -> ProcessInfo -> string;
  (** what the library does during a selection session: the keys it
      dispatches, its drawings and the exceptions of its own *)
  ui_events : list effect -> list event;
  yes_no_reply : list effect -> ask_outcome bool;
  (** whether [os.kill(pid, sig)] raises [OSError] *)
  os_kill_raises : list effect -> Z -> signal -> bool
}.

Inductive result (A : Type) :=
| Ok (a : A)
| Err (e : exn).
Arguments Ok {A} a.
Arguments Err {A} e.

(** A computation reads the trace so far and extends it. *)
Definition M (A : Type) : Type := list effect -> result A * list effect.

#[global] Instance M_ret : MRet M := fun A a tr => (Ok a, tr).
#[global] Instance M_bind : MBind M := fun A B f m tr =>
  match m tr with
  | (Ok a, tr') => f a tr'
  | (Err e, tr') => (Err e, tr')
  end.

Definition emit (e : effect) : M unit := fun tr => (Ok tt, tr ++ [e]).
Definition print (m : message) : M unit := emit (Print m).
Definition raise {A} (e : exn) : M A := fun tr => (Err e, tr).
Definition observe {A} (f : list effect -> A) : M A := fun tr => (Ok (f tr), tr).

(** [try: m  except ...: handler e]. *)
Definition try_except {A} (m : M A) (handler : exn -> M A) : M A := fun tr =>
  match m tr with
  | (Ok a, tr') => (Ok a, tr')
  | (Err e, tr') => handler e tr'
  end.

(** [for x in l: body x]. *)
Fixpoint for_each {A} (l : list A) (body : A -> M unit) : M unit :=
  match l with
  | [] => mret tt
  | x :: rest => body x ;; for_each rest body
  end.

(** A loop that collects the elements for which [body] answers [true]. *)
Fixpoint for_collect {A} (l : list A) (body : A -> M bool) : M (list A) :=
  match l with
  | [] => mret []
  | x :: rest =>
      keep ← body x;
      more ← for_collect rest body;
      mret (if keep : bool then x :: more else more)
  end.

(* ===================================================================== *)
(** ** common/questionary_utils.py *)
(* ===================================================================== *)

Definition select_yes_no (w : world) (message : string) : M (option bool) :=
  emit (AskYesNo message) ;;
  reply ← observe (yes_no_reply w);
  match reply with
  | Answered None => raise CancelledError
  | Answered (Some b) => mret (Some b)
  | AskInterrupted => raise KeyboardInterrupt
  | AskFailed => mret None
  end.

Definition select_single (choices : list (string * string))
    (reply : ask_outcome string) : M string :=
  emit (SelectSingle choices) ;;
  match reply with
  | Answered None => raise CancelledError
  | Answered (Some v) => mret v
  | AskInterrupted => raise KeyboardInterrupt
  | AskFailed => raise OtherError
  end.

(* ===================================================================== *)
(** ** process_killer/collector.py (at its interface) *)
(* ===================================================================== *)

Module ProcessCollector.

(** [get_process_info]: every record is built with [selected=False];
    when [ps] fails the failure is printed and the list is empty. *)
Definition get_process_info (w : world) : M (list ProcessInfo) :=
  emit RunPs ;;
  parsed ← observe (ps_records w);
  match parsed with
  | Some records => mret (map (set_selected false) records)
  | None => print MsgPsFailed ;; mret []
  end.

End ProcessCollector.

(* ===================================================================== *)
(** ** process_killer/display.py *)
(* ===================================================================== *)

Module ProcessDisplay.

Record t := { exclude_list : list string }.

Definition init (exclude_list : option (list string)) : t :=
  {| exclude_list := default [] exclude_list |}.

(** [f and f(proc)] for an optional predicate. *)
Definition holds (f : option (ProcessInfo -> bool)) (proc : ProcessInfo) : bool :=
  match f with
  | None => false
  | Some f => f proc
  end.

(** The body of the first loop of [select_processes]: whether [proc] is
    appended to [filtered_processes]. *)
Definition kept (current_pid : Z) (name_filter : option string)
    (is_system_process_func is_excluded_func matches_name_filter_func
       : option (ProcessInfo -> bool))
    (proc : ProcessInfo) : bool :=
  if pid proc =? current_pid then false
  else if holds is_system_process_func proc then false
  else if holds is_excluded_func proc then false
  else if match name_filter, matches_name_filter_func with
          | Some f, Some matches => str_truthy f && negb (matches proc)
          | _, _ => false
          end
       then false
  else true.

Definition filtered_processes (current_pid : Z) (name_filter : option string)
    (is_system_process_func is_excluded_func matches_name_filter_func
       : option (ProcessInfo -> bool))
    (processes : list ProcessInfo) : list ProcessInfo :=
  List.filter (kept current_pid name_filter is_system_process_func
                 is_excluded_func matches_name_filter_func) processes.

(** The second loop: [choices.append((i, label))]. *)
Definition make_choices (w : world) (filtered : list ProcessInfo)
    : list (Z * string) :=
  imap (fun i proc => (Z.of_nat i, format_label w i proc)) filtered.

(** The innermost loop of the commit: the first record with the given pid
    is marked, then [break]. *)
Fixpoint mark_first (p : Z) (processes : list ProcessInfo) : list ProcessInfo :=
  match processes with
  | [] => []
  | proc :: rest =>
      if pid proc =? p then set_selected true proc :: rest
      else proc :: mark_first p rest
  end.

(** One turn of [for idx in selected_indices]. *)
Definition apply_index (filtered : list ProcessInfo) (processes : list ProcessInfo)
    (idx : Z) : list ProcessInfo :=
  if (0 <=? idx) && (idx <? len filtered) then
    match filtered !! Z.to_nat idx with
    | Some original_proc => mark_first (pid original_proc) processes
    | None => processes
    end
  else processes.

(** The statements after the two early returns: deselect every record,
    then mark the selected ones. *)
Definition commit (filtered : list ProcessInfo) (selected_indices : list Z)
    (processes : list ProcessInfo) : list ProcessInfo :=
  foldl (apply_index filtered) (map (set_selected false) processes)
    selected_indices.

(** [select_processes]. The records are mutable objects shared with the
    caller; the function is given their state before and returns their
    state after. *)
Definition select_processes (self : t) (w : world)
    (processes : list ProcessInfo) (name_filter : option string)
    (is_system_process_func is_excluded_func matches_name_filter_func
       : option (ProcessInfo -> bool))
    : M (list ProcessInfo) :=
  if negb (list_truthy processes) then mret processes
  else
    let current_pid := os_getpid w in
    let filtered :=
      filtered_processes current_pid name_filter is_system_process_func
        is_excluded_func matches_name_filter_func processes in
    if negb (list_truthy filtered) then
      print MsgNoProcessesToDisplay ;; mret processes
    else
      let choices := make_choices w filtered in
      emit (SelectMultiple choices) ;;
      events ← observe (ui_events w);
      match select_multiple_custom choices None true (Some filtered)
              (Some (exclude_list self)) events with
      | Raised e => raise e
      | Returned None => mret processes
      | Returned (Some selected_indices) =>
          if negb (list_truthy selected_indices) then
            print MsgNoProcessesSelected ;; mret processes
          else mret (commit filtered selected_indices processes)
      end.

End ProcessDisplay.

(* ===================================================================== *)
(** ** process_killer/killer.py *)
(* ===================================================================== *)

Module ProcessTerminator.

(** [proc.command or proc.name or 'unknown']. *)
Definition shown_command (proc : ProcessInfo) : string :=
  if str_truthy (command proc) then command proc
  else if str_truthy (name proc) then name proc
  else "unknown".

(** [os.kill(pid, sig)]; the answer is whether [OSError] was raised. *)
Definition os_kill (w : world) (p : Z) (sig : signal) : M bool :=
  raised ← observe (fun tr => os_kill_raises w tr p sig);
  emit (OsKill p sig) ;;
  mret raised.

(** Step 1: send SIGTERM; the records whose signal was sent. *)
Definition send_sigterm (w : world) (selected : list ProcessInfo)
    : M (list ProcessInfo) :=
  for_collect selected (fun proc =>
    raised ← os_kill w (pid proc) SIGTERM;
    if raised : bool
    then print (MsgSignalFailed (shown_command proc) (pid proc)) ;; mret false
    else print (MsgSignalSent (shown_command proc) (pid proc)) ;; mret true).

(** Step 2: probe with signal 0; the records still running. *)
Definition probe_running (w : world) (signal_sent : list ProcessInfo)
    : M (list ProcessInfo) :=
  for_collect signal_sent (fun proc =>
    raised ← os_kill w (pid proc) SIG0;
    if raised : bool
    then print (MsgTerminatedNormally (shown_command proc) (pid proc)) ;; mret false
    else mret true).

(** Step 3: after a second confirmation, SIGKILL and a last probe. *)
Definition force_terminate (w : world) (still_running : list ProcessInfo)
    : M unit :=
  print (MsgStillRunningCount (length still_running)) ;;
  for_each still_running (fun proc =>
    print (MsgBullet (shown_command proc) (pid proc))) ;;
  try_except
    (answer ← select_yes_no w "Attempt force termination (SIGKILL)?";
     if default false answer then
       for_each still_running (fun proc =>
         raised ← os_kill w (pid proc) SIGKILL;
         if raised : bool
         then print (MsgForceFailed (shown_command proc) (pid proc))
         else print (MsgForceSent (shown_command proc) (pid proc)) ;;
              emit (Sleep 100)) ;;
       emit (Sleep 1000) ;;
       print MsgVerifyingForce ;;
       for_each still_running (fun proc =>
         raised ← os_kill w (pid proc) SIG0;
         if raised : bool
         then print (MsgForceTerminated (shown_command proc) (pid proc))
         else print (MsgStillRunning (shown_command proc) (pid proc)))
     else mret tt)
    (fun e =>
       match e with
       | KeyboardInterrupt | CancelledError => print (MsgOperationCancelled true)
       | _ => raise e
       end).

Definition kill_selected_processes (w : world) (processes : list ProcessInfo)
    : M unit :=
  let selected := List.filter selected processes in
  if negb (list_truthy selected) then print MsgNoProcessesSelected
  else
    print (MsgTerminateCount (length selected)) ;;
    for_each selected (fun proc =>
      print (MsgBullet (shown_command proc) (pid proc))) ;;
    go_on ← try_except
      (answer ← select_yes_no w "Continue?";
       if negb (default false answer)
       then print (MsgOperationCancelled false) ;; mret false
       else mret true)
      (fun e =>
         match e with
         | KeyboardInterrupt | CancelledError =>
             print (MsgOperationCancelled true) ;; mret false
         | _ => raise e
         end);
    if negb go_on then mret tt
    else
      print MsgSendingSignals ;;
      signal_sent ← send_sigterm w selected;
      if negb (list_truthy signal_sent) then mret tt
      else
        print MsgVerifying ;;
        emit (Sleep 2000) ;;
        still_running ← probe_running w signal_sent;
        if list_truthy still_running then force_terminate w still_running
        else mret tt.

End ProcessTerminator.

(* ===================================================================== *)
(** ** process_killer/main.py *)
(* ===================================================================== *)

Module ProcessKiller.

Record t := {
  exclude_list : list string;
  name_filter : option string;
  filter : ProcessFilter.t;
  display : ProcessDisplay.t;
  sort_options : list (string * (string * (list ProcessInfo -> list ProcessInfo)))
}.

Definition init (exclude_list : option (list string))
    (name_filter : option string) : t :=
  {| exclude_list := default [] exclude_list;
     name_filter := name_filter;
     filter := ProcessFilter.init exclude_list name_filter;
     display := ProcessDisplay.init exclude_list;
     sort_options := ProcessSorter.get_sort_options |}.

Definition menu_choices (self : t) : list (string * string) :=
  map (fun '(key, (name, _)) => (key, name)) (sort_options self)
  ++ [("exit", "Exit")]%string.

Definition show_menu (self : t) (reply : ask_outcome string) : M string :=
  try_except
    (selected ← select_single (menu_choices self) reply;
     mret (if str_truthy selected then selected else "exit"))
    (fun e =>
       match e with
       | CancelledError => mret "exit"
       | _ => raise e
       end).

Definition _execute_sort_option (self : t) (w : world) (choice : string)
    : M unit :=
  print MsgCollecting ;;
  all_processes ← ProcessCollector.get_process_info w;
  if negb (list_truthy all_processes) then print MsgRetrieveFailed
  else
    match ProcessSorter.lookup choice (sort_options self) with
    | None => raise OtherError          (* KeyError *)
    | Some (_, sort_func) =>
        let sorted_processes := sort_func all_processes in
        if negb (list_truthy sorted_processes) then print MsgNoMatch
        else
          sorted_processes ←
            ProcessDisplay.select_processes (display self) w sorted_processes
              (name_filter self)
              (Some (ProcessFilter.is_system_process (filter self)))
              (Some (ProcessFilter.is_excluded (filter self)))
              (Some (ProcessFilter.matches_name_filter (filter self)));
          ProcessTerminator.kill_selected_processes w sorted_processes
    end.

(** [key in self.sort_options]. *)
Definition is_sort_option (self : t) (key : string) : bool :=
  str_member key (ProcessSorter.keys (sort_options self)).

(** The three [except] clauses of [run]; the answer is whether the
    loop is left ([break]). [KeyboardInterrupt] is not an [Exception]. *)
Definition handle_exception (e : exn) : M bool :=
  match e with
  | KeyboardInterrupt | CancelledError => print (MsgExiting true) ;; mret true
  | _ =>
      print (MsgErrorOccurred e) ;; print MsgStackTrace ;; print MsgTraceback ;;
      mret false
  end.

(** One turn of [while True]; the answer is whether the loop is left. *)
Definition menu_turn (self : t) (w : world) (reply : ask_outcome string)
    : M bool :=
  try_except
    (choice ← show_menu self reply;
     if String.eqb choice "exit" then print (MsgExiting false) ;; mret true
     else
       (if is_sort_option self choice then _execute_sort_option self w choice
        else mret tt) ;;
       mret false)
    handle_exception.

(** How [run] ends: it returns, or it waits at the menu for an answer
    that never comes. *)
Inductive status := Finished | AwaitingMenuAnswer.

(** [while True], one menu answer per turn. *)
Fixpoint menu_loop (self : t) (w : world) (replies : list (ask_outcome string))
    : M status :=
  match replies with
  | [] => emit (SelectSingle (menu_choices self)) ;; mret AwaitingMenuAnswer
  | reply :: rest =>
      leave ← menu_turn self w reply;
      if leave : bool then mret Finished else menu_loop self w rest
  end.

Definition run (self : t) (w : world) (sort_by : option string)
    (replies : list (ask_outcome string)) : M status :=
  print MsgStarting ;;
  match sort_by with
  | Some by_ =>
      if str_truthy by_ then
        if negb (is_sort_option self by_) then
          print (MsgInvalidSortingMethod by_) ;;
          print (MsgAvailableOptions
                   (String.concat ", " (ProcessSorter.keys (sort_options self)))) ;;
          mret Finished
        else
          try_except (_execute_sort_option self w by_ ;; mret false)
            handle_exception ;;
          mret Finished
      else menu_loop self w replies
  | None => menu_loop self w replies
  end.

End ProcessKiller.

(* ===================================================================== *)
(** ** cli/main.py *)
(* ===================================================================== *)

Module Cli.

(** The exclusion list [run_process_killer] builds from [--excludes]. *)
Definition exclude_list (excludes : option string) : list string :=
  match excludes with
  | Some text => if str_truthy text then map strip (str_split "," text) else []
  | None => []
  end.

Definition run_process_killer (w : world) (by_ excludes name : option string)
    (replies : list (ask_outcome string)) : M ProcessKiller.status :=
  let killer := ProcessKiller.init (Some (exclude_list excludes)) name in
  ProcessKiller.run killer w by_ replies.

End Cli.

(* ===================================================================== *)
(** * Properties *)
(* ===================================================================== *)

(** ** The system-process heuristic *)

(** C9. [is_system_process] answers [false] for every record whose pid is
    not 1, whose user is no system user, whose lower-cased name contains no
    system process name and whose lower-cased command starts with no system
    path, whatever its [ppid]; and it equals, record by record, the function
    without the [ppid == '1'] statement. *)
Theorem is_system_process_ignores_ppid (proc : ProcessInfo) :
  (pid proc <> 1 ->
   str_member (user proc) SYSTEM_USERS = false ->
   existsb (fun sys_name => str_in sys_name (lower (name proc)))
     SYSTEM_PROCESS_NAMES = false ->
   existsb (fun path => startswith (lower (command proc)) path)
     SYSTEM_PATHS = false ->
   is_system_process proc = false)
  /\ is_system_process proc = is_system_process_without_ppid proc.
Proof.
  split.
  - intros Hpid Huser Hname Hpath.
    unfold is_system_process.
    apply Z.eqb_neq in Hpid. rewrite Hpid, Huser.
    cbv zeta. rewrite Hname, Hpath.
    destruct (String.eqb (ppid proc) "1"); reflexivity.
  - unfold is_system_process, is_system_process_without_ppid.
    destruct (pid proc =? 1); [reflexivity|].
    destruct (str_member (user proc) SYSTEM_USERS); [reflexivity|].
    cbv zeta.
    destruct (existsb _ SYSTEM_PROCESS_NAMES); [reflexivity|].
    destruct (existsb _ SYSTEM_PATHS); [reflexivity|].
    destruct (String.eqb (ppid proc) "1"); reflexivity.
Qed.

(** A user process whose parent is the init process. *)
Definition child_of_init : ProcessInfo :=
  {| user := "alice"; pid := 4242; ppid := "1"; cpu := 0%float; mem := 0%float;
     stat := "S"; start := "10:00"; uptime := "5m";
     command := "/opt/tools/worker --serve"; name := "tools / worker";
     type := "worker"; selected := false |}.

Lemma is_system_process_ignores_ppid_witness :
  ppid child_of_init = "1" /\ is_system_process child_of_init = false.
Proof.
  split; [reflexivity|].
  apply (proj1 (is_system_process_ignores_ppid child_of_init)).
  - vm_compute. discriminate.
  - vm_compute. reflexivity.
  - vm_compute. reflexivity.
  - vm_compute. reflexivity.
Defined.

(** ** The filtered view *)

(** The view reads the state only through what the hide-toggle and the
    search skip. *)
Lemma filtered_from_pointwise (c : closure) (s1 s2 : state) :
  (forall idx, skipped_by_filter c s1 idx = skipped_by_filter c s2 idx) ->
  (forall label, skipped_by_search s1 label = skipped_by_search s2 label) ->
  forall l idx, filtered_from c s1 idx l = filtered_from c s2 idx l.
Proof.
  intros Hf Hq l.
  induction l as [|[value label] rest IH]; intros idx; simpl; [reflexivity|].
  rewrite Hf, Hq, !IH. reflexivity.
Qed.

Lemma filtered_from_agree (c : closure) (s1 s2 : state) :
  filter_system s1 = filter_system s2 ->
  (forall label, skipped_by_search s1 label = skipped_by_search s2 label) ->
  forall l idx, filtered_from c s1 idx l = filtered_from c s2 idx l.
Proof.
  intros Hf Hq. apply filtered_from_pointwise; [|assumption].
  intros idx. unfold skipped_by_filter. by rewrite Hf.
Qed.

Lemma get_filtered_choices_ext (c : closure) (s1 s2 : state) :
  filter_system s1 = filter_system s2 ->
  search_mode s1 = search_mode s2 ->
  search_query s1 = search_query s2 ->
  get_filtered_choices c s1 = get_filtered_choices c s2.
Proof.
  intros Hf Hm Hq. unfold get_filtered_choices.
  apply filtered_from_agree; [assumption|].
  intros label. unfold skipped_by_search. by rewrite Hm, Hq.
Qed.

(** Every entry of the view is an entry of the choices. *)
Lemma filtered_from_subset (c : closure) (s : state) (e : Z * string) :
  forall l idx, e ∈ filtered_from c s idx l -> e ∈ l.
Proof.
  induction l as [|[value label] rest IH]; intros idx; simpl; [done|].
  destruct (skipped_by_filter c s idx).
  { intros H. right. eauto. }
  destruct (skipped_by_search s label).
  { intros H. right. eauto. }
  intros H. apply elem_of_cons in H as [->|H]; [left|right; eauto].
Qed.

Lemma py_getitem_elem {A} (l : list A) (i : Z) (x : A) :
  py_getitem l i = Some x -> x ∈ l.
Proof.
  unfold py_getitem.
  destruct (0 <=? i); [by apply list_elem_of_lookup_2|].
  destruct (0 <=? _); [by apply list_elem_of_lookup_2|done].
Qed.

Lemma py_getitem_nonneg {A} (l : list A) (i : Z) :
  0 <= i -> py_getitem l i = l !! Z.to_nat i.
Proof.
  intros H. unfold py_getitem.
  destruct (Z.leb_spec 0 i); [reflexivity|lia].
Qed.

(** ** Paging *)

(** A list of [n] plain choices [(0, "row"); (1, "row"); ...]. *)
Definition plain_choices (n : nat) : list (Z * string) :=
  imap (fun i (_ : unit) => (Z.of_nat i, "row")) (replicate n tt).

Definition plain_closure (n : nat) : closure :=
  {| choices := plain_choices n; process_data := None; exclude_list := None |}.

(** C4. Outside the detail overlay, the page of the cursor starts at
    [(cursor / page_size) * page_size] and ends at the minimum of the start
    plus the page size and the length of the view; PageDown puts the cursor
    on the page end when rows lie beyond it and on the last row otherwise;
    PageUp puts it on [max 0 (page_start - page_size)] when the page start
    is positive and on row 0 otherwise; with a page size of 20 and 45 rows
    in the view, three PageDowns from row 0 reach rows 20, 40 and 44. *)
Theorem paging_rule (c : closure) (s : state) :
  show_title_detail s = false ->
  let filtered := get_filtered_choices c s in
  get_page_start s = (current_index s / page_size) * page_size
  /\ get_page_end c s = Z.min (get_page_start s + page_size) (len filtered)
  /\ handle_key c KeyPageDown s =
       Continue (set_current_index
                   (if get_page_end c s <? len filtered then get_page_end c s
                    else len filtered - 1) s)
  /\ handle_key c KeyPageUp s =
       Continue (set_current_index
                   (if 0 <? get_page_start s
                    then Z.max 0 (get_page_start s - page_size) else 0) s)
  /\ (len filtered = 45 -> current_index s = 0 ->
      page_size = 20
      /\ exists s1 s2 s3,
           handle_key c KeyPageDown s = Continue s1 /\ current_index s1 = 20
        /\ handle_key c KeyPageDown s1 = Continue s2 /\ current_index s2 = 40
        /\ handle_key c KeyPageDown s2 = Continue s3 /\ current_index s3 = 44).
Proof.
  intros Hd filtered.
  assert (Hdown : forall t, show_title_detail t = false ->
            handle_key c KeyPageDown t =
              Continue (set_current_index
                (if get_page_end c t <? len (get_filtered_choices c t)
                 then get_page_end c t
                 else len (get_filtered_choices c t) - 1) t)).
  { intros t Ht. simpl. unfold page_down. rewrite Ht.
    destruct (Z.ltb_spec (get_page_end c t) (len (get_filtered_choices c t)));
      [|reflexivity].
    f_equal. f_equal. lia. }
  split; [reflexivity|]. split; [reflexivity|].
  split; [by apply Hdown|].
  split.
  { simpl. unfold page_up. rewrite Hd.
    destruct (0 <? get_page_start s); reflexivity. }
  intros Hlen Hcur. split; [reflexivity|].
  assert (Hview : forall v t, get_filtered_choices c (set_current_index v t)
                              = get_filtered_choices c t).
  { intros. by apply get_filtered_choices_ext. }
  eexists _, _, _.
  split; [by apply Hdown|]. split.
  { simpl. unfold get_page_end, get_page_start. fold filtered.
    rewrite Hlen, Hcur. reflexivity. }
  split; [by apply Hdown|]. split.
  { simpl. unfold get_page_end, get_page_start. simpl.
    rewrite !Hview. fold filtered. rewrite Hlen, Hcur. reflexivity. }
  split; [by apply Hdown|].
  simpl. unfold get_page_end, get_page_start. simpl.
  rewrite !Hview. fold filtered. rewrite Hlen, Hcur. reflexivity.
Qed.

Lemma paging_rule_witness :
  exists s1 s2 s3,
    handle_key (plain_closure 45) KeyPageDown (initial_state None true)
      = Continue s1 /\ current_index s1 = 20
    /\ handle_key (plain_closure 45) KeyPageDown s1 = Continue s2
    /\ current_index s2 = 40
    /\ handle_key (plain_closure 45) KeyPageDown s2 = Continue s3
    /\ current_index s3 = 44.
Proof.
  apply (paging_rule (plain_closure 45) (initial_state None true)).
  - reflexivity.
  - vm_compute. reflexivity.
  - reflexivity.
Defined.

(** ** Search mode *)

(** The keys that edit the query while Search mode is active: the
    characters bound to [handle_char], Space, the slash and Backspace. *)
Definition is_query_key (k : key) : bool :=
  match k with
  | Char ch => Ascii.eqb ch " " || Ascii.eqb ch "/" || char_in ch allowed_chars
  | KeyBackspace => true
  | _ => false
  end.

(** In Search mode a query key changes the query and the cursor only. *)
Lemma query_key_step (c : closure) (k : key) (s : state) :
  is_query_key k = true ->
  show_title_detail s = false ->
  search_mode s = true ->
  exists s', handle_key c k s = Continue s'
    /\ show_title_detail s' = false
    /\ search_mode s' = true
    /\ filter_system s' = filter_system s
    /\ selected_indices s' = selected_indices s.
Proof.
  intros Hk Hd Hm.
  destruct k as [ | | | | | | | | | |ch]; simpl in Hk; try discriminate.
  - simpl. unfold handle_backspace. rewrite Hm. simpl.
    destruct (str_truthy (search_query s)); eexists; (split; [reflexivity|]);
      simpl; auto.
  - simpl.
    destruct (Ascii.eqb_spec ch " ") as [->|Hsp].
    { unfold toggle_selection. rewrite Hd, Hm. eexists. split; [reflexivity|].
      simpl. auto. }
    destruct (Ascii.eqb_spec ch "d") as [->|_]; [vm_compute in Hk; discriminate|].
    destruct (Ascii.eqb_spec ch "e") as [->|_]; [vm_compute in Hk; discriminate|].
    destruct (Ascii.eqb_spec ch "q") as [->|_]; [vm_compute in Hk; discriminate|].
    destruct (Ascii.eqb_spec ch "/") as [->|Hsl].
    { unfold start_search. rewrite Hd, Hm. simpl. eexists. split; [reflexivity|].
      simpl. auto. }
    simpl in Hk. rewrite Hk. unfold handle_char. rewrite Hm.
    eexists. split; [reflexivity|]. simpl. auto.
Qed.

Lemma query_keys_run (c : closure) (ks : list key) :
  forallb is_query_key ks = true ->
  forall s, show_title_detail s = false -> search_mode s = true ->
  exists s', after_keys c ks s = Some s'
    /\ show_title_detail s' = false
    /\ search_mode s' = true
    /\ filter_system s' = filter_system s
    /\ selected_indices s' = selected_indices s.
Proof.
  induction ks as [|k ks IH]; intros Hks s Hd Hm.
  - exists s. simpl. auto.
  - simpl in Hks. apply andb_prop in Hks as [Hk Hks].
    destruct (query_key_step c k s Hk Hd Hm) as (s1 & Hstep & Hd1 & Hm1 & Hf1 & Hs1).
    destruct (IH Hks s1 Hd1 Hm1) as (s2 & Hrun & Hd2 & Hm2 & Hf2 & Hs2).
    exists s2. simpl. rewrite Hstep.
    repeat split; try assumption; congruence.
Qed.

Lemma after_keys_app (c : closure) (ks1 ks2 : list key) (s : state) :
  after_keys c (ks1 ++ ks2) s =
    match after_keys c ks1 s with
    | Some s1 => after_keys c ks2 s1
    | None => None
    end.
Proof.
  revert s. induction ks1 as [|k ks1 IH]; intros s; simpl; [reflexivity|].
  destruct (handle_key c k s); auto.
Qed.

(** C7. From Normal mode, the slash, then any query keys, then Escape
    leave the session in Normal mode with an empty query and with the
    filtered view it had before the slash; the hide-toggle and the selected
    set are untouched on the way. *)
Theorem search_escape_round_trip (c : closure) (s : state) (ks : list key) :
  show_title_detail s = false ->
  search_mode s = false ->
  forallb is_query_key ks = true ->
  exists s',
    after_keys c (Char "/" :: ks ++ [KeyEscape]) s = Some s'
    /\ search_query s' = ""
    /\ search_mode s' = false
    /\ show_title_detail s' = false
    /\ filter_system s' = filter_system s
    /\ selected_indices s' = selected_indices s
    /\ get_filtered_choices c s' = get_filtered_choices c s.
Proof.
  intros Hd Hm Hks.
  set (s0 := set_current_index 0 (set_search_query "" (set_search_mode true s))).
  assert (Hslash : handle_key c (Char "/") s = Continue s0).
  { simpl. unfold start_search. rewrite Hd, Hm. reflexivity. }
  destruct (query_keys_run c ks Hks s0) as (s1 & Hrun & Hd1 & Hm1 & Hf1 & Hs1);
    [assumption|reflexivity|].
  exists (set_current_index 0 (set_search_query "" (set_search_mode false s1))).
  split.
  { cbn [after_keys]. rewrite Hslash, after_keys_app, Hrun. simpl.
    unfold close_or_exit_search. rewrite Hd1, Hm1. reflexivity. }
  simpl. repeat split; try assumption.
  unfold get_filtered_choices. apply filtered_from_agree; simpl.
  - assumption.
  - (* the query is read only in Search mode *)
    intros label. unfold skipped_by_search. simpl. by rewrite Hm.
Qed.

Lemma search_escape_round_trip_witness :
  exists s',
    after_keys (plain_closure 3)
      (Char "/" :: [Char "r"; Char " "; KeyBackspace; Char "/"] ++ [KeyEscape])
      (initial_state None true) = Some s'
    /\ search_query s' = ""
    /\ search_mode s' = false
    /\ show_title_detail s' = false
    /\ filter_system s' = filter_system (initial_state None true)
    /\ selected_indices s' = selected_indices (initial_state None true)
    /\ get_filtered_choices (plain_closure 3) s'
       = get_filtered_choices (plain_closure 3) (initial_state None true).
Proof.
  apply (search_escape_round_trip (plain_closure 3) (initial_state None true)
           [Char "r"; Char " "; KeyBackspace; Char "/"]).
  - reflexivity.
  - reflexivity.
  - vm_compute. reflexivity.
Defined.

(** ** The cursor *)

(** The range the specification gives the cursor. *)
Definition cursor_in_range (c : closure) (s : state) : Prop :=
  0 <= current_index s < Z.max 1 (len (get_filtered_choices c s)).

(** One choice, no process data. *)
Definition one_choice : closure :=
  {| choices := [(0, "abc")]; process_data := None; exclude_list := None |}.

Lemma len_nonneg {A} (l : list A) : 0 <= len l.
Proof. unfold len. lia. Qed.

Lemma get_page_start_le (s : state) :
  0 <= current_index s -> 0 <= get_page_start s <= current_index s.
Proof.
  intros H. unfold get_page_start, page_size.
  pose proof (Z.div_pos (current_index s) 20 H ltac:(lia)).
  pose proof (Z.mul_div_le (current_index s) 20 ltac:(lia)).
  lia.
Qed.

(** X22. Every handler keeps a cursor that is in range in range, PageDown
    (and its alternate key) on an empty view apart. *)
Lemma cursor_in_range_step (c : closure) (k : key) (s s' : state) :
  cursor_in_range c s ->
  handle_key c k s = Continue s' ->
  get_filtered_choices c s <> []
  \/ (k <> KeyPageDown /\ k <> ControlB)
  \/ show_title_detail s = true ->
  cursor_in_range c s'.
Proof.
  unfold cursor_in_range. intros Hr Hstep Hside.
  assert (Hview : forall v, get_filtered_choices c (set_current_index v s)
                            = get_filtered_choices c s)
    by (intros; by apply get_filtered_choices_ext).
  assert (Hshow : forall v, get_filtered_choices c (set_show_title_detail v s)
                            = get_filtered_choices c s)
    by (intros; by apply get_filtered_choices_ext).
  assert (Hdown : page_down c s = Continue s' ->
            get_filtered_choices c s <> [] \/ show_title_detail s = true ->
            0 <= current_index s' < Z.max 1 (len (get_filtered_choices c s'))).
  { unfold page_down. intros Hpd Hne.
    destruct (show_title_detail s) eqn:Hd.
    { inversion Hpd; subst. simpl. rewrite Hshow. exact Hr. }
    destruct Hne as [Hne|?]; [|discriminate].
    assert (0 < len (get_filtered_choices c s)).
    { destruct (get_filtered_choices c s); [done|]. unfold len. simpl. lia. }
    pose proof (get_page_start_le s (proj1 Hr)) as Hps.
    unfold get_page_end in Hpd.
    destruct (_ <? _) in Hpd; inversion Hpd; subst; simpl; rewrite Hview;
      unfold page_size in *; lia. }
  assert (Hup : page_up s = Continue s' ->
            0 <= current_index s' < Z.max 1 (len (get_filtered_choices c s'))).
  { unfold page_up. intros Hpu.
    pose proof (get_page_start_le s (proj1 Hr)) as Hps.
    pose proof (len_nonneg (get_filtered_choices c s)).
    destruct (show_title_detail s).
    { inversion Hpu; subst. simpl. rewrite Hshow. exact Hr. }
    destruct (0 <? _) in Hpu; inversion Hpu; subst; simpl; rewrite Hview;
      unfold page_size in *; lia. }
  destruct k as [ | | | | | | | | | |ch]; cbn [handle_key] in Hstep.
  - (* up *)
    unfold move_up in Hstep.
    destruct (show_title_detail s); [inversion Hstep; subst; simpl; by rewrite Hshow|].
    destruct (Z.ltb_spec 0 (current_index s)); inversion Hstep; subst; simpl;
      rewrite ?Hview; lia.
  - (* down *)
    unfold move_down in Hstep.
    destruct (show_title_detail s); [inversion Hstep; subst; simpl; by rewrite Hshow|].
    destruct (Z.ltb_spec (current_index s) (len (get_filtered_choices c s) - 1));
      inversion Hstep; subst; simpl; rewrite ?Hview; lia.
  - by apply Hup.
  - apply Hdown; [assumption|]. destruct Hside as [?|[[? _]|?]]; auto; done.
  - unfold page_up_alt in Hstep.
    destruct (show_title_detail s); simpl in Hstep; [by inversion Hstep; subst|].
    by apply Hup.
  - unfold page_down_alt in Hstep.
    destruct (show_title_detail s) eqn:Hd; simpl in Hstep;
      [by inversion Hstep; subst|].
    apply Hdown; [assumption|]. destruct Hside as [?|[[_ ?]|?]]; auto; done.
  - unfold confirm in Hstep.
    destruct (show_title_detail s); inversion Hstep; subst; simpl. by rewrite Hshow.
  - unfold cancel in Hstep.
    destruct (show_title_detail s); inversion Hstep; subst; simpl. by rewrite Hshow.
  - unfold handle_backspace in Hstep.
    destruct (_ && _); inversion Hstep; subst; simpl; [|assumption].
    pose proof (len_nonneg (get_filtered_choices c
      (set_current_index 0 (set_search_query (drop_last (search_query s)) s)))).
    lia.
  - unfold close_or_exit_search in Hstep.
    destruct (show_title_detail s); [inversion Hstep; subst; simpl; by rewrite Hshow|].
    destruct (search_mode s); inversion Hstep; subst; simpl; [|assumption].
    pose proof (len_nonneg (get_filtered_choices c
      (set_current_index 0 (set_search_query "" (set_search_mode false s))))).
    lia.
  - destruct (Ascii.eqb ch " ").
    { unfold toggle_selection in Hstep.
      destruct (show_title_detail s); [inversion Hstep; subst; simpl; by rewrite Hshow|].
      destruct (search_mode s).
      { inversion Hstep; subst; simpl.
        match goal with |- context [len ?l] => pose proof (len_nonneg l) end. lia. }
      destruct (_ <? _); [|by inversion Hstep; subst].
      destruct (py_getitem _ _) as [[value label]|]; [|discriminate].
      destruct (bool_decide _); inversion Hstep; subst; simpl;
        (erewrite get_filtered_choices_ext; [exact Hr|reflexivity..]). }
    destruct (Ascii.eqb ch "d").
    { unfold show_detail in Hstep.
      destruct (show_title_detail s); [inversion Hstep; subst; simpl; by rewrite Hshow|].
      destruct (process_data c); [|by inversion Hstep; subst].
      destruct (_ <? _); [|by inversion Hstep; subst].
      destruct (py_getitem _ _) as [[value label]|]; [|discriminate].
      destruct (_ <? _); inversion Hstep; subst; simpl; [|assumption].
      erewrite get_filtered_choices_ext; [exact Hr|reflexivity..]. }
    destruct (Ascii.eqb ch "e").
    { unfold toggle_filter in Hstep.
      destruct (show_title_detail s); [inversion Hstep; subst; simpl; by rewrite Hshow|].
      simpl in Hstep.
      set (s1 := set_filter_system (negb (filter_system s)) s) in *.
      pose proof (len_nonneg (get_filtered_choices c s1)).
      destruct (Z.leb_spec (len (get_filtered_choices c s1)) (current_index s));
        inversion Hstep; subst; simpl.
      - rewrite (get_filtered_choices_ext c (set_current_index _ s1) s1)
          by reflexivity.
        lia.
      - lia. }
    destruct (Ascii.eqb ch "q").
    { unfold cancel in Hstep.
      destruct (show_title_detail s); inversion Hstep; subst; simpl. by rewrite Hshow. }
    destruct (Ascii.eqb ch "/").
    { unfold start_search in Hstep.
      destruct (_ && _).
      { inversion Hstep; subst; simpl.
        match goal with |- context [len ?l] => pose proof (len_nonneg l) end. lia. }
      destruct (search_mode s); inversion Hstep; subst; simpl; [|assumption].
      match goal with |- context [len ?l] => pose proof (len_nonneg l) end. lia. }
    destruct (char_in ch allowed_chars); [|by inversion Hstep; subst].
    unfold handle_char in Hstep.
    destruct (search_mode s); inversion Hstep; subst; simpl; [|assumption].
    match goal with |- context [len ?l] => pose proof (len_nonneg l) end. lia.
Qed.

(** C3 (the code departs from it). After the slash, a character no label
    contains, and PageDown, the view is empty and the cursor is -1: it is
    outside [0 <= cursor < max 1 (len filtered)]. [page_down] assigns
    [len(filtered) - 1] without the [max(0, ...)] that [toggle_filter] applies;
    drawing the list in that state fails on [filtered[-20]]. *)
Theorem page_down_on_empty_view_leaves_range :
  exists s,
    after_keys one_choice [Char "/"; Char "x"; KeyPageDown] (initial_state None true)
      = Some s
    /\ get_filtered_choices one_choice s = []
    /\ current_index s = -1
    /\ ~ cursor_in_range one_choice s
    /\ render_content one_choice s = None.
Proof.
  eexists. split; [reflexivity|].
  split; [reflexivity|]. split; [reflexivity|]. split.
  - intros [Hlow _]. vm_compute in Hlow. by apply Hlow.
  - reflexivity.
Qed.

(** ** Selection *)

(** The state after the membership of [v] in the selected set is flipped. *)
Definition toggle_index (v : Z) (s : state) : state :=
  set_selected_indices
    (if bool_decide (v ∈ selected_indices s)
     then selected_indices s ∖ {[v]}
     else selected_indices s ∪ {[v]}) s.

(** The text of the row at position [i] of the view when it is checked. *)
Definition checked_row_text (s : state) (i : Z) (label : string) : string :=
  (if i =? current_index s then "> " else "  ") +:+ "[X]" +:+ " " +:+ label.

(** Only Space pressed in Normal mode assigns the selected set. *)
Lemma selected_frame (c : closure) (k : key) (s s' : state) :
  handle_key c k s = Continue s' ->
  k <> Char " " \/ search_mode s = true \/ show_title_detail s = true ->
  selected_indices s' = selected_indices s.
Proof.
  intros Hstep Hside.
  destruct k as [ | | | | | | | | | |ch]; cbn [handle_key] in Hstep.
  - unfold move_up in Hstep.
    destruct (show_title_detail s); [by inversion Hstep|].
    destruct (_ <? _); by inversion Hstep.
  - unfold move_down in Hstep.
    destruct (show_title_detail s); [by inversion Hstep|].
    destruct (_ <? _); by inversion Hstep.
  - unfold page_up in Hstep.
    destruct (show_title_detail s); [by inversion Hstep|].
    destruct (_ <? _); by inversion Hstep.
  - unfold page_down in Hstep.
    destruct (show_title_detail s); [by inversion Hstep|].
    destruct (_ <? _); by inversion Hstep.
  - unfold page_up_alt, page_up in Hstep.
    destruct (show_title_detail s); simpl in Hstep; [by inversion Hstep|].
    destruct (_ <? _); by inversion Hstep.
  - unfold page_down_alt, page_down in Hstep.
    destruct (show_title_detail s); simpl in Hstep; [by inversion Hstep|].
    destruct (_ <? _); by inversion Hstep.
  - unfold confirm in Hstep. destruct (show_title_detail s); by inversion Hstep.
  - unfold cancel in Hstep. destruct (show_title_detail s); by inversion Hstep.
  - unfold handle_backspace in Hstep. destruct (_ && _); by inversion Hstep.
  - unfold close_or_exit_search in Hstep.
    destruct (show_title_detail s); [by inversion Hstep|].
    destruct (search_mode s); by inversion Hstep.
  - destruct (Ascii.eqb_spec ch " ") as [->|Hsp].
    { unfold toggle_selection in Hstep.
      destruct (show_title_detail s); [by inversion Hstep|].
      destruct (search_mode s); [by inversion Hstep|].
      destruct Hside as [?|[?|?]]; done. }
    destruct (Ascii.eqb ch "d").
    { unfold show_detail in Hstep.
      destruct (show_title_detail s); [by inversion Hstep|].
      destruct (process_data c); [|by inversion Hstep].
      destruct (_ <? _); [|by inversion Hstep].
      destruct (py_getitem _ _) as [[value label]|]; [|discriminate].
      destruct (_ <? _); by inversion Hstep. }
    destruct (Ascii.eqb ch "e").
    { unfold toggle_filter in Hstep.
      destruct (show_title_detail s); [by inversion Hstep|].
      destruct (_ <=? _); by inversion Hstep. }
    destruct (Ascii.eqb ch "q").
    { unfold cancel in Hstep. destruct (show_title_detail s); by inversion Hstep. }
    destruct (Ascii.eqb ch "/").
    { unfold start_search in Hstep.
      destruct (_ && _); [by inversion Hstep|].
      destruct (search_mode s); by inversion Hstep. }
    destruct (char_in ch allowed_chars); [|by inversion Hstep].
    unfold handle_char in Hstep.
    destruct (search_mode s); by inversion Hstep.
Qed.

Lemma selected_frame_run (c : closure) (ks : list key) :
  Forall (fun k => k <> Char " ") ks ->
  forall s s', after_keys c ks s = Some s' ->
  selected_indices s' = selected_indices s.
Proof.
  induction 1 as [|k ks Hk _ IH]; intros s s' Hrun; simpl in Hrun.
  - by inversion Hrun.
  - destruct (handle_key c k s) as [s1| |] eqn:Hstep; try discriminate.
    rewrite (IH _ _ Hrun). eapply selected_frame; eauto.
Qed.

(** The loop of [render_content] over non-negative positions ends without
    an exception and draws every row of the view in its range. *)
Lemma render_rows_draws (s : state) (filtered : list (Z * string)) (page_end : Z) :
  forall (n : nat) (first : Z), 0 <= first ->
  exists rows,
    render_rows s filtered page_end (seqZ first (Z.of_nat n)) = Some rows
    /\ forall i v label,
         first <= i < first + Z.of_nat n ->
         filtered !! Z.to_nat i = Some (v, label) ->
         forall e, e ∈ render_row s page_end i v label -> e ∈ rows.
Proof.
  induction n as [|n IH]; intros first Hfirst.
  - exists []. split; [reflexivity|]. intros; lia.
  - rewrite seqZ_cons by lia.
    replace (Z.pred (Z.of_nat (S n))) with (Z.of_nat n) by lia.
    cbn [render_rows].
    destruct (Z.leb_spec (len filtered) first) as [Hge|Hlt].
    { exists []. split; [reflexivity|].
      intros i v label Hi Hlook. apply lookup_lt_Some in Hlook.
      unfold len in Hge. lia. }
    rewrite py_getitem_nonneg by assumption.
    destruct (lookup_lt_is_Some_2 filtered (Z.to_nat first)) as [[v0 l0] Hfirstrow].
    { unfold len in Hlt. lia. }
    rewrite Hfirstrow.
    destruct (IH (Z.succ first)) as (more & Hmore & Hrows); [lia|].
    rewrite Hmore. eexists. split; [reflexivity|].
    intros i v label Hi Hlook e He.
    apply elem_of_app.
    destruct (decide (i = first)) as [->|Hne].
    + left. rewrite Hfirstrow in Hlook. by inversion Hlook; subst.
    + right. eapply Hrows; eauto. lia.
Qed.

Lemma render_content_checked (c : closure) (s : state) (i v : Z) (label : string) :
  0 <= get_page_start s ->
  get_page_start s <= i < get_page_end c s ->
  get_filtered_choices c s !! Z.to_nat i = Some (v, label) ->
  v ∈ selected_indices s ->
  exists rows style,
    render_content c s = Some rows
    /\ (style, checked_row_text s i label) ∈ rows.
Proof.
  intros Hstart Hi Hlook Hsel.
  unfold render_content.
  destruct (render_rows_draws s (get_filtered_choices c s) (get_page_end c s)
              (Z.to_nat (get_page_end c s - get_page_start s))
              (get_page_start s) Hstart) as (rows & Hrows & Hdraw).
  rewrite Z2Nat.id in Hrows, Hdraw by lia.
  rewrite Hrows.
  specialize (Hdraw i v label ltac:(lia) Hlook).
  unfold render_row in Hdraw. rewrite bool_decide_eq_true_2 in Hdraw by assumption.
  specialize (Hdraw _ ltac:(left)).
  destruct rows as [|row rows]; [by apply elem_of_nil in Hdraw|].
  eexists _, _. split; [reflexivity|]. exact Hdraw.
Qed.

(** C1. In Normal mode with the cursor on the row [(v, label)] of the
    filtered view, Space flips the membership of [v] (the value of the
    entry, not its position in the view) in the selected set and changes
    nothing else; a handler other than Space in Normal mode ([e], every
    change of the search query, ...) leaves the selected set as it is; so
    after [v] is checked, whatever keys other than Space follow, [v] is
    still selected and every row of the drawn page that carries [v] is
    drawn checked. *)
Theorem selection_follows_stable_index (c : closure) (s : state) (v : Z)
    (label : string) :
  show_title_detail s = false ->
  search_mode s = false ->
  0 <= current_index s ->
  get_filtered_choices c s !! Z.to_nat (current_index s) = Some (v, label) ->
  handle_key c (Char " ") s = Continue (toggle_index v s)
  /\ (forall x, x ∈ selected_indices (toggle_index v s) <->
                if decide (x = v) then x ∉ selected_indices s
                else x ∈ selected_indices s)
  /\ (forall k t t', handle_key c k t = Continue t' ->
        k <> Char " " \/ search_mode t = true \/ show_title_detail t = true ->
        selected_indices t' = selected_indices t)
  /\ (forall ks s2,
        v ∉ selected_indices s ->
        Forall (fun k => k <> Char " ") ks ->
        after_keys c ks (toggle_index v s) = Some s2 ->
        v ∈ selected_indices s2
        /\ forall i lbl,
             0 <= get_page_start s2 ->
             get_page_start s2 <= i < get_page_end c s2 ->
             get_filtered_choices c s2 !! Z.to_nat i = Some (v, lbl) ->
             exists rows style,
               render_content c s2 = Some rows
               /\ (style, checked_row_text s2 i lbl) ∈ rows).
Proof.
  intros Hd Hm Hcur Hrow.
  split.
  { cbn [handle_key]. simpl. unfold toggle_selection. rewrite Hd, Hm.
    pose proof (lookup_lt_Some _ _ _ Hrow) as Hlt.
    destruct (Z.ltb_spec (current_index s) (len (get_filtered_choices c s)));
      [|unfold len in *; lia].
    rewrite py_getitem_nonneg, Hrow by assumption.
    unfold toggle_index. by destruct (bool_decide _). }
  split.
  { intros x. unfold toggle_index. simpl.
    destruct (bool_decide_reflect (v ∈ selected_indices s)) as [Hin|Hout];
      destruct (decide (x = v)) as [->|Hne];
      rewrite ?elem_of_difference, ?elem_of_union, elem_of_singleton; tauto. }
  split.
  { intros k t t'. apply selected_frame. }
  intros ks s2 Hnot Hks Hrun.
  assert (Hin : v ∈ selected_indices s2).
  { rewrite (selected_frame_run c ks Hks _ _ Hrun).
    unfold toggle_index. simpl. rewrite bool_decide_eq_false_2 by assumption.
    set_solver. }
  split; [assumption|].
  intros i lbl Hstart Hi Hlook. by eapply render_content_checked.
Qed.

(** Three choices over three user processes would do; the labels alone
    matter here. *)
Definition three_choices : closure :=
  {| choices := [(0, "alpha"); (1, "beta"); (2, "gamma")];
     process_data := None; exclude_list := None |}.

Lemma selection_follows_stable_index_witness :
  handle_key three_choices (Char " ") (initial_state None true)
    = Continue (toggle_index 0 (initial_state None true)).
Proof.
  apply (selection_follows_stable_index three_choices (initial_state None true)
           0 "alpha").
  - reflexivity.
  - reflexivity.
  - simpl. lia.
  - reflexivity.
Defined.

(** The scenario of the specification on [three_choices]: the first row is
    checked, a search hides it, Escape shows it again, and it is drawn
    checked under the cursor. *)
Example checked_row_survives_search :
  exists s1 s2 rows,
    after_keys three_choices [Char " "; Char "/"; Char "z"] (initial_state None true)
      = Some s1
    /\ get_filtered_choices three_choices s1 = []
    /\ after_keys three_choices [KeyEscape] s1 = Some s2
    /\ render_content three_choices s2 = Some rows
    /\ ("bold cyan reverse", "> [X] alpha") ∈ rows.
Proof.
  eexists _, _, _.
  split; [reflexivity|]. split; [reflexivity|]. split; [reflexivity|].
  split; [vm_compute; reflexivity|]. left.
Qed.

(** ** Commit and cancel *)


(** A handler adds to the selected set nothing but values of choices. *)
Lemma selected_step_subset (c : closure) (k : key) (s s' : state) :
  handle_key c k s = Continue s' ->
  forall x, x ∈ selected_indices s' ->
  x ∈ selected_indices s \/ exists label, (x, label) ∈ choices c.
Proof.
  intros Hstep x Hx.
  destruct (show_title_detail s) eqn:Hd.
  { left. by rewrite <- (selected_frame c k s s' Hstep) by auto. }
  destruct (search_mode s) eqn:Hm.
  { left. by rewrite <- (selected_frame c k s s' Hstep) by auto. }
  assert (Hother : k <> Char " " -> x ∈ selected_indices s).
  { intros Hk. by rewrite <- (selected_frame c k s s' Hstep) by auto. }
  destruct k as [ | | | | | | | | | |ch]; try (left; by apply Hother).
  destruct (Ascii.eqb_spec ch " ") as [->|Hsp];
    [|left; apply Hother; congruence].
  cbn [handle_key] in Hstep. simpl in Hstep.
  unfold toggle_selection in Hstep. rewrite Hd, Hm in Hstep.
  destruct (_ <? _); [|inversion Hstep; subst; by left].
  destruct (py_getitem _ _) as [[value label]|] eqn:Hget; [|discriminate].
  apply py_getitem_elem in Hget.
  apply filtered_from_subset in Hget.
  destruct (bool_decide _); inversion Hstep; subst; simpl in Hx.
  - apply elem_of_difference in Hx as [Hx _]. by left.
  - apply elem_of_union in Hx as [Hx|Hx]; [by left|].
    apply elem_of_singleton in Hx as ->. right. eauto.
Qed.

Lemma selected_run_subset (c : closure) (ks : list key) :
  forall s s', after_keys c ks s = Some s' ->
  forall x, x ∈ selected_indices s' ->
  x ∈ selected_indices s \/ exists label, (x, label) ∈ choices c.
Proof.
  induction ks as [|k ks IH]; intros s s' Hrun x Hx; simpl in Hrun.
  - inversion Hrun; subst. by left.
  - destruct (handle_key c k s) as [s1| |] eqn:Hstep; try discriminate.
    destruct (IH _ _ Hrun x Hx) as [Hin|Hch]; [|by right].
    eapply selected_step_subset; eauto.
Qed.


(** Key presses that keep the session going are events that do. *)
Lemma after_keys_events (c : closure) (ks : list key) :
  forall s s', after_keys c ks s = Some s' ->
  after_events c (map Key ks) s = Some s'.
Proof.
  induction ks as [|k ks IH]; intros s s' Hrun; simpl in Hrun; [exact Hrun|].
  cbn [map after_events].
  destruct (handle_key c k s) as [s1| |]; try discriminate. by apply IH.
Qed.

(** The application run after events that keep it going. *)
Lemma app_run_after_events (c : closure) (events more : list event) :
  forall s s', after_events c events s = Some s' ->
  app_run c (events ++ more) s = app_run c more s'.
Proof.
  induction events as [|ev events IH]; intros s s' Hrun;
    cbn [after_events] in Hrun.
  - by inversion Hrun.
  - destruct ev as [k|e|columns|]; cbn [app app_run].
    + destruct (handle_key c k s) as [s1|r|e] eqn:Hstep; [|discriminate|].
      * by apply IH.
      * destruct events as [|[k'|e'|columns'|] rest]; try discriminate.
        by apply (IH s s').
    + discriminate.
    + destruct (redraw_raises c s columns); [|by apply IH].
      destruct events as [|[k'|e'|columns'|] rest]; try discriminate.
      by apply (IH s s').
    + by apply IH.
Qed.

Lemma app_run_after_keys (c : closure) (ks : list key) (events : list event) :
  forall s s', after_keys c ks s = Some s' ->
  app_run c (map Key ks ++ events) s = app_run c events s'.
Proof.
  intros s s' Hrun. by apply app_run_after_events, after_keys_events.
Qed.

(** With the cursor on or after the first row the list is drawn. *)
Lemma render_content_returns (c : closure) (s : state) :
  0 <= current_index s -> render_content c s <> None.
Proof.
  intros Hcur. pose proof (get_page_start_le s Hcur) as Hps.
  unfold render_content.
  destruct (render_rows_draws s (get_filtered_choices c s) (get_page_end c s)
              (Z.to_nat (get_page_end c s - get_page_start s))
              (get_page_start s) (proj1 Hps)) as (rows & Hrows & _).
  destruct (Z.le_gt_cases (get_page_end c s) (get_page_start s)) as [Hle|Hgt].
  - rewrite seqZ_nil by lia. discriminate.
  - rewrite Z2Nat.id in Hrows by lia. rewrite Hrows. by destruct rows.
Qed.

(** With the cursor on or after the first row, and choices whose values
    are no negative numbers, the command bar is drawn. *)
Lemma get_current_command_returns (c : closure) (s : state) (columns : Z) :
  0 <= current_index s ->
  (forall value label, (value, label) ∈ choices c -> 0 <= value) ->
  get_current_command c s columns <> None.
Proof.
  intros Hcursor Hvalues. unfold get_current_command.
  destruct (Z.ltb_spec (current_index s) (len (get_filtered_choices c s)))
    as [Hlt|]; [|discriminate].
  unfold py_getitem at 1.
  destruct (Z.leb_spec 0 (current_index s)); [|lia].
  destruct (get_filtered_choices c s !! Z.to_nat (current_index s))
    as [[value label]|] eqn:Hrow.
  2:{ apply lookup_ge_None in Hrow. unfold len in Hlt. lia. }
  cbv zeta.
  destruct (process_data c) as [pd|]; [|discriminate].
  destruct (list_truthy pd && (value <? len pd)) eqn:Hguard; [|discriminate].
  apply andb_prop in Hguard as [_ Hvalue]. apply Z.ltb_lt in Hvalue.
  assert (0 <= value).
  { apply (Hvalues value label).
    apply list_elem_of_lookup_2 in Hrow.
    by apply filtered_from_subset in Hrow. }
  unfold py_getitem.
  destruct (Z.leb_spec 0 value); [|lia].
  destruct (pd !! Z.to_nat value) eqn:Hproc; [discriminate|].
  apply lookup_ge_None in Hproc. unfold len in Hvalue. lia.
Qed.

(** So outside the detail overlay, with the cursor on or after the first
    row, no callback raises when the layout is drawn. *)
Lemma redraw_returns (c : closure) (s : state) (columns : Z) :
  show_title_detail s = false ->
  0 <= current_index s ->
  (forall value label, (value, label) ∈ choices c -> 0 <= value) ->
  redraw_raises c s columns = false.
Proof.
  intros Hd Hcursor Hvalues. unfold redraw_raises. rewrite Hd.
  pose proof (get_current_command_returns c s columns Hcursor Hvalues).
  pose proof (render_content_returns c s Hcursor).
  destruct (get_current_command c s columns); [|done].
  by destruct (render_content c s).
Qed.


(** A handler that exits, outside the detail overlay and with the cursor on
    or after the first row, ends the run with its result, whatever the
    library does next. *)
Lemma exit_ends_run (c : closure) (k : key) (s : state) (r : option (list Z))
    (rest : list event) :
  handle_key c k s = Exit r ->
  show_title_detail s = false ->
  0 <= current_index s ->
  (forall value label, (value, label) ∈ choices c -> 0 <= value) ->
  app_run c (Key k :: rest) s = Returned r.
Proof.
  intros Hstep Hd Hcursor Hvalues. cbn [app_run]. rewrite Hstep.
  destruct rest as [|[k'|e'|columns|] rest]; try reflexivity.
  by rewrite redraw_returns.
Qed.

(** [select_multiple_custom] after events that keep the session going. *)
Lemma select_multiple_custom_after_events (choices : list (Z * string))
    (default_values : option (list Z)) (hide : bool)
    (pd : option (list ProcessInfo)) (ex : option (list string))
    (events more : list event) (s : state) :
  choices <> [] ->
  after_events {| choices := choices; process_data := pd; exclude_list := ex |}
    events (initial_state default_values hide) = Some s ->
  select_multiple_custom choices default_values hide pd ex (events ++ more)
  = match app_run {| choices := choices; process_data := pd; exclude_list := ex |}
            more s with
    | Returned result => Returned result
    | Raised KeyboardInterrupt | Raised EOFError => Returned None
    | Raised e => Raised e
    end.
Proof.
  intros Hne Hrun. unfold select_multiple_custom.
  assert (Htruthy : list_truthy choices = true) by (by destruct choices).
  rewrite Htruthy. cbn [negb].
  by rewrite (app_run_after_events _ events more _ s Hrun).
Qed.

(** The ways a selection is cancelled: [q] or Control-C pressed outside the
    detail overlay with the cursor on or after the first row; the library
    ending [app.run()] with [KeyboardInterrupt] or [EOFError]; the input
    being closed. *)
Definition cancelled (c : closure) (start : state) (events : list event) : Prop :=
  (exists before k rest s,
     events = before ++ Key k :: rest
     /\ (k = Char "q" \/ k = ControlC)
     /\ after_events c before start = Some s
     /\ show_title_detail s = false /\ 0 <= current_index s)
  \/ (exists before e rest s,
        events = before ++ Leaves e :: rest
        /\ (e = KeyboardInterrupt \/ e = EOFError)
        /\ after_events c before start = Some s)
  \/ (exists s, after_events c events start = Some s).

(** A cancelled selection makes [select_multiple_custom] return [None],
    whatever was selected. *)
Lemma cancelled_returns_none (choices : list (Z * string))
    (default_values : option (list Z)) (hide : bool)
    (pd : option (list ProcessInfo)) (ex : option (list string))
    (events : list event) :
  choices <> [] ->
  (forall value label, (value, label) ∈ choices -> 0 <= value) ->
  cancelled {| choices := choices; process_data := pd; exclude_list := ex |}
    (initial_state default_values hide) events ->
  select_multiple_custom choices default_values hide pd ex events = Returned None.
Proof.
  intros Hne Hvalues
    [(before & k & rest & s & -> & Hk & Hrun & Hd & Hcursor)
    |[(before & e & rest & s & -> & He & Hrun)|[s Hrun]]].
  - rewrite (select_multiple_custom_after_events _ _ _ _ _ _ _ s Hne Hrun).
    rewrite (exit_ends_run _ k s None); auto.
    destruct Hk as [-> | ->]; cbn [handle_key]; simpl; unfold cancel;
      by rewrite Hd.
  - rewrite (select_multiple_custom_after_events _ _ _ _ _ _ _ s Hne Hrun).
    by destruct He as [-> | ->].
  - rewrite <- (app_nil_r events).
    by rewrite (select_multiple_custom_after_events _ _ _ _ _ _ _ s Hne Hrun).
Qed.



(** The end-to-end scenario of the specification: three rows, Down, Space,
    Enter. *)
Example down_space_enter :
  select_multiple_custom (choices three_choices) None true None None
    [Key KeyDown; Key (Char " "); Key KeyEnter] = Returned (Some [1]).
Proof. vm_compute. reflexivity. Qed.

(** ** The pipeline of [select_processes] *)

(** The exclusion test of the engine is the one of [ProcessFilter]. *)
Lemma is_excluded_process_eq (c : closure) (l : list string) (nf : option string)
    (proc : ProcessInfo) :
  exclude_list c = Some l ->
  is_excluded_process c proc
  = ProcessFilter.is_excluded
      {| ProcessFilter.exclude_list := l; ProcessFilter.name_filter := nf |} proc.
Proof. intros H. unfold is_excluded_process, ProcessFilter.is_excluded. by rewrite H. Qed.

(** C8. As [_execute_sort_option] calls [select_processes], no record
    handed to the engine as [process_data] is a system process or an
    excluded one, for the very predicates the engine applies again; so the
    filtered view of the engine is the same with the hide-toggle on and
    off, and [e] never changes it. *)
Theorem prefiltered_view_ignores_hide_toggle (excl : option (list string))
    (nf : option string) (w : world) (processes : list ProcessInfo) :
  let self := ProcessKiller.init excl nf in
  let filtered :=
    ProcessDisplay.filtered_processes (os_getpid w) (ProcessKiller.name_filter self)
      (Some (ProcessFilter.is_system_process (ProcessKiller.filter self)))
      (Some (ProcessFilter.is_excluded (ProcessKiller.filter self)))
      (Some (ProcessFilter.matches_name_filter (ProcessKiller.filter self)))
      processes in
  let c := {| choices := ProcessDisplay.make_choices w filtered;
              process_data := Some filtered;
              exclude_list :=
                Some (ProcessDisplay.exclude_list (ProcessKiller.display self)) |} in
  (forall proc, proc ∈ filtered ->
     is_system_process proc = false /\ is_excluded_process c proc = false)
  /\ (forall s, get_filtered_choices c (set_filter_system true s)
               = get_filtered_choices c (set_filter_system false s))
  /\ (forall s s', handle_key c (Char "e") s = Continue s' ->
        get_filtered_choices c s' = get_filtered_choices c s).
Proof.
  intros self filtered c.
  assert (Hpre : forall proc, proc ∈ filtered ->
            is_system_process proc = false /\ is_excluded_process c proc = false).
  { intros proc Hin. subst filtered.
    unfold ProcessDisplay.filtered_processes in Hin.
    apply list_elem_of_In, filter_In in Hin as [_ Hkept].
    unfold ProcessDisplay.kept, ProcessDisplay.holds in Hkept.
    destruct (pid proc =? os_getpid w); [discriminate|].
    unfold ProcessFilter.is_system_process in Hkept.
    destruct (is_system_process proc); [discriminate|].
    split; [reflexivity|].
    rewrite (is_excluded_process_eq c (default [] excl) nf) by reflexivity.
    change (ProcessKiller.filter self) with (ProcessFilter.init excl nf) in Hkept.
    unfold ProcessFilter.init in Hkept.
    destruct (ProcessFilter.is_excluded _ proc); [discriminate|reflexivity]. }
  assert (Hskip : forall s idx, skipped_by_filter c s idx = false).
  { intros s idx. unfold skipped_by_filter. simpl.
    destruct (_ && _); [|reflexivity].
    destruct (filtered !! idx) as [proc|] eqn:Hlook; [|reflexivity].
    apply list_elem_of_lookup_2 in Hlook.
    destruct (Hpre proc Hlook) as [-> ->]. reflexivity. }
  assert (Hview : forall s b, get_filtered_choices c (set_filter_system b s)
                              = get_filtered_choices c s).
  { intros s b. unfold get_filtered_choices.
    apply filtered_from_pointwise; [|reflexivity].
    intros idx. by rewrite !Hskip. }
  split; [exact Hpre|]. split.
  { intros s. by rewrite !Hview. }
  intros s s' Hstep. cbn [handle_key] in Hstep. simpl in Hstep.
  unfold toggle_filter in Hstep.
  destruct (show_title_detail s).
  { inversion Hstep; subst. by apply get_filtered_choices_ext. }
  destruct (_ <=? _); inversion Hstep; subst.
  - rewrite <- (Hview s (negb (filter_system s))).
    by apply get_filtered_choices_ext.
  - apply Hview.
Qed.

(** ** Sorting keeps the records *)

Lemma insert_stable_perm {A} (before : A -> A -> bool) (x : A) (l : list A) :
  Permutation (ProcessSorter.insert_stable before x l) (x :: l).
Proof.
  induction l as [|y rest IH]; simpl; [reflexivity|].
  destruct (before y x); [|reflexivity].
  rewrite IH. apply perm_swap.
Qed.

Lemma sorted_stable_perm {A} (before : A -> A -> bool) (l : list A) :
  Permutation (ProcessSorter.sorted_stable before l) l.
Proof.
  unfold ProcessSorter.sorted_stable.
  induction l as [|x rest IH]; simpl; [reflexivity|].
  rewrite insert_stable_perm. by constructor.
Qed.

Lemma partition_perm {A} (f : A -> bool) (l : list A) :
  Permutation (List.filter f l ++ List.filter (fun x => negb (f x)) l) l.
Proof.
  induction l as [|x rest IH]; simpl; [reflexivity|].
  destruct (f x); simpl.
  - by constructor.
  - rewrite <- Permutation_middle. by constructor.
Qed.

(** Each of the five sort functions returns the records it was given, in
    some order. *)
Lemma sort_options_perm (key name : string)
    (sort_func : list ProcessInfo -> list ProcessInfo) (l : list ProcessInfo) :
  In (key, (name, sort_func)) ProcessSorter.sort_options ->
  Permutation (sort_func l) l.
Proof.
  unfold ProcessSorter.sort_options. simpl.
  intros [H|[H|[H|[H|[H|[]]]]]]; inversion H; subst.
  - apply sorted_stable_perm.
  - apply sorted_stable_perm.
  - apply sorted_stable_perm.
  - apply sorted_stable_perm.
  - apply partition_perm.
Qed.

(** ** The commit step *)

(** Whether the index [idx] of the engine's answer designates a
    pre-filtered record with the pid of [x]. *)
Definition designates (filtered : list ProcessInfo) (x : ProcessInfo) (idx : Z)
    : bool :=
  (0 <=? idx) && (idx <? len filtered)
  && match filtered !! Z.to_nat idx with
     | Some original_proc => pid x =? pid original_proc
     | None => false
     end.

Lemma mark_first_unique (p : Z) (l : list ProcessInfo) :
  NoDup (map pid l) ->
  ProcessDisplay.mark_first p l
  = map (fun x => if pid x =? p then set_selected true x else x) l.
Proof.
  induction l as [|x rest IH]; intros Hnd; simpl; [reflexivity|].
  apply NoDup_cons in Hnd as [Hx Hrest].
  destruct (Z.eqb_spec (pid x) p) as [Heq|Hne].
  - f_equal. rewrite <- (map_id rest) at 1. apply map_ext_in.
    intros y Hy. destruct (Z.eqb_spec (pid y) p) as [Hy'|]; [|reflexivity].
    exfalso. apply Hx. apply list_elem_of_In, in_map_iff.
    exists y. split; [congruence|assumption].
  - f_equal. by apply IH.
Qed.

Lemma apply_index_unique (filtered l : list ProcessInfo) (idx : Z) :
  NoDup (map pid l) ->
  ProcessDisplay.apply_index filtered l idx
  = map (fun x => if designates filtered x idx then set_selected true x else x) l.
Proof.
  intros Hnd. unfold ProcessDisplay.apply_index, designates.
  destruct ((0 <=? idx) && (idx <? len filtered)); simpl.
  - destruct (filtered !! Z.to_nat idx) as [q|].
    + by apply mark_first_unique.
    + by rewrite map_id.
  - by rewrite map_id.
Qed.

Lemma fold_apply_index (filtered : list ProcessInfo) (indices : list Z) :
  forall l, NoDup (map pid l) ->
  foldl (ProcessDisplay.apply_index filtered) l indices
  = map (fun x => if existsb (designates filtered x) indices
                  then set_selected true x else x) l.
Proof.
  induction indices as [|idx rest IH]; intros l Hnd; simpl.
  - by rewrite map_id.
  - rewrite apply_index_unique by assumption.
    rewrite IH.
    + rewrite map_map. apply map_ext. intros x.
      destruct (designates filtered x idx) eqn:Hd; simpl.
      * replace (existsb (designates filtered (set_selected true x)) rest)
          with (existsb (designates filtered x) rest) by reflexivity.
        by destruct (existsb _ rest).
      * reflexivity.
    + rewrite map_map.
      erewrite map_ext; [exact Hnd|].
      intros x. by destruct (designates filtered x idx).
Qed.

(** With distinct pids, the commit sets the flag of a record to whether
    some returned index designates a pre-filtered record with its pid, and
    changes no other field. *)
Lemma commit_unique (filtered : list ProcessInfo) (indices : list Z)
    (processes : list ProcessInfo) :
  NoDup (map pid processes) ->
  ProcessDisplay.commit filtered indices processes
  = map (fun x => set_selected (existsb (designates filtered x) indices) x)
      processes.
Proof.
  intros Hnd. unfold ProcessDisplay.commit.
  rewrite fold_apply_index.
  - rewrite map_map. apply map_ext. intros x.
    replace (existsb (designates filtered (set_selected false x)) indices)
      with (existsb (designates filtered x) indices) by reflexivity.
    by destruct (existsb _ indices).
  - rewrite map_map. erewrite map_ext; [exact Hnd|]. reflexivity.
Qed.

(** Whatever the pids, the commit changes nothing but flags, and it sets a
    flag only for a record that some returned index designates. *)
Lemma mark_first_lookup (p : Z) (l : list ProcessInfo) :
  forall i x, l !! i = Some x ->
  exists b : bool,
    ProcessDisplay.mark_first p l !! i
      = Some (if b then set_selected true x else x)
    /\ (b = true -> pid x = p).
Proof.
  induction l as [|y rest IH]; intros i x Hx; [done|]. simpl.
  destruct (Z.eqb_spec (pid y) p) as [Heq|Hne].
  - destruct i as [|i]; simpl in Hx |- *.
    + inversion Hx; subst. by exists true.
    + exists false. split; [assumption|discriminate].
  - destruct i as [|i]; simpl in Hx |- *.
    + inversion Hx; subst. exists false. split; [reflexivity|discriminate].
    + by apply IH.
Qed.

Lemma apply_index_lookup (filtered l : list ProcessInfo) (idx : Z) :
  forall i x, l !! i = Some x ->
  exists b : bool,
    ProcessDisplay.apply_index filtered l idx !! i
      = Some (if b then set_selected true x else x)
    /\ (b = true -> designates filtered x idx = true).
Proof.
  intros i x Hx. unfold ProcessDisplay.apply_index, designates.
  destruct ((0 <=? idx) && (idx <? len filtered)); simpl;
    [|exists false; split; [assumption|discriminate]].
  destruct (filtered !! Z.to_nat idx) as [q|];
    [|exists false; split; [assumption|discriminate]].
  destruct (mark_first_lookup (pid q) l i x Hx) as (b & Hb & Hpid).
  exists b. split; [assumption|].
  intros ->. by apply Z.eqb_eq, Hpid.
Qed.

Lemma fold_apply_index_lookup (filtered : list ProcessInfo) (indices : list Z) :
  forall l i x, l !! i = Some x ->
  exists b : bool,
    foldl (ProcessDisplay.apply_index filtered) l indices !! i
      = Some (if b then set_selected true x else x)
    /\ (b = true -> existsb (designates filtered x) indices = true).
Proof.
  induction indices as [|idx rest IH]; intros l i x Hx; simpl.
  - exists false. split; [assumption|discriminate].
  - destruct (apply_index_lookup filtered l idx i x Hx) as (b1 & Hb1 & Hd1).
    destruct (IH _ _ _ Hb1) as (b2 & Hb2 & Hd2).
    exists (b1 || b2). split.
    + rewrite Hb2. by destruct b1, b2.
    + intros Hb. apply orb_true_iff in Hb as [Hb|Hb]; subst.
      * by rewrite Hd1.
      * replace (existsb (designates filtered x) rest)
          with (existsb (designates filtered (if b1 then set_selected true x else x))
                  rest) by (by destruct b1).
        rewrite Hd2 by reflexivity. apply orb_true_r.
Qed.

Lemma commit_lookup (filtered : list ProcessInfo) (indices : list Z)
    (processes : list ProcessInfo) :
  forall i p, processes !! i = Some p ->
  exists b : bool,
    ProcessDisplay.commit filtered indices processes !! i = Some (set_selected b p)
    /\ (b = true -> existsb (designates filtered p) indices = true).
Proof.
  intros i p Hp. unfold ProcessDisplay.commit.
  destruct (fold_apply_index_lookup filtered indices
              (map (set_selected false) processes) i (set_selected false p))
    as (b & Hb & Hd).
  { by rewrite list_lookup_fmap, Hp. }
  exists b. split; [|exact Hd].
  rewrite Hb. by destruct b.
Qed.

Lemma length_mark_first (p : Z) (l : list ProcessInfo) :
  length (ProcessDisplay.mark_first p l) = length l.
Proof.
  induction l as [|y rest IH]; simpl; [reflexivity|].
  destruct (pid y =? p); simpl; by rewrite ?IH.
Qed.

Lemma length_commit (filtered : list ProcessInfo) (indices : list Z)
    (processes : list ProcessInfo) :
  length (ProcessDisplay.commit filtered indices processes) = length processes.
Proof.
  unfold ProcessDisplay.commit.
  rewrite <- (length_map (set_selected false) processes).
  generalize (map (set_selected false) processes) as l.
  induction indices as [|idx rest IH]; intros l; simpl; [reflexivity|].
  rewrite IH. unfold ProcessDisplay.apply_index.
  destruct (_ && _); [|reflexivity].
  destruct (filtered !! Z.to_nat idx); [apply length_mark_first|reflexivity].
Qed.

Lemma existsb_designates (filtered : list ProcessInfo) (x : ProcessInfo)
    (indices : list Z) :
  existsb (designates filtered x) indices = true <->
  exists idx q, idx ∈ indices /\ 0 <= idx
    /\ filtered !! Z.to_nat idx = Some q /\ pid q = pid x.
Proof.
  rewrite existsb_exists. split.
  - intros (idx & Hin & Hd). unfold designates in Hd.
    apply andb_prop in Hd as [Hrange Hd]. apply andb_prop in Hrange as [Hlo _].
    destruct (filtered !! Z.to_nat idx) as [q|] eqn:Hq; [|discriminate].
    apply Z.leb_le in Hlo. apply Z.eqb_eq in Hd.
    exists idx, q.
    split; [by apply list_elem_of_In|]. split; [lia|]. split; [assumption|lia].
  - intros (idx & q & Hin & Hlo & Hq & Hpid).
    exists idx. split; [by apply list_elem_of_In|].
    unfold designates. rewrite Hq.
    pose proof (lookup_lt_Some _ _ _ Hq).
    repeat (apply andb_true_intro; split);
      [apply Z.leb_le|apply Z.ltb_lt|apply Z.eqb_eq]; unfold len; lia.
Qed.

(** [select_processes] once the engine is entered: what it does with the
    answer of the engine. *)
Lemma select_processes_entered (self : ProcessDisplay.t) (w : world)
    (processes : list ProcessInfo) (nf : option string)
    (sysf exf namef : option (ProcessInfo -> bool)) (tr : list effect) :
  let filtered :=
    ProcessDisplay.filtered_processes (os_getpid w) nf sysf exf namef processes in
  let choices := ProcessDisplay.make_choices w filtered in
  filtered <> [] ->
  ProcessDisplay.select_processes self w processes nf sysf exf namef tr =
    match select_multiple_custom choices None true (Some filtered)
            (Some (ProcessDisplay.exclude_list self))
            (ui_events w (tr ++ [SelectMultiple choices])) with
    | Raised e => (Err e, tr ++ [SelectMultiple choices])
    | Returned None => (Ok processes, tr ++ [SelectMultiple choices])
    | Returned (Some indices) =>
        if negb (list_truthy indices)
        then (Ok processes,
              tr ++ [SelectMultiple choices] ++ [Print MsgNoProcessesSelected])
        else (Ok (ProcessDisplay.commit filtered indices processes),
              tr ++ [SelectMultiple choices])
    end.
Proof.
  intros filtered choices Hne.
  unfold ProcessDisplay.select_processes.
  assert (Hp : list_truthy processes = true).
  { destruct processes; [|reflexivity]. by contradiction Hne. }
  rewrite Hp. cbn [negb].
  fold filtered.
  assert (Hf : list_truthy filtered = true) by (by destruct filtered).
  rewrite Hf. cbn [negb]. fold choices.
  unfold mbind, M_bind, emit, observe. cbn beta iota.
  destruct (select_multiple_custom _ _ _ _ _ _) as [[indices|]|e];
    [|reflexivity|reflexivity].
  destruct (negb (list_truthy indices)); [|reflexivity].
  unfold print, emit, mret, M_ret. by rewrite <- app_assoc.
Qed.

(** C6. The sort functions return the records they were given; once the
    engine is entered, [select_processes] leaves every record as it was
    when the engine answers with the cancellation marker; and when the engine
    answers with a non-empty list of indices it changes nothing but the
    [selected] flags: a record ends selected only if its pid is the pid of a
    pre-filtered record whose index is in the answer, and, the pids of the
    caller's records being distinct as in a snapshot, exactly if. *)
Theorem selected_flag_set_only_by_commit (self : ProcessDisplay.t) (w : world)
    (processes : list ProcessInfo) (nf : option string)
    (sysf exf namef : option (ProcessInfo -> bool)) (tr : list effect) :
  let filtered :=
    ProcessDisplay.filtered_processes (os_getpid w) nf sysf exf namef processes in
  let choices := ProcessDisplay.make_choices w filtered in
  let answer :=
    select_multiple_custom choices None true (Some filtered)
      (Some (ProcessDisplay.exclude_list self))
      (ui_events w (tr ++ [SelectMultiple choices])) in
  filtered <> [] ->
  (forall key name sort_func l,
     In (key, (name, sort_func)) ProcessSorter.sort_options ->
     Permutation (sort_func l) l)
  /\ (answer = Returned None ->
      ProcessDisplay.select_processes self w processes nf sysf exf namef tr
      = (Ok processes, tr ++ [SelectMultiple choices]))
  /\ (forall indices,
        answer = Returned (Some indices) ->
        indices <> [] ->
        exists after,
          ProcessDisplay.select_processes self w processes nf sysf exf namef tr
          = (Ok after, tr ++ [SelectMultiple choices])
          /\ length after = length processes
          /\ forall i p, processes !! i = Some p ->
               exists p', after !! i = Some p'
                 /\ p' = set_selected (selected p') p
                 /\ (selected p' = true ->
                     exists idx q, idx ∈ indices /\ 0 <= idx
                       /\ filtered !! Z.to_nat idx = Some q /\ pid q = pid p)
                 /\ (NoDup (map pid processes) ->
                     (exists idx q, idx ∈ indices /\ 0 <= idx
                        /\ filtered !! Z.to_nat idx = Some q /\ pid q = pid p) ->
                     selected p' = true)).
Proof.
  intros filtered choices answer Hne.
  pose proof (select_processes_entered self w processes nf sysf exf namef tr Hne)
    as Hcall.
  cbv zeta in Hcall. fold filtered choices answer in Hcall.
  split; [intros key name sort_func l; apply sort_options_perm|].
  split.
  { intros Hcancel. by rewrite Hcall, Hcancel. }
  intros indices Hanswer Hindices.
  exists (ProcessDisplay.commit filtered indices processes).
  split.
  { rewrite Hcall, Hanswer. by destruct indices. }
  split; [apply length_commit|].
  intros i p Hp.
  destruct (commit_lookup filtered indices processes i p Hp) as (b & Hb & Hd).
  exists (set_selected b p).
  split; [assumption|]. split; [reflexivity|]. split.
  - simpl. intros ->. by apply existsb_designates, Hd.
  - intros Hnd Hex. rewrite commit_unique in Hb by assumption.
    rewrite list_lookup_fmap, Hp in Hb. simpl in Hb.
    inversion Hb as [Hflag]. simpl.
    apply existsb_designates in Hex.
    assert (Hsel : selected (set_selected b p)
                   = selected (set_selected
                                 (existsb (designates filtered p) indices) p))
      by (by rewrite Hflag).
    simpl in Hsel. congruence.
Qed.

(** A user process for the examples. *)
Definition user_process (p : Z) (n : string) : ProcessInfo :=
  {| user := "alice"; pid := p; ppid := "500"; cpu := 1%float; mem := 2%float;
     stat := "S"; start := "10:00"; uptime := "5m";
     command := "/opt/tools/" +:+ n; name := "tools / " +:+ n;
     type := n; selected := false |}.

(** A world for the examples: the snapshot holds two user processes, the
    label is the name, the user presses the given keys in the selection
    session, declines every yes/no question, and no signal fails. *)
Definition demo_world (events : list event) : world :=
  {| os_getpid := 999;
     ps_records := fun _ => Some [user_process 100 "alpha"; user_process 101 "beta"];
     format_label := fun _ proc => name proc;
     ui_events := fun _ => events;
     yes_no_reply := fun _ => Answered (Some false);
     os_kill_raises := fun _ _ _ => false |}.

Lemma selected_flag_set_only_by_commit_witness :
  exists trace,
    ProcessDisplay.select_processes (ProcessDisplay.init None)
      (demo_world [Key (Char " "); Key (Char "q")])
      [user_process 100 "alpha"; user_process 101 "beta"] None
      (Some is_system_process) None None []
    = (Ok [user_process 100 "alpha"; user_process 101 "beta"], trace).
Proof.
  eexists.
  refine (proj1 (proj2 (selected_flag_set_only_by_commit (ProcessDisplay.init None)
            (demo_world [Key (Char " "); Key (Char "q")])
            [user_process 100 "alpha"; user_process 101 "beta"] None
            (Some is_system_process) None None [] _)) _).
  - vm_compute. discriminate.
  - vm_compute. reflexivity.
Defined.

(** The commit on the same records: Down, Space, Enter marks pid 101. *)
Example commit_marks_second :
  exists trace,
    ProcessDisplay.select_processes (ProcessDisplay.init None)
      (demo_world [Key KeyDown; Key (Char " "); Key KeyEnter])
      [user_process 100 "alpha"; user_process 101 "beta"] None
      (Some is_system_process) None None []
    = (Ok [user_process 100 "alpha"; set_selected true (user_process 101 "beta")],
       trace).
Proof. eexists. vm_compute. reflexivity. Qed.

(** ** The session controller *)

(** The five sort modes. *)
Definition sort_modes : list string :=
  ["general"; "memory"; "cpu"; "uptime"; "zombie"]%string.

Lemma str_member_false (x : string) (l : list string) :
  ~ In x l -> str_member x l = false.
Proof.
  unfold str_member. induction l as [|y rest IH]; intros Hnot; simpl; [reflexivity|].
  destruct (String.eqb_spec x y) as [->|_].
  - exfalso. apply Hnot. by left.
  - apply IH. intros Hin. apply Hnot. by right.
Qed.

(** What the claim about a bad sort mode says of one run: the error and the
    valid values are printed and nothing else happens. *)
Definition reports_invalid_sort_mode (self : ProcessKiller.t) (w : world)
    (sort_by : string) (replies : list (ask_outcome string)) : Prop :=
  ProcessKiller.run self w (Some sort_by) replies []
  = (Ok ProcessKiller.Finished,
     [Print MsgStarting;
      Print (MsgInvalidSortingMethod sort_by);
      Print (MsgAvailableOptions "general, memory, cpu, uptime, zombie")]).

(** C10 as stated fails for the empty string. It is no sort mode, yet [run]
    takes it for an absent option ([if sort_by:]): no error is printed, the
    menu opens, and with the answer [cpu] the processes are collected and
    the selection engine is launched. *)
Lemma empty_sort_mode_opens_menu :
  ~ In ""%string sort_modes
  /\ ProcessKiller.run (ProcessKiller.init None None)
       (demo_world [Key (Char "q")]) (Some ""%string)
       [Answered (Some "cpu"%string); Answered (Some "exit"%string)] []
     = (Ok ProcessKiller.Finished,
        [Print MsgStarting;
         SelectSingle (ProcessKiller.menu_choices (ProcessKiller.init None None));
         Print MsgCollecting;
         RunPs;
         SelectMultiple [(0, "tools / alpha"); (1, "tools / beta")]%string;
         Print MsgNoProcessesSelected;
         SelectSingle (ProcessKiller.menu_choices (ProcessKiller.init None None));
         Print (MsgExiting false)])
  /\ ~ reports_invalid_sort_mode (ProcessKiller.init None None)
         (demo_world [Key (Char "q")]) ""%string
         [Answered (Some "cpu"%string); Answered (Some "exit"%string)].
Proof.
  split.
  { unfold sort_modes. simpl. intros [H|[H|[H|[H|[H|[]]]]]]; discriminate. }
  split; [vm_compute; reflexivity|].
  unfold reports_invalid_sort_mode. vm_compute. discriminate.
Qed.

(** C10, amended. Run with a non-empty sort mode outside the five, [run]
    prints the error and the list of the valid values and returns: no
    process is collected, no prompt or selection engine is opened, no signal
    is sent. *)
Theorem invalid_sort_mode_is_reported (excl : option (list string))
    (nf : option string) (w : world) (sort_by : string)
    (replies : list (ask_outcome string)) (tr : list effect) :
  sort_by <> ""%string ->
  ~ In sort_by sort_modes ->
  ProcessKiller.run (ProcessKiller.init excl nf) w (Some sort_by) replies tr
  = (Ok ProcessKiller.Finished,
     tr ++ [Print MsgStarting;
            Print (MsgInvalidSortingMethod sort_by);
            Print (MsgAvailableOptions "general, memory, cpu, uptime, zombie")]).
Proof.
  intros Hne Hnot.
  unfold ProcessKiller.run.
  assert (Htruthy : str_truthy sort_by = true) by (by destruct sort_by).
  assert (Hmember : ProcessKiller.is_sort_option (ProcessKiller.init excl nf) sort_by
                    = false).
  { unfold ProcessKiller.is_sort_option. by apply str_member_false. }
  unfold mbind, M_bind, print, emit. cbn beta iota.
  rewrite Htruthy, Hmember. cbn [negb].
  unfold mret, M_ret. rewrite <- !app_assoc. reflexivity.
Qed.

Lemma invalid_sort_mode_is_reported_witness :
  reports_invalid_sort_mode (ProcessKiller.init None None) (demo_world [])
    "bogus"%string [].
Proof.
  unfold reports_invalid_sort_mode.
  apply (invalid_sort_mode_is_reported None None (demo_world []) "bogus"%string [] []).
  - discriminate.
  - unfold sort_modes. simpl. intros [H|[H|[H|[H|[H|[]]]]]]; discriminate.
Defined.

(** ** Cancellation *)

Lemma lookup_sort_options (choice name : string)
    (sort_func : list ProcessInfo -> list ProcessInfo) :
  ProcessSorter.lookup choice ProcessSorter.sort_options = Some (name, sort_func) ->
  In (choice, (name, sort_func)) ProcessSorter.sort_options
  /\ str_truthy choice = true
  /\ str_member choice (ProcessSorter.keys ProcessSorter.sort_options) = true.
Proof.
  unfold ProcessSorter.sort_options. cbn [ProcessSorter.lookup].
  repeat match goal with
         | |- context [String.eqb choice ?k] =>
             destruct (String.eqb_spec choice k) as [->|_];
             [intros H; inversion H; subst; clear H;
              split; [simpl; auto 10|split; reflexivity]|]
         end.
  discriminate.
Qed.

Lemma filter_selected_nil (l : list ProcessInfo) :
  (forall p, In p l -> selected p = false) -> List.filter selected l = [].
Proof.
  induction l as [|x rest IH]; intros H; simpl; [reflexivity|].
  rewrite (H x) by (by left). apply IH. intros p Hp. apply H. by right.
Qed.

(** The termination step on records none of which is selected prints one
    line and does nothing else. *)
Lemma kill_nothing_selected (w : world) (processes : list ProcessInfo)
    (tr : list effect) :
  (forall p, In p processes -> selected p = false) ->
  ProcessTerminator.kill_selected_processes w processes tr
  = (Ok tt, tr ++ [Print MsgNoProcessesSelected]).
Proof.
  intros H. unfold ProcessTerminator.kill_selected_processes.
  by rewrite (filter_selected_nil processes H).
Qed.

(** What the claim about cancellation says of a trace: the session loop
    printed its exit message. *)
Definition exit_message_printed (tr : list effect) : Prop :=
  exists blank_lines, In (Print (MsgExiting blank_lines)) tr.

(** C5 as stated fails. With [q] pressed in the selection engine the engine
    answers [None], [select_processes] returns normally (no [CancelledError]
    is raised), the controller goes on to the termination step, which prints
    that no process is selected, and [run] returns without an exit message. *)
Lemma cancelled_selection_is_not_propagated :
  let w := demo_world [Key (Char "q")] in
  let self := ProcessKiller.init None None in
  let records := [user_process 100 "alpha"; user_process 101 "beta"] in
  let shown := [(0, "tools / alpha"); (1, "tools / beta")]%string in
  let before := [Print MsgStarting; Print MsgCollecting; RunPs] in
  select_multiple_custom shown None true (Some records) (Some [])
    (ui_events w (before ++ [SelectMultiple shown])) = Returned None
  /\ ProcessDisplay.select_processes (ProcessKiller.display self) w records None
       (Some (ProcessFilter.is_system_process (ProcessKiller.filter self)))
       (Some (ProcessFilter.is_excluded (ProcessKiller.filter self)))
       (Some (ProcessFilter.matches_name_filter (ProcessKiller.filter self)))
       before
     = (Ok records, before ++ [SelectMultiple shown])
  /\ ProcessTerminator.kill_selected_processes w records
       (before ++ [SelectMultiple shown])
     = (Ok tt, before ++ [SelectMultiple shown; Print MsgNoProcessesSelected])
  /\ ProcessKiller.run self w (Some "cpu"%string) [] []
     = (Ok ProcessKiller.Finished,
        before ++ [SelectMultiple shown; Print MsgNoProcessesSelected])
  /\ ~ exit_message_printed
         (before ++ [SelectMultiple shown; Print MsgNoProcessesSelected]).
Proof.
  cbv zeta.
  split; [vm_compute; reflexivity|].
  split; [vm_compute; reflexivity|].
  split; [vm_compute; reflexivity|].
  split; [vm_compute; reflexivity|].
  intros [b Hin]. simpl in Hin.
  repeat (destruct Hin as [Hin|Hin]; [discriminate|]). exact Hin.
Qed.

(** The choices [select_processes] builds are numbered by position. *)
Lemma make_choices_values (w : world) (filtered : list ProcessInfo)
    (value : Z) (label : string) :
  (value, label) ∈ ProcessDisplay.make_choices w filtered -> 0 <= value.
Proof.
  intros Hin. apply list_elem_of_lookup_1 in Hin as [i Hi].
  unfold ProcessDisplay.make_choices in Hi. rewrite list_lookup_imap in Hi.
  destruct (filtered !! i); [|discriminate].
  simpl in Hi. inversion Hi. lia.
Qed.

(** C5, amended. When the selection is cancelled ([q] or Control-C pressed
    outside the detail overlay with the cursor on or after the first row, or
    [KeyboardInterrupt] or [EOFError] leaving [app.run()], or the input
    closed), the selection engine returns [None] and [select_processes]
    returns normally with every record as it was; [_execute_sort_option]
    then runs the termination step, which finds no selected record, prints
    one line, asks nothing and sends no signal; none of the [except] clauses
    of [run] is entered, so no exit message is printed for the cancellation,
    and a single-shot [run] returns. *)
Theorem cancelled_selection_sends_no_signal (excl : option (list string))
    (nf : option string) (w : world) (choice name : string)
    (sort_func : list ProcessInfo -> list ProcessInfo)
    (records : list ProcessInfo) (replies : list (ask_outcome string))
    (tr : list effect) :
  let self := ProcessKiller.init excl nf in
  let started := tr ++ [Print MsgStarting] in
  let collected := started ++ [Print MsgCollecting; RunPs] in
  let sorted_processes := sort_func (map (set_selected false) records) in
  let filtered :=
    ProcessDisplay.filtered_processes (os_getpid w) nf
      (Some (ProcessFilter.is_system_process (ProcessKiller.filter self)))
      (Some (ProcessFilter.is_excluded (ProcessKiller.filter self)))
      (Some (ProcessFilter.matches_name_filter (ProcessKiller.filter self)))
      sorted_processes in
  let shown := ProcessDisplay.make_choices w filtered in
  let session :=
    {| choices := shown; process_data := Some filtered;
       exclude_list :=
         Some (ProcessDisplay.exclude_list (ProcessKiller.display self)) |} in
  ProcessSorter.lookup choice ProcessSorter.sort_options = Some (name, sort_func) ->
  ps_records w collected = Some records ->
  filtered <> [] ->
  cancelled session (initial_state None true)
    (ui_events w (collected ++ [SelectMultiple shown])) ->
  select_multiple_custom shown None true (Some filtered)
    (Some (ProcessDisplay.exclude_list (ProcessKiller.display self)))
    (ui_events w (collected ++ [SelectMultiple shown])) = Returned None
  /\ ProcessDisplay.select_processes (ProcessKiller.display self) w sorted_processes
       nf
       (Some (ProcessFilter.is_system_process (ProcessKiller.filter self)))
       (Some (ProcessFilter.is_excluded (ProcessKiller.filter self)))
       (Some (ProcessFilter.matches_name_filter (ProcessKiller.filter self)))
       collected
     = (Ok sorted_processes, collected ++ [SelectMultiple shown])
  /\ ProcessKiller._execute_sort_option self w choice started
     = (Ok tt, collected ++ [SelectMultiple shown; Print MsgNoProcessesSelected])
  /\ ProcessKiller.run self w (Some choice) replies tr
     = (Ok ProcessKiller.Finished,
        collected ++ [SelectMultiple shown; Print MsgNoProcessesSelected])
  /\ (exit_message_printed
        (collected ++ [SelectMultiple shown; Print MsgNoProcessesSelected])
      -> exit_message_printed tr).
Proof.
  intros self started collected sorted_processes filtered shown session
    Hlookup Hps Hne Hcancelled.
  assert (Hcancel :
    select_multiple_custom shown None true (Some filtered)
      (Some (ProcessDisplay.exclude_list (ProcessKiller.display self)))
      (ui_events w (collected ++ [SelectMultiple shown])) = Returned None).
  { apply cancelled_returns_none; [| |exact Hcancelled].
    - unfold shown, ProcessDisplay.make_choices.
      destruct filtered; [done|discriminate].
    - intros value label. apply make_choices_values. }
  split; [exact Hcancel|].
  destruct (lookup_sort_options _ _ _ Hlookup) as (Hin & Htruthy & Hmember).
  pose proof (sort_options_perm _ _ _ (map (set_selected false) records) Hin)
    as Hperm. fold sorted_processes in Hperm.
  assert (Hunselected : forall p, In p sorted_processes -> selected p = false).
  { intros p Hp. eapply Permutation_in in Hp; [|exact Hperm].
    apply in_map_iff in Hp as (q & <- & _). reflexivity. }
  assert (Hsorted : list_truthy sorted_processes = true).
  { destruct sorted_processes; [|reflexivity]. by contradiction Hne. }
  assert (Hall : list_truthy (map (set_selected false) records) = true).
  { destruct (map (set_selected false) records); [|reflexivity].
    apply Permutation_sym, Permutation_nil in Hperm.
    by rewrite Hperm in Hsorted. }
  assert (Hselect :
    ProcessDisplay.select_processes (ProcessKiller.display self) w sorted_processes
      nf
      (Some (ProcessFilter.is_system_process (ProcessKiller.filter self)))
      (Some (ProcessFilter.is_excluded (ProcessKiller.filter self)))
      (Some (ProcessFilter.matches_name_filter (ProcessKiller.filter self)))
      collected
    = (Ok sorted_processes, collected ++ [SelectMultiple shown])).
  { rewrite select_processes_entered by exact Hne.
    cbv zeta. fold filtered shown. by rewrite Hcancel. }
  assert (Hexecute :
    ProcessKiller._execute_sort_option self w choice started
    = (Ok tt, collected ++ [SelectMultiple shown; Print MsgNoProcessesSelected])).
  { unfold ProcessKiller._execute_sort_option, ProcessCollector.get_process_info.
    unfold mbind, M_bind, print, emit, observe. cbn beta iota.
    replace ((started ++ [Print MsgCollecting]) ++ [RunPs]) with collected
      by (subst collected; by rewrite <- app_assoc).
    rewrite Hps. unfold mret, M_ret. cbn beta iota.
    rewrite Hall. cbn [negb].
    change (ProcessKiller.sort_options self) with ProcessSorter.sort_options.
    rewrite Hlookup. fold sorted_processes. rewrite Hsorted. cbn [negb].
    change (ProcessKiller.name_filter self) with nf.
    rewrite Hselect.
    rewrite kill_nothing_selected by exact Hunselected.
    by rewrite <- app_assoc. }
  split; [exact Hselect|]. split; [exact Hexecute|]. split.
  - unfold ProcessKiller.run.
    unfold mbind at 1. unfold M_bind at 1. unfold print, emit. cbn beta iota.
    fold started. rewrite Htruthy.
    unfold ProcessKiller.is_sort_option.
    change (ProcessKiller.sort_options self) with ProcessSorter.sort_options.
    rewrite Hmember. cbn [negb].
    unfold mbind, M_bind, try_except.
    rewrite Hexecute. reflexivity.
  - intros [b Hb]. exists b.
    apply in_app_or in Hb as [Hb|Hb].
    + subst collected started.
      apply in_app_or in Hb as [Hb|Hb].
      * apply in_app_or in Hb as [Hb|Hb]; [assumption|].
        simpl in Hb. destruct Hb as [Hb|[]]. discriminate.
      * simpl in Hb. destruct Hb as [Hb|[Hb|[]]]; discriminate.
    + simpl in Hb. destruct Hb as [Hb|[Hb|[]]]; discriminate.
Qed.

Lemma cancelled_selection_sends_no_signal_witness :
  exists trace,
    ProcessKiller.run (ProcessKiller.init None None)
      (demo_world [Redraw 80; Key KeyDown; Redraw 80; Key (Char " "); Redraw 80;
                   Key (Char "q"); Redraw 80])
      (Some "cpu"%string) [] []
    = (Ok ProcessKiller.Finished, trace).
Proof.
  eexists.
  refine (proj1 (proj2 (proj2 (proj2 (cancelled_selection_sends_no_signal None None
            (demo_world [Redraw 80; Key KeyDown; Redraw 80; Key (Char " ");
                         Redraw 80; Key (Char "q"); Redraw 80])
            "cpu" "CPU usage" ProcessSorter.sort_cpu
            [user_process 100 "alpha"; user_process 101 "beta"] [] [] _ _ _ _))))).
  - reflexivity.
  - reflexivity.
  - vm_compute. discriminate.
  - left.
    exists [Redraw 80; Key KeyDown; Redraw 80; Key (Char " "); Redraw 80],
      (Char "q"), [Redraw 80].
    eexists. split; [reflexivity|]. split; [by left|].
    split; [vm_compute; reflexivity|]. split; [reflexivity|]. simpl. lia.
Defined.

(* ===================================================================== *)
(** * Further properties of the code *)
(* ===================================================================== *)

(** ** The filtered view only hides rows *)

(** A state that skips whatever another skips has a view that is a
    sublist of the other's. *)
Lemma filtered_from_sublist (c : closure) (s1 s2 : state) :
  (forall idx, skipped_by_filter c s2 idx = true ->
               skipped_by_filter c s1 idx = true) ->
  (forall label, skipped_by_search s2 label = true ->
                 skipped_by_search s1 label = true) ->
  forall l idx, sublist (filtered_from c s1 idx l) (filtered_from c s2 idx l).
Proof.
  intros Hf Hq l.
  induction l as [|[value label] rest IH]; intros idx; simpl; [constructor|].
  destruct (skipped_by_filter c s2 idx) eqn:H2.
  { rewrite (Hf idx H2). apply IH. }
  destruct (skipped_by_search s2 label) eqn:Q2.
  { rewrite (Hq label Q2). destruct (skipped_by_filter c s1 idx); apply IH. }
  destruct (skipped_by_filter c s1 idx); [by apply sublist_cons|].
  destruct (skipped_by_search s1 label); [by apply sublist_cons|].
  by apply sublist_skip.
Qed.

Lemma filtered_from_sublist_all (c : closure) (s : state) :
  forall l idx, sublist (filtered_from c s idx l) l.
Proof.
  induction l as [|[value label] rest IH]; intros idx; simpl; [constructor|].
  destruct (skipped_by_filter c s idx); [by apply sublist_cons|].
  destruct (skipped_by_search s label); [by apply sublist_cons|].
  by apply sublist_skip.
Qed.

(** X1. The filtered view is a sublist of the choices: filtering never
    reorders, repeats or invents an entry, and the view is never longer than
    the choices. Turning the hide-toggle on, or searching, only removes rows
    from the view one has with the toggle off, or outside Search mode. *)
Theorem filtered_view_only_hides (c : closure) (s : state) :
  sublist (get_filtered_choices c s) (choices c)
  /\ len (get_filtered_choices c s) <= len (choices c)
  /\ sublist (get_filtered_choices c (set_filter_system true s))
       (get_filtered_choices c (set_filter_system false s))
  /\ sublist (get_filtered_choices c s)
       (get_filtered_choices c (set_search_mode false s)).
Proof.
  split; [apply filtered_from_sublist_all|].
  split.
  { unfold len. apply inj_le, sublist_length, filtered_from_sublist_all. }
  split.
  - apply filtered_from_sublist; [|auto].
    intros idx. unfold skipped_by_filter. simpl.
    destruct (process_data c); discriminate.
  - apply filtered_from_sublist; [auto|].
    intros label. unfold skipped_by_search. simpl. discriminate.
Qed.

(** ** The cursor, continued *)

Lemma cursor_in_range_step_witness :
  cursor_in_range three_choices
    (set_current_index 1 (initial_state None true)).
Proof.
  apply (cursor_in_range_step three_choices KeyDown (initial_state None true)).
  - unfold cursor_in_range. vm_compute. split; [discriminate|reflexivity].
  - reflexivity.
  - left. vm_compute. discriminate.
Defined.

(** A single system process: with the hide-toggle on the view is empty. *)
Definition only_init : closure :=
  {| choices := [(0, "launchd")];
     process_data :=
       Some [ {| user := "root"; pid := 1; ppid := "0"; cpu := 0%float;
                 mem := 0%float; stat := "Ss"; start := "09:00"; uptime := "1h0m";
                 command := "/sbin/launchd"; name := "bin / launchd";
                 type := "launchd"; selected := false |} ];
     exclude_list := None |}.

Lemma py_getitem_none {A} (l : list A) (i : Z) :
  i < len l -> py_getitem l i = None -> i < - len l.
Proof.
  unfold py_getitem, len. intros Hlt Hnone.
  destruct (Z.leb_spec 0 i) as [Hi|Hi].
  - apply lookup_ge_None in Hnone. lia.
  - destruct (Z.leb_spec 0 (Z.of_nat (length l) + i)) as [Hj|Hj]; [|lia].
    apply lookup_ge_None in Hnone. lia.
Qed.

(** X2. From a cursor of at least -1 no handler moves the cursor below -1;
    and a handler raises nothing but [IndexError], only outside the detail
    overlay, only when the cursor is -1 and the view is empty (the state
    PageDown leaves on an empty view). So with a cursor of at least 0 no key
    ever raises. *)
Theorem handlers_raise_only_at_minus_one (c : closure) (k : key) (s : state) :
  -1 <= current_index s ->
  (forall s', handle_key c k s = Continue s' -> -1 <= current_index s')
  /\ (forall e, handle_key c k s = Raise e ->
        e = IndexError
        /\ current_index s = -1
        /\ get_filtered_choices c s = []
        /\ show_title_detail s = false).
Proof.
  intros Hlow.
  split.
  - intros s' Hstep.
    destruct k as [ | | | | | | | | | |ch]; cbn [handle_key] in Hstep.
    + unfold move_up in Hstep.
      destruct (show_title_detail s); [by inversion Hstep; subst|].
      destruct (Z.ltb_spec 0 (current_index s)); inversion Hstep; subst; simpl; lia.
    + unfold move_down in Hstep.
      destruct (show_title_detail s); [by inversion Hstep; subst|].
      destruct (_ <? _); inversion Hstep; subst; simpl; lia.
    + unfold page_up in Hstep.
      destruct (show_title_detail s); [by inversion Hstep; subst|].
      destruct (_ <? _); inversion Hstep; subst; simpl; lia.
    + unfold page_down in Hstep.
      pose proof (len_nonneg (get_filtered_choices c s)).
      destruct (show_title_detail s); [by inversion Hstep; subst|].
      destruct (Z.ltb_spec (get_page_end c s) (len (get_filtered_choices c s)));
        inversion Hstep; subst; simpl; [|lia].
      unfold get_page_end, get_page_start, page_size in *.
      pose proof (Z.div_le_lower_bound (current_index s) 20 (-1)). lia.
    + unfold page_up_alt, page_up in Hstep.
      destruct (show_title_detail s); simpl in Hstep; [by inversion Hstep; subst|].
      destruct (_ <? _); inversion Hstep; subst; simpl; lia.
    + unfold page_down_alt, page_down in Hstep.
      pose proof (len_nonneg (get_filtered_choices c s)).
      destruct (show_title_detail s); simpl in Hstep; [by inversion Hstep; subst|].
      destruct (Z.ltb_spec (get_page_end c s) (len (get_filtered_choices c s)));
        inversion Hstep; subst; simpl; [|lia].
      unfold get_page_end, get_page_start, page_size in *.
      pose proof (Z.div_le_lower_bound (current_index s) 20 (-1)). lia.
    + unfold confirm in Hstep. destruct (show_title_detail s); by inversion Hstep; subst.
    + unfold cancel in Hstep. destruct (show_title_detail s); by inversion Hstep; subst.
    + unfold handle_backspace in Hstep.
      destruct (_ && _); inversion Hstep; subst; simpl; lia.
    + unfold close_or_exit_search in Hstep.
      destruct (show_title_detail s); [by inversion Hstep; subst|].
      destruct (search_mode s); inversion Hstep; subst; simpl; lia.
    + destruct (Ascii.eqb ch " ").
      { unfold toggle_selection in Hstep.
        destruct (show_title_detail s); [by inversion Hstep; subst|].
        destruct (search_mode s); [inversion Hstep; subst; simpl; lia|].
        destruct (_ <? _); [|by inversion Hstep; subst].
        destruct (py_getitem _ _) as [[value label]|]; [|discriminate].
        destruct (bool_decide _); by inversion Hstep; subst. }
      destruct (Ascii.eqb ch "d").
      { unfold show_detail in Hstep.
        destruct (show_title_detail s); [by inversion Hstep; subst|].
        destruct (process_data c); [|by inversion Hstep; subst].
        destruct (_ <? _); [|by inversion Hstep; subst].
        destruct (py_getitem _ _) as [[value label]|]; [|discriminate].
        destruct (_ <? _); by inversion Hstep; subst. }
      destruct (Ascii.eqb ch "e").
      { unfold toggle_filter in Hstep.
        destruct (show_title_detail s); [by inversion Hstep; subst|].
        destruct (_ <=? _); inversion Hstep; subst; simpl; lia. }
      destruct (Ascii.eqb ch "q").
      { unfold cancel in Hstep. destruct (show_title_detail s); by inversion Hstep; subst. }
      destruct (Ascii.eqb ch "/").
      { unfold start_search in Hstep.
        destruct (_ && _); [inversion Hstep; subst; simpl; lia|].
        destruct (search_mode s); inversion Hstep; subst; simpl; lia. }
      destruct (char_in ch allowed_chars); [|by inversion Hstep; subst].
      unfold handle_char in Hstep.
      destruct (search_mode s); inversion Hstep; subst; simpl; lia.
  - intros e Hstep.
    destruct k as [ | | | | | | | | | |ch]; cbn [handle_key] in Hstep.
    + unfold move_up in Hstep.
      destruct (show_title_detail s); [discriminate|]. destruct (_ <? _); discriminate.
    + unfold move_down in Hstep.
      destruct (show_title_detail s); [discriminate|]. destruct (_ <? _); discriminate.
    + unfold page_up in Hstep.
      destruct (show_title_detail s); [discriminate|]. destruct (_ <? _); discriminate.
    + unfold page_down in Hstep.
      destruct (show_title_detail s); [discriminate|]. destruct (_ <? _); discriminate.
    + unfold page_up_alt, page_up in Hstep.
      destruct (show_title_detail s); simpl in Hstep; [discriminate|].
      destruct (_ <? _); discriminate.
    + unfold page_down_alt, page_down in Hstep.
      destruct (show_title_detail s); simpl in Hstep; [discriminate|].
      destruct (_ <? _); discriminate.
    + unfold confirm in Hstep. destruct (show_title_detail s); discriminate.
    + unfold cancel in Hstep. destruct (show_title_detail s); discriminate.
    + unfold handle_backspace in Hstep. destruct (_ && _); discriminate.
    + unfold close_or_exit_search in Hstep.
      destruct (show_title_detail s); [discriminate|].
      destruct (search_mode s); discriminate.
    + destruct (Ascii.eqb ch " ").
      { unfold toggle_selection in Hstep.
        destruct (show_title_detail s); [discriminate|].
        destruct (search_mode s); [discriminate|].
        destruct (Z.ltb_spec (current_index s) (len (get_filtered_choices c s)))
          as [Hlt|]; [|discriminate].
        destruct (py_getitem _ _) as [[value label]|] eqn:Hitem.
        { destruct (bool_decide _); discriminate. }
        inversion Hstep; subst.
        apply py_getitem_none in Hitem; [|assumption].
        pose proof (len_nonneg (get_filtered_choices c s)).
        split; [reflexivity|]. split; [lia|]. split; [|reflexivity].
        destruct (get_filtered_choices c s); [reflexivity|].
        unfold len in *. simpl in *. lia. }
      destruct (Ascii.eqb ch "d").
      { unfold show_detail in Hstep.
        destruct (show_title_detail s); [discriminate|].
        destruct (process_data c) as [pd|]; [|discriminate].
        destruct (Z.ltb_spec (current_index s) (len (get_filtered_choices c s)))
          as [Hlt|]; [|discriminate].
        destruct (py_getitem _ _) as [[value label]|] eqn:Hitem.
        { destruct (_ <? _); discriminate. }
        inversion Hstep; subst.
        apply py_getitem_none in Hitem; [|assumption].
        pose proof (len_nonneg (get_filtered_choices c s)).
        split; [reflexivity|]. split; [lia|]. split; [|reflexivity].
        destruct (get_filtered_choices c s); [reflexivity|].
        unfold len in *. simpl in *. lia. }
      destruct (Ascii.eqb ch "e").
      { unfold toggle_filter in Hstep.
        destruct (show_title_detail s); [discriminate|].
        destruct (_ <=? _); discriminate. }
      destruct (Ascii.eqb ch "q").
      { unfold cancel in Hstep. destruct (show_title_detail s); discriminate. }
      destruct (Ascii.eqb ch "/").
      { unfold start_search in Hstep.
        destruct (_ && _); [discriminate|]. destruct (search_mode s); discriminate. }
      destruct (char_in ch allowed_chars); [|discriminate].
      unfold handle_char in Hstep. destruct (search_mode s); discriminate.
Qed.

Lemma handlers_raise_only_at_minus_one_witness :
  handle_key only_init (Char " ")
    (set_current_index (-1) (initial_state None true)) = Raise IndexError
  /\ get_filtered_choices only_init
       (set_current_index (-1) (initial_state None true)) = [].
Proof.
  split; [reflexivity|].
  apply (proj2 (handlers_raise_only_at_minus_one only_init (Char " ")
                  (set_current_index (-1) (initial_state None true))
                  ltac:(simpl; lia)) IndexError).
  reflexivity.
Defined.

(** ** The detail overlay *)

(** The keys whose handler closes the overlay. *)
Definition closes_detail (k : key) : bool :=
  match k with
  | KeyUp | KeyDown | KeyPageUp | KeyPageDown | KeyEnter | ControlC | KeyEscape =>
      true
  | Char ch =>
      Ascii.eqb ch " " || Ascii.eqb ch "d" || Ascii.eqb ch "e" || Ascii.eqb ch "q"
  | ControlF | ControlB | KeyBackspace => false
  end.

Lemma state_eta (s : state) :
  {| selected_indices := selected_indices s; current_index := current_index s;
     filter_system := filter_system s; search_mode := search_mode s;
     search_query := search_query s; show_title_detail := show_title_detail s;
     title_detail_index := title_detail_index s |} = s.
Proof. by destruct s. Qed.

(** With the overlay open every handler returns, and it leaves the detail
    index as it is. *)
Lemma detail_overlay_is_modal_aux (c : closure) (k : key) (s : state) :
  show_title_detail s = true ->
  exists s', handle_key c k s = Continue s'
    /\ title_detail_index s' = title_detail_index s.
Proof.
  intros Hd.
  destruct k as [ | | | | | | | | | |ch]; cbn [handle_key].
  - unfold move_up. rewrite Hd. eexists. by repeat split.
  - unfold move_down. rewrite Hd. eexists. by repeat split.
  - unfold page_up. rewrite Hd. eexists. by repeat split.
  - unfold page_down. rewrite Hd. eexists. by repeat split.
  - unfold page_up_alt. rewrite Hd. eexists. by repeat split.
  - unfold page_down_alt. rewrite Hd. eexists. by repeat split.
  - unfold confirm. rewrite Hd. eexists. by repeat split.
  - unfold cancel. rewrite Hd. eexists. by repeat split.
  - unfold handle_backspace. destruct (_ && _); eexists; by repeat split.
  - unfold close_or_exit_search. rewrite Hd. eexists. by repeat split.
  - destruct (Ascii.eqb ch " ").
    { unfold toggle_selection. rewrite Hd. eexists. by repeat split. }
    destruct (Ascii.eqb ch "d").
    { unfold show_detail. rewrite Hd. eexists. by repeat split. }
    destruct (Ascii.eqb ch "e").
    { unfold toggle_filter. rewrite Hd. eexists. by repeat split. }
    destruct (Ascii.eqb ch "q").
    { unfold cancel. rewrite Hd. eexists. by repeat split. }
    destruct (Ascii.eqb ch "/").
    { unfold start_search. rewrite Hd. simpl.
      destruct (search_mode s); eexists; by repeat split. }
    destruct (char_in ch allowed_chars); [|eexists; by repeat split].
    unfold handle_char. destruct (search_mode s); eexists; by repeat split.
Qed.

(** X3. While the detail overlay is open no key ends the session or
    raises, and none changes the selection, the hide-toggle, the mode or the
    detail index. The arrows, the page keys, Space, [d], [e], Enter, [q],
    Control-C and Escape close the overlay and change nothing else. Of the
    other keys (Control-F, Control-B, Backspace, the slash, any other
    character), outside Search mode none does anything; in Search mode the
    slash, the characters bound to [handle_char] and Backspace on a
    non-empty query still edit the query and put the cursor on row 0 behind
    the open overlay, and the rest do nothing. So the cursor moves under an
    open overlay only by a query key in Search mode, and then to row 0. *)
Theorem detail_overlay_is_modal (c : closure) (k : key) (s : state) :
  show_title_detail s = true ->
  exists s',
    handle_key c k s = Continue s'
    /\ s' = (if closes_detail k then set_show_title_detail false s
             else if search_mode s then
               match k with
               | Char ch =>
                   if Ascii.eqb ch "/" || char_in ch allowed_chars
                   then set_current_index 0
                          (set_search_query
                             (search_query s +:+ String ch EmptyString) s)
                   else s
               | KeyBackspace =>
                   if str_truthy (search_query s)
                   then set_current_index 0
                          (set_search_query (drop_last (search_query s)) s)
                   else s
               | _ => s
               end
             else s)
    /\ selected_indices s' = selected_indices s
    /\ filter_system s' = filter_system s
    /\ search_mode s' = search_mode s
    /\ title_detail_index s' = title_detail_index s
    /\ show_title_detail s' = negb (closes_detail k)
    /\ (current_index s' = current_index s
        \/ (search_mode s = true /\ closes_detail k = false
            /\ is_query_key k = true /\ current_index s' = 0)).
Proof.
  intros Hd.
  destruct k as [ | | | | | | | | | |ch]; cbn [handle_key closes_detail].
  - unfold move_up. rewrite Hd. eexists. split; [reflexivity|].
    repeat split. by left.
  - unfold move_down. rewrite Hd. eexists. split; [reflexivity|].
    repeat split. by left.
  - unfold page_up. rewrite Hd. eexists. split; [reflexivity|].
    repeat split. by left.
  - unfold page_down. rewrite Hd. eexists. split; [reflexivity|].
    repeat split. by left.
  - unfold page_up_alt. rewrite Hd. exists s. split; [reflexivity|].
    split; [by destruct (search_mode s)|]. repeat split; [exact Hd|by left].
  - unfold page_down_alt. rewrite Hd. exists s. split; [reflexivity|].
    split; [by destruct (search_mode s)|]. repeat split; [exact Hd|by left].
  - unfold confirm. rewrite Hd. eexists. split; [reflexivity|].
    repeat split. by left.
  - unfold cancel. rewrite Hd. eexists. split; [reflexivity|].
    repeat split. by left.
  - unfold handle_backspace.
    destruct (search_mode s) eqn:Hm; cbn [andb].
    + destruct (str_truthy (search_query s)).
      * eexists. split; [reflexivity|]. split; [reflexivity|].
        cbn [set_current_index set_search_query selected_indices filter_system
               search_mode title_detail_index show_title_detail current_index negb].
        repeat split; try assumption. right. by repeat split.
      * exists s. split; [reflexivity|]. split; [reflexivity|].
        repeat split; try assumption. by left.
    + exists s. split; [reflexivity|]. split; [reflexivity|].
      repeat split; try assumption. by left.
  - unfold close_or_exit_search. rewrite Hd. eexists. split; [reflexivity|].
    repeat split. by left.
  - destruct (Ascii.eqb ch " ") eqn:Hsp; cbn [orb].
    { unfold toggle_selection. rewrite Hd. eexists. split; [reflexivity|].
      repeat split. by left. }
    destruct (Ascii.eqb ch "d"); cbn [orb].
    { unfold show_detail. rewrite Hd. eexists. split; [reflexivity|].
      repeat split. by left. }
    destruct (Ascii.eqb ch "e"); cbn [orb].
    { unfold toggle_filter. rewrite Hd. eexists. split; [reflexivity|].
      repeat split. by left. }
    destruct (Ascii.eqb ch "q"); cbn [orb].
    { unfold cancel. rewrite Hd. eexists. split; [reflexivity|].
      repeat split. by left. }
    cbn [is_query_key]. rewrite Hsp. rewrite !orb_false_l.
    destruct (Ascii.eqb ch "/") eqn:Hslash; rewrite ?orb_true_l, ?orb_false_l.
    { unfold start_search. rewrite Hd. cbn [negb andb].
      apply Ascii.eqb_eq in Hslash. subst ch.
      destruct (search_mode s) eqn:Hm.
      - eexists. split; [reflexivity|]. split; [reflexivity|].
        cbn [set_current_index set_search_query selected_indices filter_system
               search_mode title_detail_index show_title_detail current_index negb].
        repeat split; try assumption. right. by repeat split.
      - exists s. split; [reflexivity|]. split; [reflexivity|].
        repeat split; try assumption. by left. }
    destruct (char_in ch allowed_chars) eqn:Hch.
    + unfold handle_char.
      destruct (search_mode s) eqn:Hm.
      * eexists. split; [reflexivity|]. split; [reflexivity|].
        cbn [set_current_index set_search_query selected_indices filter_system
               search_mode title_detail_index show_title_detail current_index negb].
        repeat split; try assumption. right. by repeat split.
      * exists s. split; [reflexivity|]. split; [reflexivity|].
        repeat split; try assumption. by left.
    + exists s. split; [reflexivity|].
      split; [by destruct (search_mode s)|].
      repeat split; try assumption. by left.
Qed.

Lemma detail_overlay_is_modal_witness :
  exists s',
    handle_key three_choices (Char "a")
      (set_show_title_detail true
         (set_search_mode true (set_current_index 1 (initial_state None true))))
    = Continue s'
    /\ show_title_detail s' = true
    /\ (current_index s' = 1 \/ current_index s' = 0).
Proof.
  destruct (detail_overlay_is_modal three_choices (Char "a")
              (set_show_title_detail true
                 (set_search_mode true
                    (set_current_index 1 (initial_state None true))))
              eq_refl)
    as (s' & Hstep & _ & _ & _ & _ & _ & Hshow & Hcursor).
  exists s'. split; [exact Hstep|]. split; [exact Hshow|].
  destruct Hcursor as [Hsame|(_ & _ & _ & Hzero)]; [left; exact Hsame|by right].
Defined.

(** The query key of the witness moves the cursor from row 1 to row 0 under
    the open overlay. *)
Example query_key_moves_cursor_under_overlay :
  handle_key three_choices (Char "a")
    (set_show_title_detail true
       (set_search_mode true (set_current_index 1 (initial_state None true))))
  = Continue (set_current_index 0
                (set_search_query "a"
                   (set_show_title_detail true
                      (set_search_mode true
                         (set_current_index 1 (initial_state None true)))))).
Proof. reflexivity. Qed.

(** ** Moving the cursor *)

(** X4. In Normal mode with the cursor on a row: Up on the first row and
    Down on the last row change nothing (no wrap-around); Down followed by
    Up, from a row that is not the last, and Up followed by Down, from a
    row that is not the first, come back to the very same state. *)
Theorem up_down_no_wrap (c : closure) (s : state) :
  show_title_detail s = false ->
  0 <= current_index s < len (get_filtered_choices c s) ->
  (current_index s = 0 -> handle_key c KeyUp s = Continue s)
  /\ (current_index s = len (get_filtered_choices c s) - 1 ->
      handle_key c KeyDown s = Continue s)
  /\ (current_index s < len (get_filtered_choices c s) - 1 ->
      after_keys c [KeyDown; KeyUp] s = Some s)
  /\ (0 < current_index s -> after_keys c [KeyUp; KeyDown] s = Some s).
Proof.
  intros Hd Hr.
  assert (Hview : forall v, get_filtered_choices c (set_current_index v s)
                            = get_filtered_choices c s)
    by (intros; by apply get_filtered_choices_ext).
  split; [|split; [|split]].
  - intros H0. cbn [handle_key]. unfold move_up. by rewrite Hd, H0.
  - intros Hlast. cbn [handle_key]. unfold move_down. rewrite Hd.
    destruct (Z.ltb_spec (current_index s) (len (get_filtered_choices c s) - 1));
      [lia|reflexivity].
  - intros Hlt. cbn [after_keys handle_key]. unfold move_down. rewrite Hd.
    destruct (Z.ltb_spec (current_index s) (len (get_filtered_choices c s) - 1));
      [|lia].
    unfold move_up. simpl. rewrite Hd.
    destruct (Z.ltb_spec 0 (current_index s + 1)); [|lia].
    f_equal. unfold set_current_index. simpl.
    replace (current_index s + 1 - 1) with (current_index s) by lia.
    apply state_eta.
  - intros Hpos. cbn [after_keys handle_key]. unfold move_up. rewrite Hd.
    destruct (Z.ltb_spec 0 (current_index s)); [|lia].
    unfold move_down. simpl. rewrite Hd, Hview.
    destruct (Z.ltb_spec (current_index s - 1) (len (get_filtered_choices c s) - 1));
      [|lia].
    f_equal. unfold set_current_index. simpl.
    replace (current_index s - 1 + 1) with (current_index s) by lia.
    apply state_eta.
Qed.

Lemma up_down_no_wrap_witness :
  after_keys three_choices [KeyDown; KeyUp] (initial_state None true)
  = Some (initial_state None true).
Proof.
  apply (up_down_no_wrap three_choices (initial_state None true)).
  - reflexivity.
  - vm_compute. split; [discriminate|reflexivity].
  - vm_compute. reflexivity.
Defined.

(** ** Paging back and forth *)

Lemma get_page_start_multiple (s : state) :
  get_page_start s = (current_index s / 20) * 20.
Proof. reflexivity. Qed.

Lemma page_of_page_start (q : Z) : (q * 20) / 20 * 20 = q * 20.
Proof. by rewrite Z.div_mul by lia. Qed.

(** X5. In Normal mode with the cursor on a row: when rows lie beyond the
    page of the cursor, PageDown then PageUp puts the cursor on the first row
    of the page it started from; when the page of the cursor is not the
    first, PageUp then PageDown does the same. Nothing but the cursor
    changes. *)
Theorem page_down_up_returns_to_page_start (c : closure) (s : state) :
  show_title_detail s = false ->
  0 <= current_index s < len (get_filtered_choices c s) ->
  (get_page_end c s < len (get_filtered_choices c s) ->
   after_keys c [KeyPageDown; KeyPageUp] s
   = Some (set_current_index (get_page_start s) s))
  /\ (0 < get_page_start s ->
      after_keys c [KeyPageUp; KeyPageDown] s
      = Some (set_current_index (get_page_start s) s)).
Proof.
  intros Hd Hr.
  assert (Hview : forall v, get_filtered_choices c (set_current_index v s)
                            = get_filtered_choices c s)
    by (intros; by apply get_filtered_choices_ext).
  pose proof (get_page_start_le s (proj1 Hr)) as Hps.
  pose proof (get_page_start_multiple s) as Hmul.
  set (q := current_index s / 20) in *.
  assert (Hq : 0 <= q) by (apply Z.div_pos; lia).
  assert (Hrem : current_index s < q * 20 + 20).
  { pose proof (Z.mod_pos_bound (current_index s) 20 ltac:(lia)).
    pose proof (Z.div_mod (current_index s) 20 ltac:(lia)). subst q. lia. }
  split.
  - intros Hbeyond. cbn [after_keys handle_key]. unfold page_down. rewrite Hd.
    destruct (Z.ltb_spec (get_page_end c s) (len (get_filtered_choices c s)));
      [|lia].
    unfold page_up. cbn [show_title_detail set_current_index]. rewrite Hd.
    unfold get_page_end in *. rewrite Hmul in *. unfold page_size in *.
    replace (Z.min (len (get_filtered_choices c s) - 1)
               (Z.min (q * 20 + 20) (len (get_filtered_choices c s))))
      with ((q + 1) * 20) by lia.
    unfold get_page_start. cbn [current_index set_current_index].
    unfold page_size. rewrite page_of_page_start.
    destruct (Z.ltb_spec 0 ((q + 1) * 20)); [|lia].
    replace (Z.max 0 ((q + 1) * 20 - 20)) with (q * 20) by lia.
    reflexivity.
  - intros Hpos. cbn [after_keys handle_key]. unfold page_up. rewrite Hd.
    destruct (Z.ltb_spec 0 (get_page_start s)); [|lia].
    unfold page_down. cbn [show_title_detail set_current_index]. rewrite Hd.
    rewrite Hmul in *. unfold page_size in *.
    replace (Z.max 0 (q * 20 - 20)) with ((q - 1) * 20) by lia.
    unfold get_page_end, get_page_start. cbn [current_index set_current_index].
    unfold page_size. rewrite page_of_page_start.
    change (get_filtered_choices c _) with
      (get_filtered_choices c (set_current_index ((q - 1) * 20) s)).
    rewrite !Hview.
    destruct (Z.ltb_spec (Z.min ((q - 1) * 20 + 20) (len (get_filtered_choices c s)))
                (len (get_filtered_choices c s))); [|lia].
    replace (Z.min (len (get_filtered_choices c s) - 1)
               (Z.min ((q - 1) * 20 + 20) (len (get_filtered_choices c s))))
      with (q * 20) by lia.
    reflexivity.
Qed.

Lemma page_down_up_returns_to_page_start_witness :
  after_keys (plain_closure 45) [KeyPageDown; KeyPageUp]
    (set_current_index 7 (initial_state None true))
  = Some (set_current_index
            (get_page_start (set_current_index 7 (initial_state None true)))
            (set_current_index 7 (initial_state None true))).
Proof.
  refine (proj1 (page_down_up_returns_to_page_start (plain_closure 45)
                   (set_current_index 7 (initial_state None true)) eq_refl _) _).
  - vm_compute. split; [discriminate|reflexivity].
  - vm_compute. reflexivity.
Defined.

(** ** Editing the query *)

Lemma drop_last_append (q : string) (ch : ascii) :
  drop_last (q +:+ String ch EmptyString) = q.
Proof.
  induction q as [|a q IH]; [reflexivity|].
  simpl. rewrite IH.
  destruct q; reflexivity.
Qed.

Lemma str_truthy_append (q : string) (ch : ascii) :
  str_truthy (q +:+ String ch EmptyString) = true.
Proof. by destruct q. Qed.

(** X6. In Search mode, typing a character of the query (a character bound
    to [handle_char], Space or the slash) and then Backspace gives back the
    query, hence the view, that was there before; the cursor is on row 0 and
    nothing else has changed. Backspace on an empty query does nothing. *)
Theorem backspace_undoes_typing (c : closure) (s : state) (ch : ascii) :
  show_title_detail s = false ->
  search_mode s = true ->
  is_query_key (Char ch) = true ->
  after_keys c [Char ch; KeyBackspace] s = Some (set_current_index 0 s)
  /\ get_filtered_choices c (set_current_index 0 s) = get_filtered_choices c s
  /\ (search_query s = "" -> handle_key c KeyBackspace s = Continue s).
Proof.
  intros Hd Hm Hk.
  assert (Htyped : handle_key c (Char ch) s
                   = Continue (set_current_index 0
                       (set_search_query (search_query s +:+ String ch EmptyString) s))).
  { cbn [handle_key]. cbn [is_query_key] in Hk.
    destruct (Ascii.eqb_spec ch " ") as [->|_].
    { unfold toggle_selection. by rewrite Hd, Hm. }
    destruct (Ascii.eqb_spec ch "d") as [->|_]; [vm_compute in Hk; discriminate|].
    destruct (Ascii.eqb_spec ch "e") as [->|_]; [vm_compute in Hk; discriminate|].
    destruct (Ascii.eqb_spec ch "q") as [->|_]; [vm_compute in Hk; discriminate|].
    destruct (Ascii.eqb_spec ch "/") as [->|_].
    { unfold start_search. by rewrite Hd, Hm. }
    rewrite !orb_false_l in Hk.
    rewrite Hk. unfold handle_char. by rewrite Hm. }
  split; [|split].
  - cbn [after_keys]. rewrite Htyped.
    cbn [handle_key]. unfold handle_backspace.
    cbn [search_mode search_query set_current_index set_search_query].
    rewrite Hm, str_truthy_append, drop_last_append. reflexivity.
  - by apply get_filtered_choices_ext.
  - intros Hq. cbn [handle_key]. unfold handle_backspace.
    rewrite Hm, Hq. reflexivity.
Qed.

Lemma backspace_undoes_typing_witness :
  after_keys three_choices [Char "z"; KeyBackspace]
    (set_search_mode true (initial_state None true))
  = Some (set_current_index 0 (set_search_mode true (initial_state None true))).
Proof.
  apply (backspace_undoes_typing three_choices
           (set_search_mode true (initial_state None true)) "z").
  - reflexivity.
  - reflexivity.
  - vm_compute. reflexivity.
Defined.

(** ** The detail index *)

(** What [render_title_detail] tests before it draws an open overlay. *)
Definition detail_index_valid (c : closure) (s : state) : Prop :=
  show_title_detail s = true ->
  exists pd, process_data c = Some pd /\ title_detail_index s < len pd.

Lemma detail_index_valid_step (c : closure) (k : key) (s s' : state) :
  detail_index_valid c s ->
  handle_key c k s = Continue s' ->
  detail_index_valid c s'.
Proof.
  unfold detail_index_valid. intros Hv Hstep.
  destruct (show_title_detail s) eqn:Hd.
  - destruct (detail_overlay_is_modal_aux c k s Hd) as (t & Ht & Hidx).
    rewrite Ht in Hstep. inversion Hstep; subst t.
    rewrite Hidx. intros _. by apply Hv.
  - destruct k as [ | | | | | | | | | |ch]; cbn [handle_key] in Hstep.
    + unfold move_up in Hstep. rewrite Hd in Hstep.
      destruct (_ <? _); inversion Hstep; subst; simpl; congruence.
    + unfold move_down in Hstep. rewrite Hd in Hstep.
      destruct (_ <? _); inversion Hstep; subst; simpl; congruence.
    + unfold page_up in Hstep. rewrite Hd in Hstep.
      destruct (_ <? _); inversion Hstep; subst; simpl; congruence.
    + unfold page_down in Hstep. rewrite Hd in Hstep.
      destruct (_ <? _); inversion Hstep; subst; simpl; congruence.
    + unfold page_up_alt, page_up in Hstep. rewrite Hd in Hstep. simpl in Hstep.
      destruct (_ <? _); inversion Hstep; subst; simpl; congruence.
    + unfold page_down_alt, page_down in Hstep. rewrite Hd in Hstep.
      simpl in Hstep.
      destruct (_ <? _); inversion Hstep; subst; simpl; congruence.
    + unfold confirm in Hstep. rewrite Hd in Hstep. discriminate.
    + unfold cancel in Hstep. rewrite Hd in Hstep. discriminate.
    + unfold handle_backspace in Hstep.
      destruct (_ && _); inversion Hstep; subst; simpl; congruence.
    + unfold close_or_exit_search in Hstep. rewrite Hd in Hstep.
      destruct (search_mode s); inversion Hstep; subst; simpl; congruence.
    + destruct (Ascii.eqb ch " ").
      { unfold toggle_selection in Hstep. rewrite Hd in Hstep.
        destruct (search_mode s); [inversion Hstep; subst; simpl; congruence|].
        destruct (_ <? _); [|inversion Hstep; subst; congruence].
        destruct (py_getitem _ _) as [[value label]|]; [|discriminate].
        destruct (bool_decide _); inversion Hstep; subst; simpl; congruence. }
      destruct (Ascii.eqb ch "d").
      { unfold show_detail in Hstep. rewrite Hd in Hstep.
        destruct (process_data c) as [pd|] eqn:Hpd;
          [|inversion Hstep; subst; congruence].
        destruct (_ <? _); [|inversion Hstep; subst; congruence].
        destruct (py_getitem _ _) as [[value label]|]; [|discriminate].
        destruct (Z.ltb_spec value (len pd)); inversion Hstep; subst; simpl;
          [|congruence].
        intros _. by exists pd. }
      destruct (Ascii.eqb ch "e").
      { unfold toggle_filter in Hstep. rewrite Hd in Hstep.
        destruct (_ <=? _); inversion Hstep; subst; simpl; congruence. }
      destruct (Ascii.eqb ch "q").
      { unfold cancel in Hstep. rewrite Hd in Hstep. discriminate. }
      destruct (Ascii.eqb ch "/").
      { unfold start_search in Hstep. rewrite Hd in Hstep. simpl in Hstep.
        destruct (search_mode s); inversion Hstep; subst; simpl; congruence. }
      destruct (char_in ch allowed_chars); [|inversion Hstep; subst; congruence].
      unfold handle_char in Hstep.
      destruct (search_mode s); inversion Hstep; subst; simpl; congruence.
Qed.

(** X7. Along any key presses from the start of a session, whenever the
    detail overlay is open the test [render_title_detail] makes before it
    draws holds: [process_data] is present and the detail index is below its
    length, so an open overlay is never drawn empty. *)
Theorem detail_index_stays_valid (c : closure) (default_values : option (list Z))
    (hide : bool) (ks : list key) (s : state) :
  after_keys c ks (initial_state default_values hide) = Some s ->
  show_title_detail s = true ->
  exists pd, process_data c = Some pd /\ title_detail_index s < len pd.
Proof.
  intros Hrun.
  assert (Hinit : detail_index_valid c (initial_state default_values hide))
    by (intros Hd; discriminate).
  revert Hrun Hinit. generalize (initial_state default_values hide) as s0.
  induction ks as [|k ks IH]; intros s0 Hrun Hv; simpl in Hrun.
  - inversion Hrun; subst. exact Hv.
  - destruct (handle_key c k s0) as [s1| |] eqn:Hstep; try discriminate.
    eapply IH; [exact Hrun|]. eapply detail_index_valid_step; eauto.
Qed.

(** Two user processes behind two choices. *)
Definition two_processes : closure :=
  {| choices := [(0, "tools / alpha"); (1, "tools / beta")];
     process_data := Some [user_process 100 "alpha"; user_process 101 "beta"];
     exclude_list := None |}.

Lemma detail_index_stays_valid_witness :
  exists pd, process_data two_processes = Some pd
    /\ title_detail_index
         (set_title_detail_index 1
            (set_show_title_detail true
               (set_current_index 1 (initial_state None true)))) < len pd.
Proof.
  apply (detail_index_stays_valid two_processes None true [KeyDown; Char "d"]).
  - reflexivity.
  - reflexivity.
Defined.

(** ** Drawing the list *)

Lemma cursor_below_page_end (c : closure) (s : state) :
  0 <= current_index s < len (get_filtered_choices c s) ->
  get_page_start s <= current_index s < get_page_end c s.
Proof.
  intros Hr. pose proof (get_page_start_le s (proj1 Hr)).
  unfold get_page_end, get_page_start, page_size in *.
  pose proof (Z.mod_pos_bound (current_index s) 20 ltac:(lia)).
  pose proof (Z.div_mod (current_index s) 20 ltac:(lia)). lia.
Qed.

(** X8. With a cursor of at least 0 drawing the list never fails and never
    gives an empty result: on an empty view it gives the one placeholder
    line; and the row under the cursor is always on the drawn page, marked
    with the cursor prefix and with its checkbox as the selected set has
    it. *)
Theorem render_content_draws_cursor_row (c : closure) (s : state) :
  0 <= current_index s ->
  exists rows,
    render_content c s = Some rows
    /\ rows <> []
    /\ (get_filtered_choices c s = [] -> rows = [("", "(No items to display)")])
    /\ (forall v label,
          get_filtered_choices c s !! Z.to_nat (current_index s) = Some (v, label) ->
          exists style,
            (style,
             "> " +:+ (if bool_decide (v ∈ selected_indices s) then "[X]" else "[ ]")
                  +:+ " " +:+ label) ∈ rows).
Proof.
  intros Hcur.
  pose proof (get_page_start_le s Hcur) as Hps.
  unfold render_content.
  destruct (render_rows_draws s (get_filtered_choices c s) (get_page_end c s)
              (Z.to_nat (get_page_end c s - get_page_start s))
              (get_page_start s) (proj1 Hps)) as (rows & Hrows & Hdraw).
  destruct (Z.le_gt_cases (get_page_end c s) (get_page_start s)) as [Hle|Hgt].
  - (* nothing to draw: the cursor is on no row *)
    replace (Z.to_nat (get_page_end c s - get_page_start s)) with 0%nat in Hrows
      by lia.
    simpl in Hrows. inversion Hrows; subst rows.
    rewrite seqZ_nil by lia. simpl.
    eexists. split; [reflexivity|]. split; [discriminate|]. split; [reflexivity|].
    intros v label Hlook. exfalso.
    apply lookup_lt_Some in Hlook.
    unfold get_page_end, page_size, len in Hle. lia.
  - rewrite Z2Nat.id in Hrows, Hdraw by lia. rewrite Hrows.
    assert (Hany : forall v label,
              get_filtered_choices c s !! Z.to_nat (current_index s)
                = Some (v, label) ->
              exists style,
                (style,
                 "> " +:+ (if bool_decide (v ∈ selected_indices s)
                           then "[X]" else "[ ]") +:+ " " +:+ label) ∈ rows).
    { intros v label Hlook.
      pose proof (lookup_lt_Some _ _ _ Hlook) as Hlt.
      assert (Hin : 0 <= current_index s < len (get_filtered_choices c s))
        by (unfold len; lia).
      pose proof (cursor_below_page_end c s Hin) as Hpage.
      eexists. eapply (Hdraw (current_index s) v label); [lia|exact Hlook|].
      unfold render_row. rewrite Z.eqb_refl. left. }
    destruct (get_filtered_choices c s) as [|[v0 l0] rest] eqn:Hview.
    + exfalso. unfold get_page_end in Hgt. rewrite Hview in Hgt.
      unfold len in Hgt. simpl in Hgt. lia.
    + destruct rows as [|row rows].
      * exfalso.
        destruct (lookup_lt_is_Some_2 ((v0, l0) :: rest)
                    (Z.to_nat (get_page_start s))) as [[v1 l1] Hl].
        { unfold get_page_end in Hgt. rewrite Hview in Hgt.
          unfold page_size, len in Hgt. lia. }
        specialize (Hdraw (get_page_start s) v1 l1 ltac:(lia) Hl _ ltac:(left)).
        by apply elem_of_nil in Hdraw.
      * eexists. split; [reflexivity|]. split; [discriminate|].
        split; [discriminate|]. exact Hany.
Qed.

Lemma render_content_draws_cursor_row_witness :
  exists rows,
    render_content three_choices (initial_state None true) = Some rows
    /\ rows <> [].
Proof.
  destruct (render_content_draws_cursor_row three_choices (initial_state None true)
              ltac:(simpl; lia)) as (rows & Hrows & Hne & _).
  exists rows. split; [exact Hrows|exact Hne].
Defined.

(** ** What the selection engine can return *)

(** Only Enter exits with a list, and the list is the one made of the
    selected set. *)
Lemma exit_result (c : closure) (k : key) (s : state) (r : list Z) :
  handle_key c k s = Exit (Some r) -> r = elements (selected_indices s).
Proof.
  intros Hstep.
  destruct k as [ | | | | | | | | | |ch]; cbn [handle_key] in Hstep.
  - unfold move_up in Hstep. destruct (show_title_detail s); [discriminate|].
    destruct (_ <? _); discriminate.
  - unfold move_down in Hstep. destruct (show_title_detail s); [discriminate|].
    destruct (_ <? _); discriminate.
  - unfold page_up in Hstep. destruct (show_title_detail s); [discriminate|].
    destruct (_ <? _); discriminate.
  - unfold page_down in Hstep. destruct (show_title_detail s); [discriminate|].
    destruct (_ <? _); discriminate.
  - unfold page_up_alt, page_up in Hstep.
    destruct (show_title_detail s); simpl in Hstep; [discriminate|].
    destruct (_ <? _); discriminate.
  - unfold page_down_alt, page_down in Hstep.
    destruct (show_title_detail s); simpl in Hstep; [discriminate|].
    destruct (_ <? _); discriminate.
  - unfold confirm in Hstep.
    destruct (show_title_detail s); [discriminate|]. by inversion Hstep.
  - unfold cancel in Hstep. destruct (show_title_detail s); discriminate.
  - unfold handle_backspace in Hstep. destruct (_ && _); discriminate.
  - unfold close_or_exit_search in Hstep.
    destruct (show_title_detail s); [discriminate|].
    destruct (search_mode s); discriminate.
  - destruct (Ascii.eqb ch " ").
    { unfold toggle_selection in Hstep.
      destruct (show_title_detail s); [discriminate|].
      destruct (search_mode s); [discriminate|].
      destruct (_ <? _); [|discriminate].
      destruct (py_getitem _ _) as [[value label]|]; [|discriminate].
      destruct (bool_decide _); discriminate. }
    destruct (Ascii.eqb ch "d").
    { unfold show_detail in Hstep.
      destruct (show_title_detail s); [discriminate|].
      destruct (process_data c); [|discriminate].
      destruct (_ <? _); [|discriminate].
      destruct (py_getitem _ _) as [[value label]|]; [|discriminate].
      destruct (_ <? _); discriminate. }
    destruct (Ascii.eqb ch "e").
    { unfold toggle_filter in Hstep.
      destruct (show_title_detail s); [discriminate|].
      destruct (_ <=? _); discriminate. }
    destruct (Ascii.eqb ch "q").
    { unfold cancel in Hstep. destruct (show_title_detail s); discriminate. }
    destruct (Ascii.eqb ch "/").
    { unfold start_search in Hstep.
      destruct (_ && _); [discriminate|]. destruct (search_mode s); discriminate. }
    destruct (char_in ch allowed_chars); [|discriminate].
    unfold handle_char in Hstep. destruct (search_mode s); discriminate.
Qed.

(** Whatever the events, a list returned by the application holds each of
    its members once, and every member was selected at the start or is the
    value of a choice. *)
Lemma app_run_returns_selected (c : closure) (events : list event) :
  forall s r, app_run c events s = Returned (Some r) ->
  NoDup r
  /\ forall x, x ∈ r ->
       x ∈ selected_indices s \/ exists label, (x, label) ∈ choices c.
Proof.
  induction events as [|ev events IH]; intros s r Hrun; cbn [app_run] in Hrun;
    [discriminate|].
  destruct ev as [k|e|columns|].
  - destruct (handle_key c k s) as [s1|res|e] eqn:Hstep.
    + destruct (IH _ _ Hrun) as [Hnd Hsub]. split; [exact Hnd|].
      intros x Hx. destruct (Hsub x Hx) as [Hin|Hch]; [|by right].
      eapply selected_step_subset; eauto.
    + assert (Hres : res = Some r).
      { destruct events as [|[k'|e'|columns'|] rest];
          try (by inversion Hrun).
        destruct (redraw_raises c s columns'); [discriminate|by inversion Hrun]. }
      subst res. apply exit_result in Hstep. subst r.
      split; [apply NoDup_elements|].
      intros x Hx. left. by apply elem_of_elements.
    + destruct events as [|[k'|e'|columns'|] rest]; try discriminate.
      by apply (IH s r).
  - discriminate.
  - destruct (redraw_raises c s columns); [|by apply IH].
    destruct events as [|[k'|e'|columns'|] rest]; try discriminate.
    by apply (IH s r).
  - by apply IH.
Qed.

Lemma select_multiple_custom_returns_values (choices : list (Z * string))
    (hide : bool) (pd : option (list ProcessInfo)) (ex : option (list string))
    (events : list event) (r : list Z) :
  select_multiple_custom choices None hide pd ex events = Returned (Some r) ->
  NoDup r /\ forall x, x ∈ r -> exists label, (x, label) ∈ choices.
Proof.
  unfold select_multiple_custom.
  destruct (list_truthy choices).
  - simpl.
    destruct (app_run _ events _) as [res|e] eqn:Hrun.
    + intros H. inversion H; subst res.
      destruct (app_run_returns_selected _ _ _ _ Hrun) as [Hnd Hsub].
      split; [exact Hnd|]. intros x Hx.
      destruct (Hsub x Hx) as [Hin|Hch]; [|exact Hch].
      simpl in Hin. by apply elem_of_empty in Hin.
    + destruct e; discriminate.
  - simpl. intros H. inversion H; subst r. split; [constructor|].
    intros x Hx. by apply elem_of_nil in Hx.
Qed.

Lemma make_choices_lookup (w : world) (filtered : list ProcessInfo) (i : nat)
    (v : Z) (label : string) :
  ProcessDisplay.make_choices w filtered !! i = Some (v, label) ->
  v = Z.of_nat i /\ exists proc, filtered !! i = Some proc.
Proof.
  unfold ProcessDisplay.make_choices. rewrite list_lookup_imap.
  destruct (filtered !! i) as [proc|]; [|discriminate].
  simpl. intros H. inversion H; subst. eauto.
Qed.

Lemma NoDup_map_pid_eq (l : list ProcessInfo) (x y : ProcessInfo) :
  NoDup (map pid l) -> In x l -> In y l -> pid x = pid y -> x = y.
Proof.
  induction l as [|a rest IH]; intros Hnd Hx Hy Hpid; [done|].
  simpl in Hnd. apply NoDup_cons in Hnd as [Ha Hnd].
  destruct Hx as [->|Hx], Hy as [->|Hy].
  - reflexivity.
  - exfalso. apply Ha. apply list_elem_of_In, in_map_iff. exists y. by split.
  - exfalso. apply Ha. apply list_elem_of_In, in_map_iff. exists x. by split.
  - by apply IH.
Qed.

(** ** What [select_processes] can mark *)

(** X9. When [select_processes] returns, either it has left the records as
    they were, or it has changed nothing but [selected] flags and every
    record it left selected has a pid other than the tool's own; the pids of
    the caller's records being distinct, such a record passed the pre-filter
    (it is no system process, not excluded, and matches the name filter, for
    the predicates given). *)
Theorem select_processes_marks_only_shown (self : ProcessDisplay.t) (w : world)
    (processes : list ProcessInfo) (nf : option string)
    (sysf exf namef : option (ProcessInfo -> bool)) (tr tr' : list effect)
    (after : list ProcessInfo) :
  ProcessDisplay.select_processes self w processes nf sysf exf namef tr
    = (Ok after, tr') ->
  after = processes
  \/ (length after = length processes
      /\ forall i p p', processes !! i = Some p -> after !! i = Some p' ->
           p' = set_selected (selected p') p
           /\ (selected p' = true ->
               pid p <> os_getpid w
               /\ (NoDup (map pid processes) ->
                   ProcessDisplay.kept (os_getpid w) nf sysf exf namef p = true))).
Proof.
  intros Hcall.
  set (filtered := ProcessDisplay.filtered_processes (os_getpid w) nf sysf exf
                     namef processes) in *.
  destruct (decide (filtered = [])) as [Hnil|Hne].
  { left. unfold ProcessDisplay.select_processes in Hcall.
    destruct (list_truthy processes); cbn [negb] in Hcall;
      [|by inversion Hcall].
    fold filtered in Hcall. rewrite Hnil in Hcall. cbn in Hcall.
    by inversion Hcall. }
  rewrite select_processes_entered in Hcall by exact Hne.
  cbv zeta in Hcall. fold filtered in Hcall.
  destruct (select_multiple_custom _ _ _ _ _ _) as [[indices|]|e] eqn:Hanswer;
    [|left; by inversion Hcall|discriminate].
  destruct (negb (list_truthy indices)); [left; by inversion Hcall|].
  right. inversion Hcall; subst after tr'. clear Hcall.
  split; [apply length_commit|].
  intros i p p' Hp Hp'.
  destruct (commit_lookup filtered indices processes i p Hp) as (b & Hb & Hd).
  rewrite Hb in Hp'. inversion Hp'; subst p'. clear Hp'.
  split; [reflexivity|].
  simpl. intros ->.
  apply existsb_designates in Hd as (idx & q & _ & _ & Hq & Hpid); [|reflexivity].
  apply list_elem_of_lookup_2, list_elem_of_In in Hq.
  unfold filtered, ProcessDisplay.filtered_processes in Hq.
  apply filter_In in Hq as [Hqin Hkept].
  split.
  - unfold ProcessDisplay.kept in Hkept.
    destruct (Z.eqb_spec (pid q) (os_getpid w)); [discriminate|]. congruence.
  - intros Hnd.
    assert (q = p) as <-; [|exact Hkept].
    eapply NoDup_map_pid_eq; eauto.
    by apply list_elem_of_lookup_2, list_elem_of_In in Hp.
Qed.

Lemma select_processes_marks_only_shown_witness :
  exists after trace,
    ProcessDisplay.select_processes (ProcessDisplay.init None)
      (demo_world [Key KeyDown; Key (Char " "); Key KeyEnter])
      [user_process 100 "alpha"; user_process 101 "beta"] None
      (Some is_system_process) None None []
    = (Ok after, trace)
    /\ (after = [user_process 100 "alpha"; user_process 101 "beta"]
        \/ length after = 2%nat).
Proof.
  eexists _, _. split; [vm_compute; reflexivity|].
  destruct (select_processes_marks_only_shown (ProcessDisplay.init None)
              (demo_world [Key KeyDown; Key (Char " "); Key KeyEnter])
              [user_process 100 "alpha"; user_process 101 "beta"] None
              (Some is_system_process) None None [] _ _ eq_refl)
    as [Hsame|[Hlen _]].
  - left. exact Hsame.
  - right. exact Hlen.
Defined.

(** X10. Called as [select_processes] calls it (choices numbered by
    position over the pre-filtered records, no default values), the engine
    answers, whatever the user types, only with indices of pre-filtered
    records, each at most once: the range test of the commit never fails. *)
Theorem pipeline_indices_in_range (w : world) (filtered : list ProcessInfo)
    (hide : bool) (ex : option (list string)) (events : list event)
    (indices : list Z) :
  select_multiple_custom (ProcessDisplay.make_choices w filtered) None hide
    (Some filtered) ex events = Returned (Some indices) ->
  NoDup indices
  /\ forall idx, idx ∈ indices ->
       0 <= idx < len filtered
       /\ exists proc, filtered !! Z.to_nat idx = Some proc.
Proof.
  intros Hanswer.
  destruct (select_multiple_custom_returns_values _ _ _ _ _ _ Hanswer)
    as [Hnd Hvalues].
  split; [exact Hnd|].
  intros idx Hidx. destruct (Hvalues idx Hidx) as [label Hin].
  apply list_elem_of_lookup_1 in Hin as [i Hi].
  apply make_choices_lookup in Hi as [-> [proc Hproc]].
  pose proof (lookup_lt_Some _ _ _ Hproc).
  rewrite Nat2Z.id. split; [unfold len; lia|eauto].
Qed.

Lemma pipeline_indices_in_range_witness :
  NoDup [1]
  /\ forall idx, idx ∈ [1] ->
       0 <= idx < len [user_process 100 "alpha"; user_process 101 "beta"]
       /\ exists proc,
            [user_process 100 "alpha"; user_process 101 "beta"] !! Z.to_nat idx
            = Some proc.
Proof.
  apply (pipeline_indices_in_range
           (demo_world []) [user_process 100 "alpha"; user_process 101 "beta"]
           true None [Key KeyDown; Key (Char " "); Key KeyEnter] [1]).
  vm_compute. reflexivity.
Defined.

(** X11. [select_processes] opens the selection engine only when the
    pre-filter leaves a record: with nothing left it returns the records as
    they were without a [SelectMultiple] effect, silently when the list was
    empty and after the line "No processes to display." otherwise. When the
    engine answers with an empty list (Enter with nothing checked) the
    records, whatever their flags were, are left as they were. *)
Theorem select_processes_without_selection (self : ProcessDisplay.t) (w : world)
    (processes : list ProcessInfo) (nf : option string)
    (sysf exf namef : option (ProcessInfo -> bool)) (tr : list effect) :
  let filtered :=
    ProcessDisplay.filtered_processes (os_getpid w) nf sysf exf namef processes in
  let choices := ProcessDisplay.make_choices w filtered in
  (filtered = [] ->
   ProcessDisplay.select_processes self w processes nf sysf exf namef tr
   = (Ok processes,
      tr ++ if list_truthy processes then [Print MsgNoProcessesToDisplay] else []))
  /\ (filtered <> [] ->
      select_multiple_custom choices None true (Some filtered)
        (Some (ProcessDisplay.exclude_list self))
        (ui_events w (tr ++ [SelectMultiple choices])) = Returned (Some []) ->
      ProcessDisplay.select_processes self w processes nf sysf exf namef tr
      = (Ok processes,
         tr ++ [SelectMultiple choices; Print MsgNoProcessesSelected])).
Proof.
  intros filtered choices. split.
  - intros Hnil. unfold ProcessDisplay.select_processes.
    destruct (list_truthy processes); cbn [negb].
    + fold filtered. rewrite Hnil. reflexivity.
    + unfold mret, M_ret. by rewrite app_nil_r.
  - intros Hne Hanswer.
    rewrite select_processes_entered by exact Hne.
    cbv zeta. fold filtered choices. rewrite Hanswer. reflexivity.
Qed.

Lemma select_processes_without_selection_witness :
  ProcessDisplay.select_processes (ProcessDisplay.init None)
    (demo_world [Key KeyEnter])
    [set_selected true (user_process 100 "alpha")] None
    (Some is_system_process) None None []
  = (Ok [set_selected true (user_process 100 "alpha")],
     [] ++ [SelectMultiple
              (ProcessDisplay.make_choices (demo_world [Key KeyEnter])
                 (ProcessDisplay.filtered_processes
                    (os_getpid (demo_world [Key KeyEnter])) None
                    (Some is_system_process) None None
                    [set_selected true (user_process 100 "alpha")]));
            Print MsgNoProcessesSelected]).
Proof.
  refine (proj2 (select_processes_without_selection (ProcessDisplay.init None)
                   (demo_world [Key KeyEnter])
                   [set_selected true (user_process 100 "alpha")] None
                   (Some is_system_process) None None []) _ _).
  - vm_compute. discriminate.
  - vm_compute. reflexivity.
Defined.

(* ===================================================================== *)
(** ** The termination step *)
(* ===================================================================== *)

(** What the user is asked and what is signalled, in order: the trace
    without its prints and sleeps. *)
Inductive act :=
| Asked (question : string)
| Killed (pid : Z) (sig : signal).

Definition act_of (e : effect) : list act :=
  match e with
  | AskYesNo question => [Asked question]
  | OsKill p sig => [Killed p sig]
  | _ => []
  end.

Definition acts (tr : list effect) : list act := flat_map act_of tr.

Definition signalled (sig : signal) (l : list ProcessInfo) : list act :=
  map (fun proc => Killed (pid proc) sig) l.

Lemma acts_app (a b : list effect) : acts (a ++ b) = acts a ++ acts b.
Proof. apply flat_map_app. Qed.

Lemma acts_prints {A} (f : A -> message) (l : list A) :
  acts (map (fun x => Print (f x)) l) = [].
Proof. induction l as [|x rest IH]; [reflexivity|exact IH]. Qed.

Lemma for_each_print {A} (f : A -> message) (l : list A) (tr : list effect) :
  for_each l (fun x => print (f x)) tr
  = (Ok tt, tr ++ map (fun x => Print (f x)) l).
Proof.
  revert tr. induction l as [|x rest IH]; intros tr; simpl.
  - unfold mret, M_ret. by rewrite app_nil_r.
  - unfold mbind, M_bind, print, emit. rewrite IH. by rewrite <- app_assoc.
Qed.

(** The answer of [select_yes_no] and the one effect it adds. *)
Lemma select_yes_no_run (w : world) (question : string) (tr : list effect) :
  select_yes_no w question tr
  = (match yes_no_reply w (tr ++ [AskYesNo question]) with
     | Answered None => Err CancelledError
     | Answered (Some b) => Ok (Some b)
     | AskInterrupted => Err KeyboardInterrupt
     | AskFailed => Ok None
     end, tr ++ [AskYesNo question]).
Proof.
  unfold select_yes_no, mbind, M_bind, emit, observe. cbn beta iota.
  by destruct (yes_no_reply w (tr ++ [AskYesNo question])) as [[b|]| |].
Qed.

(** Running a bind, a loop and a handler once the parts are known. *)
Lemma bind_ok {A B} (m : M A) (f : A -> M B) (tr tr' : list effect) (a : A) :
  m tr = (Ok a, tr') -> (m ≫= f) tr = f a tr'.
Proof. intros H. unfold mbind, M_bind. by rewrite H. Qed.

Lemma bind_err {A B} (m : M A) (f : A -> M B) (tr tr' : list effect) (e : exn) :
  m tr = (Err e, tr') -> (m ≫= f) tr = (Err e, tr').
Proof. intros H. unfold mbind, M_bind. by rewrite H. Qed.

Lemma try_except_ok {A} (m : M A) (h : exn -> M A) (tr tr' : list effect) (a : A) :
  m tr = (Ok a, tr') -> try_except m h tr = (Ok a, tr').
Proof. intros H. unfold try_except. by rewrite H. Qed.

Lemma try_except_err {A} (m : M A) (h : exn -> M A) (tr tr' : list effect)
    (e : exn) :
  m tr = (Err e, tr') -> try_except m h tr = h e tr'.
Proof. intros H. unfold try_except. by rewrite H. Qed.

Lemma for_collect_run {A} (body : A -> M bool) (keep : list effect -> A -> bool)
    (out : list effect -> A -> list effect) (g : A -> list act) :
  (forall x tr, body x tr = (Ok (keep tr x), tr ++ out tr x)) ->
  (forall x tr, acts (out tr x) = g x) ->
  forall l tr, exists kept added,
    for_collect l body tr = (Ok kept, tr ++ added)
    /\ sublist kept l
    /\ Forall (fun x => exists t, keep t x = true) kept
    /\ (Forall (fun x => forall t, keep t x = false) l -> kept = [])
    /\ acts added = flat_map g l.
Proof.
  intros Hbody Hacts. induction l as [|x rest IH]; intros tr.
  - exists [], []. simpl. unfold mret, M_ret. rewrite app_nil_r.
    repeat split; constructor.
  - cbn [for_collect].
    rewrite (bind_ok _ _ _ _ _ (Hbody x tr)).
    destruct (IH (tr ++ out tr x)) as (kept & added & Hrun & Hsub & Hkeep & Hnone & Ha).
    rewrite (bind_ok _ _ _ _ _ Hrun).
    exists (if keep tr x then x :: kept else kept), (out tr x ++ added).
    unfold mret, M_ret. split; [by rewrite <- app_assoc|].
    split.
    { destruct (keep tr x); [by apply sublist_skip|by apply sublist_cons]. }
    split.
    { destruct (keep tr x) eqn:Hk; [|exact Hkeep].
      constructor; [by exists tr|exact Hkeep]. }
    split.
    { intros Hall. apply Forall_cons in Hall as [Hx Hrest].
      rewrite (Hx tr). by apply Hnone. }
    rewrite acts_app, Ha, Hacts. reflexivity.
Qed.

Lemma for_each_run {A} (body : A -> M unit) (out : list effect -> A -> list effect)
    (g : A -> list act) :
  (forall x tr, body x tr = (Ok tt, tr ++ out tr x)) ->
  (forall x tr, acts (out tr x) = g x) ->
  forall l tr, exists added,
    for_each l body tr = (Ok tt, tr ++ added) /\ acts added = flat_map g l.
Proof.
  intros Hbody Hacts. induction l as [|x rest IH]; intros tr.
  - exists []. simpl. unfold mret, M_ret. by rewrite app_nil_r.
  - cbn [for_each].
    rewrite (bind_ok _ _ _ _ _ (Hbody x tr)).
    destruct (IH (tr ++ out tr x)) as (added & Hrun & Ha).
    exists (out tr x ++ added). rewrite Hrun.
    split; [by rewrite <- app_assoc|].
    rewrite acts_app, Ha, Hacts. reflexivity.
Qed.

Lemma flat_map_singleton {A B} (f : A -> B) (l : list A) :
  flat_map (fun x => [f x]) l = map f l.
Proof. induction l as [|x rest IH]; simpl; by rewrite ?IH. Qed.

Lemma os_kill_run (w : world) (p : Z) (sig : signal) (tr : list effect) :
  ProcessTerminator.os_kill w p sig tr
  = (Ok (os_kill_raises w tr p sig), tr ++ [OsKill p sig]).
Proof. reflexivity. Qed.

(** Step 1 signals every given process once, in order, whether or not a
    send fails, and keeps those whose send did not fail. *)
Lemma send_sigterm_run (w : world) (l : list ProcessInfo) :
  forall tr, exists sent added,
    ProcessTerminator.send_sigterm w l tr = (Ok sent, tr ++ added)
    /\ sublist sent l
    /\ Forall (fun proc => exists t, os_kill_raises w t (pid proc) SIGTERM = false)
         sent
    /\ acts added = signalled SIGTERM l.
Proof.
  intros tr. unfold ProcessTerminator.send_sigterm.
  destruct (for_collect_run
    (fun proc =>
       raised ← ProcessTerminator.os_kill w (pid proc) SIGTERM;
       if raised : bool
       then print (MsgSignalFailed (ProcessTerminator.shown_command proc) (pid proc))
            ;; mret false
       else print (MsgSignalSent (ProcessTerminator.shown_command proc) (pid proc))
            ;; mret true)
    (fun t proc => negb (os_kill_raises w t (pid proc) SIGTERM))
    (fun t proc =>
       [OsKill (pid proc) SIGTERM;
        Print (if os_kill_raises w t (pid proc) SIGTERM
               then MsgSignalFailed (ProcessTerminator.shown_command proc) (pid proc)
               else MsgSignalSent (ProcessTerminator.shown_command proc) (pid proc))])
    (fun proc => [Killed (pid proc) SIGTERM])) with (l := l) (tr := tr)
    as (sent & added & Hrun & Hsub & Hkeep & _ & Hacts).
  { intros x t. rewrite (bind_ok _ _ _ _ _ (os_kill_run w (pid x) SIGTERM t)).
    destruct (os_kill_raises w t (pid x) SIGTERM);
      unfold mbind, M_bind, print, emit, mret, M_ret; cbn beta iota;
      by rewrite <- app_assoc. }
  { intros x t. by destruct (os_kill_raises w t (pid x) SIGTERM). }
  exists sent, added. split; [exact Hrun|]. split; [exact Hsub|]. split.
  - eapply Forall_impl; [exact Hkeep|]. intros proc [t Ht]. exists t.
    by destruct (os_kill_raises w t (pid proc) SIGTERM).
  - rewrite Hacts. apply flat_map_singleton.
Qed.

(** Step 2 probes every given process once, in order, and keeps those
    whose probe did not fail. *)
Lemma probe_running_run (w : world) (l : list ProcessInfo) :
  forall tr, exists still added,
    ProcessTerminator.probe_running w l tr = (Ok still, tr ++ added)
    /\ sublist still l
    /\ (Forall (fun proc => forall t, os_kill_raises w t (pid proc) SIG0 = true) l ->
        still = [])
    /\ acts added = signalled SIG0 l.
Proof.
  intros tr. unfold ProcessTerminator.probe_running.
  destruct (for_collect_run
    (fun proc =>
       raised ← ProcessTerminator.os_kill w (pid proc) SIG0;
       if raised : bool
       then print (MsgTerminatedNormally (ProcessTerminator.shown_command proc)
                     (pid proc)) ;; mret false
       else mret true)
    (fun t proc => negb (os_kill_raises w t (pid proc) SIG0))
    (fun t proc =>
       OsKill (pid proc) SIG0 ::
       if os_kill_raises w t (pid proc) SIG0
       then [Print (MsgTerminatedNormally (ProcessTerminator.shown_command proc)
                      (pid proc))]
       else [])
    (fun proc => [Killed (pid proc) SIG0])) with (l := l) (tr := tr)
    as (still & added & Hrun & Hsub & _ & Hnone & Hacts).
  { intros x t. rewrite (bind_ok _ _ _ _ _ (os_kill_run w (pid x) SIG0 t)).
    destruct (os_kill_raises w t (pid x) SIG0);
      unfold mbind, M_bind, print, emit, mret, M_ret; cbn beta iota;
      by rewrite <- ?app_assoc. }
  { intros x t. by destruct (os_kill_raises w t (pid x) SIG0). }
  exists still, added. split; [exact Hrun|]. split; [exact Hsub|]. split.
  - intros Hall. apply Hnone.
    eapply Forall_impl; [exact Hall|]. intros proc Hp t. by rewrite Hp.
  - rewrite Hacts. apply flat_map_singleton.
Qed.

Lemma print_run (m : message) (tr : list effect) :
  print m tr = (Ok tt, tr ++ [Print m]).
Proof. reflexivity. Qed.

Lemma emit_run (e : effect) (tr : list effect) : emit e tr = (Ok tt, tr ++ [e]).
Proof. reflexivity. Qed.

(** Step 3: one question; on a yes one SIGKILL per process still running,
    in order, then one probe per process; otherwise nothing. It never
    raises. *)
(** What step 3 prints before its question. *)
Definition force_header (still : list ProcessInfo) : list effect :=
  Print (MsgStillRunningCount (length still))
  :: map (fun proc => Print (MsgBullet (ProcessTerminator.shown_command proc)
                               (pid proc))) still.

Lemma force_terminate_run (w : world) (still : list ProcessInfo)
    (tr : list effect) :
  let asked_at :=
    tr ++ force_header still ++ [AskYesNo "Attempt force termination (SIGKILL)?"] in
  exists added,
    ProcessTerminator.force_terminate w still tr = (Ok tt, tr ++ added)
    /\ ((yes_no_reply w asked_at = Answered (Some true)
         /\ acts added
            = Asked "Attempt force termination (SIGKILL)?"
              :: signalled SIGKILL still ++ signalled SIG0 still)
        \/ (yes_no_reply w asked_at <> Answered (Some true)
            /\ acts added = [Asked "Attempt force termination (SIGKILL)?"])).
Proof.
  intros asked_at.
  unfold ProcessTerminator.force_terminate.
  rewrite (bind_ok _ _ _ _ _ (print_run _ tr)).
  rewrite (bind_ok _ _ _ _ _ (for_each_print _ still _)).
  set (bullets := map (fun x => Print (MsgBullet (ProcessTerminator.shown_command x)
                                         (pid x))) still).
  set (t1 := (tr ++ [Print (MsgStillRunningCount (length still))]) ++ bullets).
  set (question := "Attempt force termination (SIGKILL)?"%string) in *.
  assert (Hasked : asked_at = t1 ++ [AskYesNo question]).
  { unfold asked_at, t1, force_header, bullets. by rewrite <- !app_assoc. }
  rewrite Hasked. clear Hasked asked_at.
  assert (Hacts : forall rest : list effect,
            acts ([Print (MsgStillRunningCount (length still))] ++ bullets
                  ++ [AskYesNo question] ++ rest)
            = Asked question :: acts rest).
  { intros rest. rewrite !acts_app. unfold bullets. by rewrite acts_prints. }
  pose proof (select_yes_no_run w question t1) as Hask.
  destruct (yes_no_reply w (t1 ++ [AskYesNo question])) as [[[|]|]| |] eqn:Hreply.
  - (* yes *)
    destruct (for_each_run
      (fun proc =>
         raised ← ProcessTerminator.os_kill w (pid proc) SIGKILL;
         if raised : bool
         then print (MsgForceFailed (ProcessTerminator.shown_command proc) (pid proc))
         else print (MsgForceSent (ProcessTerminator.shown_command proc) (pid proc))
              ;; emit (Sleep 100))
      (fun t proc =>
         OsKill (pid proc) SIGKILL ::
         if os_kill_raises w t (pid proc) SIGKILL
         then [Print (MsgForceFailed (ProcessTerminator.shown_command proc)
                        (pid proc))]
         else [Print (MsgForceSent (ProcessTerminator.shown_command proc) (pid proc));
               Sleep 100])
      (fun proc => [Killed (pid proc) SIGKILL])) with (l := still)
      (tr := t1 ++ [AskYesNo question]) as (killed & Hkill & Hkacts).
    { intros x t. rewrite (bind_ok _ _ _ _ _ (os_kill_run w (pid x) SIGKILL t)).
      destruct (os_kill_raises w t (pid x) SIGKILL);
        unfold mbind, M_bind, print, emit; cbn beta iota;
        by rewrite <- ?app_assoc. }
    { intros x t. by destruct (os_kill_raises w t (pid x) SIGKILL). }
    destruct (for_each_run
      (fun proc =>
         raised ← ProcessTerminator.os_kill w (pid proc) SIG0;
         if raised : bool
         then print (MsgForceTerminated (ProcessTerminator.shown_command proc)
                       (pid proc))
         else print (MsgStillRunning (ProcessTerminator.shown_command proc)
                       (pid proc)))
      (fun t proc =>
         [OsKill (pid proc) SIG0;
          Print (if os_kill_raises w t (pid proc) SIG0
                 then MsgForceTerminated (ProcessTerminator.shown_command proc)
                        (pid proc)
                 else MsgStillRunning (ProcessTerminator.shown_command proc)
                        (pid proc))])
      (fun proc => [Killed (pid proc) SIG0])) with (l := still)
      (tr := (((t1 ++ [AskYesNo question]) ++ killed) ++ [Sleep 1000])
             ++ [Print MsgVerifyingForce]) as (probed & Hprobe & Hpacts).
    { intros x t. rewrite (bind_ok _ _ _ _ _ (os_kill_run w (pid x) SIG0 t)).
      destruct (os_kill_raises w t (pid x) SIG0);
        unfold print, emit; by rewrite <- ?app_assoc. }
    { intros x t. by destruct (os_kill_raises w t (pid x) SIG0). }
    exists ([Print (MsgStillRunningCount (length still))] ++ bullets
            ++ [AskYesNo question]
            ++ (killed ++ [Sleep 1000; Print MsgVerifyingForce] ++ probed)).
    split.
    + erewrite try_except_ok.
      2:{ rewrite (bind_ok _ _ _ _ _ Hask).
          change (default false (Some true)) with true. cbn iota.
          rewrite (bind_ok _ _ _ _ _ Hkill).
          rewrite (bind_ok _ _ _ _ _ (emit_run _ _)).
          rewrite (bind_ok _ _ _ _ _ (print_run _ _)).
          exact Hprobe. }
      unfold t1. by rewrite <- !app_assoc.
    + left. split; [reflexivity|].
      rewrite Hacts, !acts_app, Hkacts, Hpacts, !flat_map_singleton.
      reflexivity.
  - (* no *)
    exists ([Print (MsgStillRunningCount (length still))] ++ bullets
            ++ [AskYesNo question] ++ []).
    split.
    + erewrite try_except_ok.
      2:{ rewrite (bind_ok _ _ _ _ _ Hask). reflexivity. }
      unfold t1. by rewrite <- !app_assoc.
    + right. split; [discriminate|]. rewrite Hacts. reflexivity.
  - (* escape *)
    exists ([Print (MsgStillRunningCount (length still))] ++ bullets
            ++ [AskYesNo question] ++ [Print (MsgOperationCancelled true)]).
    split.
    + erewrite try_except_err.
      2:{ rewrite (bind_err _ _ _ _ _ Hask). reflexivity. }
      cbn beta iota. unfold print, emit, t1. by rewrite <- !app_assoc.
    + right. split; [discriminate|]. rewrite Hacts. reflexivity.
  - (* interrupt *)
    exists ([Print (MsgStillRunningCount (length still))] ++ bullets
            ++ [AskYesNo question] ++ [Print (MsgOperationCancelled true)]).
    split.
    + erewrite try_except_err.
      2:{ rewrite (bind_err _ _ _ _ _ Hask). reflexivity. }
      cbn beta iota. unfold print, emit, t1. by rewrite <- !app_assoc.
    + right. split; [discriminate|]. rewrite Hacts. reflexivity.
  - (* no terminal *)
    exists ([Print (MsgStillRunningCount (length still))] ++ bullets
            ++ [AskYesNo question] ++ []).
    split.
    + erewrite try_except_ok.
      2:{ rewrite (bind_ok _ _ _ _ _ Hask). reflexivity. }
      unfold t1. by rewrite <- !app_assoc.
    + right. split; [discriminate|]. rewrite Hacts. reflexivity.
Qed.

(** The lines printed before the first question. *)
Definition kill_header (selected : list ProcessInfo) : list effect :=
  Print (MsgTerminateCount (length selected))
  :: map (fun proc => Print (MsgBullet (ProcessTerminator.shown_command proc)
                               (pid proc))) selected.

Lemma acts_kill_header (selected : list ProcessInfo) :
  acts (kill_header selected) = [].
Proof.
  unfold kill_header.
  change (acts (Print (MsgTerminateCount (length selected)) :: ?l)) with (acts l).
  apply acts_prints.
Qed.

(** The whole termination step on a non-empty selection: it never raises;
    what it asks and signals is fixed by the two answers and by which sends
    and probes fail. *)
Lemma kill_selected_processes_run (w : world) (processes : list ProcessInfo)
    (tr : list effect) :
  let selected := List.filter selected processes in
  let reply := yes_no_reply w (tr ++ kill_header selected ++ [AskYesNo "Continue?"]) in
  selected <> [] ->
  exists added sent still,
    ProcessTerminator.kill_selected_processes w processes tr = (Ok tt, tr ++ added)
    /\ sublist sent selected
    /\ sublist still sent
    /\ Forall (fun proc => exists t, os_kill_raises w t (pid proc) SIGTERM = false)
         sent
    /\ (Forall (fun proc => forall t, os_kill_raises w t (pid proc) SIG0 = true)
          selected -> still = [])
    /\ ((reply <> Answered (Some true)
         /\ added = kill_header selected
                    ++ [AskYesNo "Continue?";
                        Print (MsgOperationCancelled
                                 match reply with
                                 | Answered None | AskInterrupted => true
                                 | _ => false
                                 end)])
        \/ (reply = Answered (Some true)
            /\ ((still = []
                 /\ acts added
                    = Asked "Continue?"
                      :: signalled SIGTERM selected ++ signalled SIG0 sent)
                \/ (still <> []
                    /\ exists asked_at,
                         (yes_no_reply w asked_at = Answered (Some true)
                          /\ acts added
                             = Asked "Continue?"
                               :: signalled SIGTERM selected ++ signalled SIG0 sent
                               ++ Asked "Attempt force termination (SIGKILL)?"
                               :: signalled SIGKILL still ++ signalled SIG0 still)
                         \/ (yes_no_reply w asked_at <> Answered (Some true)
                             /\ acts added
                                = Asked "Continue?"
                                  :: signalled SIGTERM selected
                                  ++ signalled SIG0 sent
                                  ++ [Asked "Attempt force termination (SIGKILL)?"]))))).
Proof.
  intros selected reply Hne.
  unfold ProcessTerminator.kill_selected_processes. fold selected.
  assert (Htruthy : list_truthy selected = true) by (by destruct selected).
  rewrite Htruthy. cbn [negb].
  rewrite (bind_ok _ _ _ _ _ (print_run _ tr)).
  rewrite (bind_ok _ _ _ _ _ (for_each_print _ selected _)).
  set (t1 := (tr ++ [Print (MsgTerminateCount (length selected))])
             ++ map (fun x => Print (MsgBullet (ProcessTerminator.shown_command x)
                                       (pid x))) selected).
  assert (Ht1 : t1 = tr ++ kill_header selected).
  { unfold t1, kill_header. by rewrite <- app_assoc. }
  pose proof (select_yes_no_run w "Continue?" t1) as Hask.
  assert (Hreply : yes_no_reply w (t1 ++ [AskYesNo "Continue?"]) = reply).
  { unfold reply. by rewrite Ht1, <- app_assoc. }
  rewrite Hreply in Hask.
  match goal with
  | |- ?G =>
      assert (Hdecline : forall b,
        try_except
          (answer ← select_yes_no w "Continue?";
           if negb (default false answer)
           then print (MsgOperationCancelled false) ;; mret false
           else mret true)
          (fun e =>
             match e with
             | KeyboardInterrupt | CancelledError =>
                 print (MsgOperationCancelled true) ;; mret false
             | _ => raise e
             end) t1
        = (Ok false,
           (t1 ++ [AskYesNo "Continue?"]) ++ [Print (MsgOperationCancelled b)]) ->
        reply <> Answered (Some true) ->
        b = match reply with
            | Answered None | AskInterrupted => true
            | _ => false
            end ->
        G)
  end.
  { intros b Hrun Hno Hb.
    exists (kill_header selected
            ++ [AskYesNo "Continue?"; Print (MsgOperationCancelled b)]), [], [].
    rewrite (bind_ok _ _ _ _ _ Hrun). cbn [negb].
    split; [unfold mret, M_ret; rewrite Ht1; by rewrite <- !app_assoc|].
    split; [apply sublist_nil_l|]. split; [constructor|]. split; [constructor|].
    split; [reflexivity|]. left. split; [exact Hno|]. by rewrite Hb. }
  destruct reply as [[[|]|]| |] eqn:Hr.
  - (* yes *)
    clear Hdecline.
    erewrite bind_ok.
    2:{ apply try_except_ok. rewrite (bind_ok _ _ _ _ _ Hask). reflexivity. }
    cbn [negb].
    rewrite (bind_ok _ _ _ _ _ (print_run _ _)).
    destruct (send_sigterm_run w selected
                ((t1 ++ [AskYesNo "Continue?"]) ++ [Print MsgSendingSignals]))
      as (sent & a1 & Hsend & Hsub1 & Hsent & Hacts1).
    rewrite (bind_ok _ _ _ _ _ Hsend).
    destruct (list_truthy sent) eqn:Hst; cbn [negb]; cycle 1.
    { (* every send failed *)
      assert (sent = []) as -> by (by destruct sent).
      exists (kill_header selected ++ [AskYesNo "Continue?"; Print MsgSendingSignals]
              ++ a1), [], [].
      unfold mret, M_ret.
      split; [rewrite Ht1; by rewrite <- !app_assoc|].
      split; [apply sublist_nil_l|]. split; [constructor|].
      split; [constructor|]. split; [reflexivity|].
      right. split; [reflexivity|]. left. split; [reflexivity|].
      rewrite !acts_app, acts_kill_header, Hacts1.
      simpl. by rewrite app_nil_r. }
    rewrite (bind_ok _ _ _ _ _ (print_run _ _)).
    rewrite (bind_ok _ _ _ _ _ (emit_run _ _)).
    match goal with
    | |- context [(ProcessTerminator.probe_running w sent ≫= _) ?t] =>
        destruct (probe_running_run w sent t)
          as (still & a2 & Hprobe & Hsub2 & Hgone & Hacts2)
    end.
    rewrite (bind_ok _ _ _ _ _ Hprobe).
    assert (Hgone' : Forall (fun proc => forall t,
                               os_kill_raises w t (pid proc) SIG0 = true) selected ->
                     still = []).
    { intros Hall. apply Hgone.
      apply Forall_forall. intros proc Hin.
      rewrite Forall_forall in Hall. apply Hall.
      eapply elem_of_sublist; [exact Hin|exact Hsub1]. }
    assert (Hprefix : acts (kill_header selected
                            ++ [AskYesNo "Continue?"; Print MsgSendingSignals]
                            ++ a1 ++ [Print MsgVerifying; Sleep 2000] ++ a2)
                      = Asked "Continue?"
                        :: signalled SIGTERM selected ++ signalled SIG0 sent).
    { rewrite !acts_app, acts_kill_header, Hacts1, Hacts2. reflexivity. }
    destruct (list_truthy still) eqn:Hsl; cycle 1.
    { assert (still = []) as -> by (by destruct still).
      exists (kill_header selected
              ++ [AskYesNo "Continue?"; Print MsgSendingSignals]
              ++ a1 ++ [Print MsgVerifying; Sleep 2000] ++ a2), sent, [].
      unfold mret, M_ret.
      split; [rewrite Ht1; by rewrite <- !app_assoc|].
      split; [exact Hsub1|]. split; [apply sublist_nil_l|].
      split; [exact Hsent|]. split; [reflexivity|].
      right. split; [reflexivity|]. left. split; [reflexivity|exact Hprefix]. }
    assert (Hsne : still <> []) by (intros ->; discriminate).
    match goal with
    | |- context [ProcessTerminator.force_terminate w still ?t] =>
        destruct (force_terminate_run w still t) as (a3 & Hforce & Hcases);
        set (asked_at := t ++ force_header still
                         ++ [AskYesNo "Attempt force termination (SIGKILL)?"]) in *
    end.
    exists ((kill_header selected
             ++ [AskYesNo "Continue?"; Print MsgSendingSignals]
             ++ a1 ++ [Print MsgVerifying; Sleep 2000] ++ a2) ++ a3), sent, still.
    split; [rewrite Hforce, Ht1; by rewrite <- !app_assoc|].
    split; [exact Hsub1|]. split; [exact Hsub2|].
    split; [exact Hsent|]. split; [exact Hgone'|].
    right. split; [reflexivity|]. right. split; [exact Hsne|].
    exists asked_at. rewrite acts_app, Hprefix.
    destruct Hcases as [[Hyes Ha3]|[Hno Ha3]]; [left|right];
      (split; [assumption|]); rewrite Ha3; simpl; by rewrite <- !app_assoc.
  - (* no *)
    apply (Hdecline false); [|discriminate|reflexivity].
    erewrite try_except_ok; [reflexivity|].
    rewrite (bind_ok _ _ _ _ _ Hask). reflexivity.
  - (* escape *)
    apply (Hdecline true); [|discriminate|reflexivity].
    erewrite try_except_err;
      [|rewrite (bind_err _ _ _ _ _ Hask); reflexivity].
    reflexivity.
  - (* interrupt *)
    apply (Hdecline true); [|discriminate|reflexivity].
    erewrite try_except_err;
      [|rewrite (bind_err _ _ _ _ _ Hask); reflexivity].
    reflexivity.
  - (* no terminal *)
    apply (Hdecline false); [|discriminate|reflexivity].
    erewrite try_except_ok; [reflexivity|].
    rewrite (bind_ok _ _ _ _ _ Hask). reflexivity.
Qed.

Lemma elem_of_signalled (p : Z) (sig sig' : signal) (l : list ProcessInfo) :
  Killed p sig ∈ signalled sig' l -> exists proc, proc ∈ l /\ pid proc = p.
Proof.
  unfold signalled. intros Hin.
  apply list_elem_of_fmap in Hin as (proc & Heq & Hproc).
  inversion Heq; subst. eauto.
Qed.

(** The termination step never raises and only adds to the trace; and
    whatever the answers and the failures, every signal it sends (SIGTERM,
    the probe, SIGKILL) goes to the pid of a record of its argument whose
    [selected] flag is set. *)
Lemma kill_signals_selected_only (w : world)
    (processes : list ProcessInfo) (tr : list effect) :
  exists added,
    ProcessTerminator.kill_selected_processes w processes tr = (Ok tt, tr ++ added)
    /\ forall p sig, Killed p sig ∈ acts added ->
         exists proc, proc ∈ processes /\ selected proc = true /\ pid proc = p.
Proof.
  destruct (List.filter selected processes) as [|x0 rest0] eqn:Hsel.
  { exists [Print MsgNoProcessesSelected]. split.
    - unfold ProcessTerminator.kill_selected_processes. by rewrite Hsel.
    - intros p sig Hin. by apply elem_of_nil in Hin. }
  destruct (kill_selected_processes_run w processes tr)
    as (added & sent & still & Hrun & Hsub1 & Hsub2 & _ & _ & Hshape).
  { rewrite Hsel. discriminate. }
  exists added. split; [exact Hrun|].
  assert (Hsel_in : forall proc, proc ∈ List.filter selected processes ->
            proc ∈ processes /\ selected proc = true).
  { intros proc Hin. apply list_elem_of_In, filter_In in Hin as [Hin Hflag].
    split; [by apply list_elem_of_In|exact Hflag]. }
  assert (Hfrom : forall l p sig sig',
            sublist l (List.filter selected processes) ->
            Killed p sig ∈ signalled sig' l ->
            exists proc, proc ∈ processes /\ selected proc = true /\ pid proc = p).
  { intros l p sig sig' Hsub Hin.
    apply elem_of_signalled in Hin as (proc & Hproc & Hpid).
    destruct (Hsel_in proc) as [Hin Hflag]; [by eapply elem_of_sublist|].
    eauto. }
  assert (Hstill : sublist still (List.filter selected processes))
    by (by etrans).
  assert (Hrefl : sublist (List.filter selected processes)
                    (List.filter selected processes)) by reflexivity.
  intros p sig Hin.
  destruct Hshape as [[_ ->]|[_ [[_ Ha]|[_ [asked [[_ Ha]|[_ Ha]]]]]]].
  - rewrite acts_app, acts_kill_header in Hin. simpl in Hin.
    apply elem_of_cons in Hin as [Hin|Hin]; [discriminate|].
    by apply elem_of_nil in Hin.
  - rewrite Ha in Hin.
    apply elem_of_cons in Hin as [Hin|Hin]; [discriminate|].
    apply elem_of_app in Hin as [Hin|Hin]; (eapply Hfrom in Hin; [exact Hin|assumption]).
  - rewrite Ha in Hin.
    apply elem_of_cons in Hin as [Hin|Hin]; [discriminate|].
    apply elem_of_app in Hin as [Hin|Hin]; [eapply Hfrom in Hin; [exact Hin|assumption]|].
    apply elem_of_app in Hin as [Hin|Hin]; [eapply Hfrom in Hin; [exact Hin|assumption]|].
    apply elem_of_cons in Hin as [Hin|Hin]; [discriminate|].
    apply elem_of_app in Hin as [Hin|Hin]; (eapply Hfrom in Hin; [exact Hin|assumption]).
  - rewrite Ha in Hin.
    apply elem_of_cons in Hin as [Hin|Hin]; [discriminate|].
    apply elem_of_app in Hin as [Hin|Hin]; [eapply Hfrom in Hin; [exact Hin|assumption]|].
    apply elem_of_app in Hin as [Hin|Hin]; [eapply Hfrom in Hin; [exact Hin|assumption]|].
    apply elem_of_cons in Hin as [Hin|Hin]; [discriminate|].
    by apply elem_of_nil in Hin.
Qed.

(** Among the effects [added] after the trace [tr], [os.kill(p, sig)] was
    called, and the world's answer at that very moment (the trace up to the
    call) was to raise [OSError], or not, as [raised] says. *)
Definition answered (w : world) (tr added : list effect) (p : Z) (sig : signal)
    (raised : bool) : Prop :=
  exists pre post,
    added = pre ++ OsKill p sig :: post
    /\ os_kill_raises w (tr ++ pre) p sig = raised.

Lemma answered_shift (w : world) (tr before added after : list effect) (p : Z)
    (sig : signal) (raised : bool) :
  answered w (tr ++ before) added p sig raised ->
  answered w tr (before ++ added ++ after) p sig raised.
Proof.
  intros (pre & post & -> & Hanswer).
  exists (before ++ pre), (post ++ after). split.
  - by rewrite <- !app_assoc.
  - by rewrite app_assoc.
Qed.

(** A collecting loop keeps an element exactly when its body answered
    [true] at the moment it ran. *)
Lemma for_collect_moments {A} (body : A -> M bool) (keep : list effect -> A -> bool)
    (out : list effect -> A -> list effect) :
  (forall x tr, body x tr = (Ok (keep tr x), tr ++ out tr x)) ->
  forall l tr, exists kept added,
    for_collect l body tr = (Ok kept, tr ++ added)
    /\ sublist kept l
    /\ (forall x, x ∈ kept ->
          exists pre post, added = pre ++ out (tr ++ pre) x ++ post
                           /\ keep (tr ++ pre) x = true)
    /\ (forall x, x ∈ l -> x ∉ kept ->
          exists pre post, added = pre ++ out (tr ++ pre) x ++ post
                           /\ keep (tr ++ pre) x = false).
Proof.
  intros Hbody. induction l as [|x rest IH]; intros tr.
  - exists [], []. simpl. unfold mret, M_ret. rewrite app_nil_r.
    split; [reflexivity|]. split; [constructor|].
    split; intros y Hy; by apply elem_of_nil in Hy.
  - cbn [for_collect].
    rewrite (bind_ok _ _ _ _ _ (Hbody x tr)).
    destruct (IH (tr ++ out tr x)) as (kept & added & Hrun & Hsub & Hkept & Hdrop).
    rewrite (bind_ok _ _ _ _ _ Hrun).
    exists (if keep tr x then x :: kept else kept), (out tr x ++ added).
    unfold mret, M_ret. split; [by rewrite <- app_assoc|].
    assert (Hlater : forall y (b : bool),
              (exists pre post, added = pre ++ out ((tr ++ out tr x) ++ pre) y ++ post
                                /\ keep ((tr ++ out tr x) ++ pre) y = b) ->
              exists pre post, out tr x ++ added = pre ++ out (tr ++ pre) y ++ post
                               /\ keep (tr ++ pre) y = b).
    { intros y b (pre & post & -> & Hk).
      exists (out tr x ++ pre), post. rewrite !app_assoc in *. by split. }
    assert (Hhere : exists pre post,
              out tr x ++ added = pre ++ out (tr ++ pre) x ++ post
              /\ keep (tr ++ pre) x = keep tr x).
    { exists [], added. rewrite app_nil_r. by split. }
    split.
    { destruct (keep tr x); [by apply sublist_skip|by apply sublist_cons]. }
    split.
    + intros y Hy. destruct (keep tr x) eqn:Hk.
      * apply elem_of_cons in Hy as [->|Hy]; [exact Hhere|].
        by apply Hlater, Hkept.
      * by apply Hlater, Hkept.
    + intros y Hy Hnot. apply elem_of_cons in Hy as [->|Hy].
      * destruct (keep tr x) eqn:Hk; [|exact Hhere].
        exfalso. apply Hnot. by left.
      * apply Hlater, Hdrop; [exact Hy|].
        intros Hin. apply Hnot. destruct (keep tr x); [by right|exact Hin].
Qed.

Lemma send_sigterm_moments (w : world) (l : list ProcessInfo) (tr : list effect) :
  exists sent added,
    ProcessTerminator.send_sigterm w l tr = (Ok sent, tr ++ added)
    /\ sublist sent l
    /\ (forall proc, proc ∈ sent -> answered w tr added (pid proc) SIGTERM false)
    /\ (forall proc, proc ∈ l -> proc ∉ sent ->
          answered w tr added (pid proc) SIGTERM true)
    /\ acts added = signalled SIGTERM l.
Proof.
  destruct (send_sigterm_run w l tr) as (sent0 & added0 & Hrun0 & _ & _ & Hacts).
  unfold ProcessTerminator.send_sigterm in *.
  destruct (for_collect_moments
    (fun proc =>
       raised ← ProcessTerminator.os_kill w (pid proc) SIGTERM;
       if raised : bool
       then print (MsgSignalFailed (ProcessTerminator.shown_command proc) (pid proc))
            ;; mret false
       else print (MsgSignalSent (ProcessTerminator.shown_command proc) (pid proc))
            ;; mret true)
    (fun t proc => negb (os_kill_raises w t (pid proc) SIGTERM))
    (fun t proc =>
       [OsKill (pid proc) SIGTERM;
        Print (if os_kill_raises w t (pid proc) SIGTERM
               then MsgSignalFailed (ProcessTerminator.shown_command proc) (pid proc)
               else MsgSignalSent (ProcessTerminator.shown_command proc) (pid proc))])
    ) with (l := l) (tr := tr)
    as (sent & added & Hrun & Hsub & Hkept & Hdrop).
  { intros x t. rewrite (bind_ok _ _ _ _ _ (os_kill_run w (pid x) SIGTERM t)).
    destruct (os_kill_raises w t (pid x) SIGTERM);
      unfold mbind, M_bind, print, emit, mret, M_ret; cbn beta iota;
      by rewrite <- app_assoc. }
  rewrite Hrun in Hrun0. inversion Hrun0 as [[Hs Ha]].
  apply app_inv_head in Ha. subst sent0 added0.
  exists sent, added. split; [exact Hrun|]. split; [exact Hsub|].
  split; [|split; [|exact Hacts]].
  - intros proc Hin. destruct (Hkept proc Hin) as (pre & post & -> & Hk).
    exists pre, (Print (MsgSignalSent (ProcessTerminator.shown_command proc)
                          (pid proc)) :: post).
    apply negb_true_iff in Hk. rewrite Hk. by split.
  - intros proc Hin Hnot. destruct (Hdrop proc Hin Hnot) as (pre & post & -> & Hk).
    exists pre, (Print (MsgSignalFailed (ProcessTerminator.shown_command proc)
                          (pid proc)) :: post).
    apply negb_false_iff in Hk. rewrite Hk. by split.
Qed.

Lemma probe_running_moments (w : world) (l : list ProcessInfo) (tr : list effect) :
  exists still added,
    ProcessTerminator.probe_running w l tr = (Ok still, tr ++ added)
    /\ sublist still l
    /\ (forall proc, proc ∈ still -> answered w tr added (pid proc) SIG0 false)
    /\ (forall proc, proc ∈ l -> proc ∉ still ->
          answered w tr added (pid proc) SIG0 true)
    /\ acts added = signalled SIG0 l.
Proof.
  destruct (probe_running_run w l tr) as (still0 & added0 & Hrun0 & _ & _ & Hacts).
  unfold ProcessTerminator.probe_running in *.
  destruct (for_collect_moments
    (fun proc =>
       raised ← ProcessTerminator.os_kill w (pid proc) SIG0;
       if raised : bool
       then print (MsgTerminatedNormally (ProcessTerminator.shown_command proc)
                     (pid proc)) ;; mret false
       else mret true)
    (fun t proc => negb (os_kill_raises w t (pid proc) SIG0))
    (fun t proc =>
       OsKill (pid proc) SIG0 ::
       if os_kill_raises w t (pid proc) SIG0
       then [Print (MsgTerminatedNormally (ProcessTerminator.shown_command proc)
                      (pid proc))]
       else [])) with (l := l) (tr := tr)
    as (still & added & Hrun & Hsub & Hkept & Hdrop).
  { intros x t. rewrite (bind_ok _ _ _ _ _ (os_kill_run w (pid x) SIG0 t)).
    destruct (os_kill_raises w t (pid x) SIG0);
      unfold mbind, M_bind, print, emit, mret, M_ret; cbn beta iota;
      by rewrite <- ?app_assoc. }
  rewrite Hrun in Hrun0. inversion Hrun0 as [[Hs Ha]].
  apply app_inv_head in Ha. subst still0 added0.
  exists still, added. split; [exact Hrun|]. split; [exact Hsub|].
  split; [|split; [|exact Hacts]].
  - intros proc Hin. destruct (Hkept proc Hin) as (pre & post & -> & Hk).
    exists pre, post.
    apply negb_true_iff in Hk. rewrite Hk. by split.
  - intros proc Hin Hnot. destruct (Hdrop proc Hin Hnot) as (pre & post & -> & Hk).
    exists pre,
      (Print (MsgTerminatedNormally (ProcessTerminator.shown_command proc)
                (pid proc)) :: post).
    apply negb_false_iff in Hk. rewrite Hk. by split.
Qed.

(** X12. When the answer to "Continue?" is yes, the termination step
    returns normally after two parts. The first part asks "Continue?", sends
    one SIGTERM to every selected process in order (a failed send does not
    stop the batch) and then one probe (signal 0) to every process of
    [sent], in order. [sent] is made of the selected processes whose SIGTERM
    did not raise when it was sent, and of no other: every selected process
    left out of it had its SIGTERM raise. [still] is made of the processes
    of [sent] whose probe did not raise when it was made, and of no other:
    every process of [sent] left out of it had its probe raise. The second
    part is empty when [still] is empty; otherwise it asks "Attempt force
    termination (SIGKILL)?" once, and only when the answer to that question,
    asked after the lines that list [still], is yes does it send one SIGKILL
    to every process of [still] in order, followed by one more probe of
    each. *)
Theorem termination_escalates_in_order (w : world)
    (processes : list ProcessInfo) (tr : list effect) :
  let selected := List.filter selected processes in
  selected <> [] ->
  yes_no_reply w (tr ++ kill_header selected ++ [AskYesNo "Continue?"])
  = Answered (Some true) ->
  exists first rest sent still,
    ProcessTerminator.kill_selected_processes w processes tr
    = (Ok tt, (tr ++ first) ++ rest)
    /\ acts first
       = Asked "Continue?" :: signalled SIGTERM selected ++ signalled SIG0 sent
    /\ sublist sent selected
    /\ sublist still sent
    /\ (forall proc, proc ∈ sent -> answered w tr first (pid proc) SIGTERM false)
    /\ (forall proc, proc ∈ selected -> proc ∉ sent ->
          answered w tr first (pid proc) SIGTERM true)
    /\ (forall proc, proc ∈ still -> answered w tr first (pid proc) SIG0 false)
    /\ (forall proc, proc ∈ sent -> proc ∉ still ->
          answered w tr first (pid proc) SIG0 true)
    /\ acts rest
       = if list_truthy still then
           match yes_no_reply w
                   ((tr ++ first) ++ force_header still
                    ++ [AskYesNo "Attempt force termination (SIGKILL)?"]) with
           | Answered (Some true) =>
               Asked "Attempt force termination (SIGKILL)?"
               :: signalled SIGKILL still ++ signalled SIG0 still
           | _ => [Asked "Attempt force termination (SIGKILL)?"]
           end
         else [].
Proof.
  intros selected Hne Hyes.
  unfold ProcessTerminator.kill_selected_processes. fold selected.
  assert (Htruthy : list_truthy selected = true) by (by destruct selected).
  rewrite Htruthy. cbn [negb].
  rewrite (bind_ok _ _ _ _ _ (print_run _ tr)).
  rewrite (bind_ok _ _ _ _ _ (for_each_print _ selected _)).
  set (t1 := (tr ++ [Print (MsgTerminateCount (length selected))])
             ++ map (fun x => Print (MsgBullet (ProcessTerminator.shown_command x)
                                       (pid x))) selected).
  assert (Ht1 : t1 = tr ++ kill_header selected).
  { unfold t1, kill_header. by rewrite <- app_assoc. }
  pose proof (select_yes_no_run w "Continue?" t1) as Hask.
  assert (Hreply : yes_no_reply w (t1 ++ [AskYesNo "Continue?"])
                   = Answered (Some true)).
  { rewrite <- Hyes. by rewrite Ht1, <- app_assoc. }
  rewrite Hreply in Hask.
  erewrite bind_ok.
  2:{ apply try_except_ok. rewrite (bind_ok _ _ _ _ _ Hask). reflexivity. }
  cbn [negb].
  rewrite (bind_ok _ _ _ _ _ (print_run _ _)).
  set (before1 := kill_header selected
                  ++ [AskYesNo "Continue?"; Print MsgSendingSignals]).
  assert (Hb1 : (t1 ++ [AskYesNo "Continue?"]) ++ [Print MsgSendingSignals]
                = tr ++ before1).
  { unfold before1. rewrite Ht1. by rewrite <- !app_assoc. }
  rewrite Hb1.
  destruct (send_sigterm_moments w selected (tr ++ before1))
    as (sent & a1 & Hsend & Hsub1 & Hsent & Hfailed & Hacts1).
  rewrite (bind_ok _ _ _ _ _ Hsend).
  assert (Hacts_b1 : acts before1 = [Asked "Continue?"]).
  { unfold before1. by rewrite acts_app, acts_kill_header. }
  destruct (list_truthy sent) eqn:Hst; cbn [negb]; cycle 1.
  { (* every send failed *)
    assert (sent = []) as -> by (by destruct sent).
    exists (before1 ++ a1), [], [], [].
    unfold mret, M_ret.
    split; [by rewrite app_nil_r, <- app_assoc|].
    split; [rewrite acts_app, Hacts_b1, Hacts1; simpl; by rewrite app_nil_r|].
    split; [apply sublist_nil_l|]. split; [constructor|].
    split; [intros proc Hin; by apply elem_of_nil in Hin|].
    split.
    { intros proc Hin Hnot.
      rewrite <- (app_nil_r a1). by apply answered_shift, Hfailed. }
    split; [intros proc Hin; by apply elem_of_nil in Hin|].
    split; [intros proc Hin; by apply elem_of_nil in Hin|].
    reflexivity. }
  rewrite (bind_ok _ _ _ _ _ (print_run _ _)).
  rewrite (bind_ok _ _ _ _ _ (emit_run _ _)).
  set (before2 := before1 ++ a1 ++ [Print MsgVerifying; Sleep 2000]).
  assert (Hb2 : (((tr ++ before1) ++ a1) ++ [Print MsgVerifying]) ++ [Sleep 2000]
                = tr ++ before2).
  { unfold before2. by rewrite <- !app_assoc. }
  rewrite Hb2.
  destruct (probe_running_moments w sent (tr ++ before2))
    as (still & a2 & Hprobe & Hsub2 & Hstill & Hgone & Hacts2).
  rewrite (bind_ok _ _ _ _ _ Hprobe).
  assert (Hfirst : (tr ++ before2) ++ a2 = tr ++ before2 ++ a2)
    by (by rewrite <- app_assoc).
  rewrite Hfirst.
  assert (Hacts_first : acts (before2 ++ a2)
                        = Asked "Continue?"
                          :: signalled SIGTERM selected ++ signalled SIG0 sent).
  { unfold before2. rewrite !acts_app, Hacts_b1, Hacts1, Hacts2.
    change (acts [Print MsgVerifying; Sleep 2000]) with (@nil act).
    by rewrite app_nil_r, <- app_assoc. }
  assert (Hterm : forall p raised,
            answered w (tr ++ before1) a1 p SIGTERM raised ->
            answered w tr (before2 ++ a2) p SIGTERM raised).
  { intros p raised Ha.
    apply (answered_shift w tr before1 a1 ([Print MsgVerifying; Sleep 2000] ++ a2))
      in Ha.
    unfold before2. by rewrite <- !app_assoc. }
  assert (Hprobed : forall p raised,
            answered w (tr ++ before2) a2 p SIG0 raised ->
            answered w tr (before2 ++ a2) p SIG0 raised).
  { intros p raised Ha.
    apply (answered_shift w tr before2 a2 []) in Ha.
    by rewrite app_nil_r in Ha. }
  assert (Hfacts :
    sublist sent selected /\ sublist still sent
    /\ (forall proc, proc ∈ sent ->
          answered w tr (before2 ++ a2) (pid proc) SIGTERM false)
    /\ (forall proc, proc ∈ selected -> proc ∉ sent ->
          answered w tr (before2 ++ a2) (pid proc) SIGTERM true)
    /\ (forall proc, proc ∈ still ->
          answered w tr (before2 ++ a2) (pid proc) SIG0 false)
    /\ (forall proc, proc ∈ sent -> proc ∉ still ->
          answered w tr (before2 ++ a2) (pid proc) SIG0 true)).
  { split; [exact Hsub1|]. split; [exact Hsub2|].
    split; [intros proc Hin; by apply Hterm, Hsent|].
    split; [intros proc Hin Hnot; by apply Hterm, Hfailed|].
    split; [intros proc Hin; by apply Hprobed, Hstill|].
    intros proc Hin Hnot; by apply Hprobed, Hgone. }
  destruct (list_truthy still) eqn:Hsl; cycle 1.
  { exists (before2 ++ a2), [], sent, still.
    unfold mret, M_ret. rewrite Hsl.
    split; [by rewrite app_nil_r|].
    split; [exact Hacts_first|].
    destruct Hfacts as (? & ? & ? & ? & ? & ?). repeat (split; [assumption|]).
    reflexivity. }
  destruct (force_terminate_run w still (tr ++ before2 ++ a2))
    as (a3 & Hforce & Hcases).
  exists (before2 ++ a2), a3, sent, still. rewrite Hsl.
  split; [exact Hforce|].
  split; [exact Hacts_first|].
  destruct Hfacts as (? & ? & ? & ? & ? & ?). repeat (split; [assumption|]).
  destruct Hcases as [[Hy Ha3]|[Hn Ha3]].
  - by rewrite Hy.
  - rewrite Ha3.
    match goal with
    | |- _ = match ?reply with _ => _ end =>
        destruct reply as [[[|]|]| |] eqn:Hreply2; try reflexivity
    end.
    by destruct Hn.
Qed.

(** A world that confirms every question and in which no signal fails and
    every process survives. *)
Definition stubborn_world : world :=
  {| os_getpid := 999;
     ps_records := fun _ => Some [user_process 100 "alpha"; user_process 101 "beta"];
     format_label := fun _ proc => name proc;
     ui_events := fun _ => [Key (Char " "); Key KeyEnter];
     yes_no_reply := fun _ => Answered (Some true);
     os_kill_raises := fun _ _ _ => false |}.

Lemma termination_escalates_in_order_witness :
  exists (first rest : list effect) (sent still : list ProcessInfo),
    ProcessTerminator.kill_selected_processes stubborn_world
      [set_selected true (user_process 100 "alpha"); user_process 101 "beta"] []
    = (Ok tt, ([] ++ first) ++ rest)
    /\ acts first
       = Asked "Continue?"
         :: signalled SIGTERM
              (List.filter selected
                 [set_selected true (user_process 100 "alpha");
                  user_process 101 "beta"])
         ++ signalled SIG0 sent
    /\ (forall proc, proc ∈ sent ->
          answered stubborn_world [] first (pid proc) SIGTERM false)
    /\ (forall proc, proc ∈ still ->
          answered stubborn_world [] first (pid proc) SIG0 false)
    /\ (forall proc, proc ∈ sent -> proc ∉ still ->
          answered stubborn_world [] first (pid proc) SIG0 true).
Proof.
  destruct (termination_escalates_in_order stubborn_world
              [set_selected true (user_process 100 "alpha"); user_process 101 "beta"]
              [] ltac:(discriminate) eq_refl)
    as (first & rest & sent & still & Hrun & Hacts & _ & _ & Hsent & _ & Hstill
        & Hgone & _).
  exists first, rest, sent, still.
  split; [exact Hrun|]. split; [exact Hacts|]. split; [exact Hsent|].
  split; [exact Hstill|exact Hgone].
Defined.

(** The escalation on that world, effect by effect. *)
Example stubborn_process_is_killed_once :
  acts (snd (ProcessTerminator.kill_selected_processes stubborn_world
               [set_selected true (user_process 100 "alpha");
                user_process 101 "beta"] []))
  = [Asked "Continue?"; Killed 100 SIGTERM; Killed 100 SIG0;
     Asked "Attempt force termination (SIGKILL)?";
     Killed 100 SIGKILL; Killed 100 SIG0].
Proof. vm_compute. reflexivity. Qed.

(** A world that confirms every question, in which the SIGTERM to pid 101
    fails, pid 100 is gone when it is probed and pid 102 survives. *)
Definition mixed_world : world :=
  {| os_getpid := 999;
     ps_records := fun _ => Some [];
     format_label := fun _ proc => name proc;
     ui_events := fun _ => [];
     yes_no_reply := fun _ => Answered (Some true);
     os_kill_raises := fun _ p sig =>
       match sig with
       | SIGTERM => p =? 101
       | SIG0 => p =? 100
       | SIGKILL => false
       end |}.

(** There the process whose send failed is not probed, and only the one
    whose probe did not fail is killed. *)
Example failed_send_is_not_probed :
  acts (snd (ProcessTerminator.kill_selected_processes mixed_world
               [set_selected true (user_process 100 "alpha");
                set_selected true (user_process 101 "beta");
                set_selected true (user_process 102 "gamma")] []))
  = [Asked "Continue?";
     Killed 100 SIGTERM; Killed 101 SIGTERM; Killed 102 SIGTERM;
     Killed 100 SIG0; Killed 102 SIG0;
     Asked "Attempt force termination (SIGKILL)?";
     Killed 102 SIGKILL; Killed 102 SIG0].
Proof. vm_compute. reflexivity. Qed.

(** X13. Unless the answer to "Continue?" is yes (a no, Escape, Control-C,
    or no terminal to ask on), the termination step prints that the
    operation is cancelled and returns: no signal is sent and no second
    question is asked. *)
Theorem declined_termination_sends_nothing (w : world)
    (processes : list ProcessInfo) (tr : list effect) :
  let selected := List.filter selected processes in
  let reply := yes_no_reply w (tr ++ kill_header selected ++ [AskYesNo "Continue?"]) in
  selected <> [] ->
  reply <> Answered (Some true) ->
  ProcessTerminator.kill_selected_processes w processes tr
  = (Ok tt,
     tr ++ kill_header selected
        ++ [AskYesNo "Continue?";
            Print (MsgOperationCancelled
                     match reply with
                     | Answered None | AskInterrupted => true
                     | _ => false
                     end)]).
Proof.
  intros selected reply Hne Hno.
  destruct (kill_selected_processes_run w processes tr Hne)
    as (added & sent & still & Hrun & _ & _ & _ & _ & Hshape).
  destruct Hshape as [[_ ->]|[Hyes _]]; [exact Hrun|].
  by destruct Hno.
Qed.

Lemma declined_termination_sends_nothing_witness :
  ProcessTerminator.kill_selected_processes (demo_world [])
    [set_selected true (user_process 100 "alpha")] []
  = (Ok tt,
     [] ++ kill_header [set_selected true (user_process 100 "alpha")]
        ++ [AskYesNo "Continue?"; Print (MsgOperationCancelled false)]).
Proof.
  apply (declined_termination_sends_nothing (demo_world [])
           [set_selected true (user_process 100 "alpha")] []).
  - discriminate.
  - discriminate.
Defined.

(** X14. When every selected process is gone at the probe (the probe of
    each fails), the termination step does not escalate: the second question
    is not asked and no SIGKILL is sent. *)
Theorem no_escalation_when_all_gone (w : world)
    (processes : list ProcessInfo) (tr : list effect) :
  let selected := List.filter selected processes in
  selected <> [] ->
  Forall (fun proc => forall t, os_kill_raises w t (pid proc) SIG0 = true) selected ->
  exists added sent,
    ProcessTerminator.kill_selected_processes w processes tr = (Ok tt, tr ++ added)
    /\ sublist sent selected
    /\ (acts added = [Asked "Continue?"]
        \/ acts added
           = Asked "Continue?" :: signalled SIGTERM selected ++ signalled SIG0 sent).
Proof.
  intros selected Hne Hgone.
  destruct (kill_selected_processes_run w processes tr Hne)
    as (added & sent & still & Hrun & Hsub1 & _ & _ & Hnone & Hshape).
  exists added, sent. split; [exact Hrun|]. split; [exact Hsub1|].
  specialize (Hnone Hgone).
  destruct Hshape as [[_ ->]|[_ [[_ Ha]|[Hsne _]]]].
  - left. by rewrite acts_app, acts_kill_header.
  - right. exact Ha.
  - by destruct Hsne.
Qed.

(** A world that confirms every question and in which every process is gone
    at the first probe. *)
Definition graceful_world : world :=
  {| os_getpid := 999;
     ps_records := fun _ => Some [user_process 100 "alpha"; user_process 101 "beta"];
     format_label := fun _ proc => name proc;
     ui_events := fun _ => [Key (Char " "); Key KeyEnter];
     yes_no_reply := fun _ => Answered (Some true);
     os_kill_raises := fun _ _ sig =>
       match sig with SIG0 => true | _ => false end |}.

Lemma no_escalation_when_all_gone_witness :
  exists added sent,
    ProcessTerminator.kill_selected_processes graceful_world
      [set_selected true (user_process 100 "alpha")] []
    = (Ok tt, [] ++ added)
    /\ sublist sent (List.filter selected
                       [set_selected true (user_process 100 "alpha")]).
Proof.
  destruct (no_escalation_when_all_gone graceful_world
              [set_selected true (user_process 100 "alpha")] []
              ltac:(discriminate)) as (added & sent & Hrun & Hsub & _).
  { repeat constructor. }
  exists added, sent. split; [exact Hrun|exact Hsub].
Defined.

(* ===================================================================== *)
(** ** The controller: what a whole run can do *)
(* ===================================================================== *)

(** [runs_at P Q m tr]: run from the trace [tr], [m] only adds to the
    trace; every question and signal it adds satisfies [P] for the trace
    reached and for every longer one; and a value it returns satisfies [Q]
    for the trace reached. *)
Definition runs_at {A} (P : list effect -> act -> Prop)
    (Q : list effect -> A -> Prop) (m : M A) (tr : list effect) : Prop :=
  exists r added,
    m tr = (r, tr ++ added)
    /\ Forall (fun a => forall ext, P (tr ++ added ++ ext) a) (acts added)
    /\ forall a, r = Ok a -> Q (tr ++ added) a.

(** [returns_at P Q m tr]: moreover no exception leaves [m]. *)
Definition returns_at {A} (P : list effect -> act -> Prop)
    (Q : list effect -> A -> Prop) (m : M A) (tr : list effect) : Prop :=
  exists a added,
    m tr = (Ok a, tr ++ added)
    /\ Forall (fun a => forall ext, P (tr ++ added ++ ext) a) (acts added)
    /\ Q (tr ++ added) a.

Section TraceLogic.

Context {A B : Type} (P : list effect -> act -> Prop).

Lemma returns_runs (Q : list effect -> A -> Prop) (m : M A) (tr : list effect) :
  returns_at P Q m tr -> runs_at P Q m tr.
Proof.
  intros (a & added & Heq & HP & HQ).
  exists (Ok a), added. split; [exact Heq|]. split; [exact HP|].
  intros a' Ha'. by inversion Ha'; subst.
Qed.

Lemma returns_weaken (Q Q' : list effect -> A -> Prop) (m : M A)
    (tr : list effect) :
  (forall t a, Q t a -> Q' t a) -> returns_at P Q m tr -> returns_at P Q' m tr.
Proof.
  intros HQ (a & added & Heq & HP & Ha). exists a, added. eauto.
Qed.

Lemma returns_mret (Q : list effect -> A -> Prop) (a : A) (tr : list effect) :
  Q tr a -> returns_at P Q (mret a) tr.
Proof.
  intros HQ. exists a, []. rewrite app_nil_r.
  split; [reflexivity|]. split; [constructor|exact HQ].
Qed.

Lemma runs_raise (Q : list effect -> A -> Prop) (e : exn) (tr : list effect) :
  runs_at P Q (raise e) tr.
Proof.
  exists (Err e), []. rewrite app_nil_r.
  split; [reflexivity|]. split; [constructor|discriminate].
Qed.

Lemma returns_observe (f : list effect -> A) (tr : list effect) :
  returns_at P (fun t a => t = tr /\ a = f tr) (observe f) tr.
Proof.
  exists (f tr), []. rewrite app_nil_r.
  split; [reflexivity|]. split; [constructor|by split].
Qed.

Lemma runs_bind (Q : list effect -> A -> Prop) (R : list effect -> B -> Prop)
    (m : M A) (f : A -> M B) (tr : list effect) :
  runs_at P Q m tr ->
  (forall a added, Q (tr ++ added) a -> runs_at P R (f a) (tr ++ added)) ->
  runs_at P R (m ≫= f) tr.
Proof.
  intros (r & added & Heq & HP & HQ) Hf. unfold runs_at, mbind, M_bind.
  rewrite Heq. destruct r as [a|e].
  - destruct (Hf a added (HQ a eq_refl)) as (r2 & added2 & Heq2 & HP2 & HQ2).
    exists r2, (added ++ added2). rewrite Heq2, !app_assoc.
    split; [reflexivity|]. split; [|exact HQ2].
    rewrite acts_app. apply Forall_app. split.
    + eapply Forall_impl; [exact HP|]. intros x Hx ext.
      specialize (Hx (added2 ++ ext)). by rewrite !app_assoc in *.
    + eapply Forall_impl; [exact HP2|]. intros x Hx ext.
      specialize (Hx ext). by rewrite !app_assoc in *.
  - exists (Err e), added. split; [reflexivity|]. split; [exact HP|discriminate].
Qed.

Lemma returns_bind (Q : list effect -> A -> Prop) (R : list effect -> B -> Prop)
    (m : M A) (f : A -> M B) (tr : list effect) :
  returns_at P Q m tr ->
  (forall a added, Q (tr ++ added) a -> returns_at P R (f a) (tr ++ added)) ->
  returns_at P R (m ≫= f) tr.
Proof.
  intros (a & added & Heq & HP & HQ) Hf. unfold returns_at, mbind, M_bind.
  rewrite Heq.
  destruct (Hf a added HQ) as (b & added2 & Heq2 & HP2 & HQ2).
  exists b, (added ++ added2). rewrite Heq2, !app_assoc.
  split; [reflexivity|]. split; [|exact HQ2].
  rewrite acts_app. apply Forall_app. split.
  - eapply Forall_impl; [exact HP|]. intros x Hx ext.
    specialize (Hx (added2 ++ ext)). by rewrite !app_assoc in *.
  - eapply Forall_impl; [exact HP2|]. intros x Hx ext.
    specialize (Hx ext). by rewrite !app_assoc in *.
Qed.

Lemma runs_try_except (Q : list effect -> A -> Prop) (m : M A)
    (h : exn -> M A) (tr : list effect) :
  runs_at P Q m tr ->
  (forall e added, runs_at P Q (h e) (tr ++ added)) ->
  runs_at P Q (try_except m h) tr.
Proof.
  intros (r & added & Heq & HP & HQ) Hh. unfold runs_at, try_except.
  rewrite Heq. destruct r as [a|e].
  - exists (Ok a), added. eauto.
  - destruct (Hh e added) as (r2 & added2 & Heq2 & HP2 & HQ2).
    exists r2, (added ++ added2). rewrite Heq2, !app_assoc.
    split; [reflexivity|]. split; [|exact HQ2].
    rewrite acts_app. apply Forall_app. split.
    + eapply Forall_impl; [exact HP|]. intros x Hx ext.
      specialize (Hx (added2 ++ ext)). by rewrite !app_assoc in *.
    + eapply Forall_impl; [exact HP2|]. intros x Hx ext.
      specialize (Hx ext). by rewrite !app_assoc in *.
Qed.

Lemma returns_try_except (Q : list effect -> A -> Prop) (m : M A)
    (h : exn -> M A) (tr : list effect) :
  runs_at P Q m tr ->
  (forall e added, returns_at P Q (h e) (tr ++ added)) ->
  returns_at P Q (try_except m h) tr.
Proof.
  intros (r & added & Heq & HP & HQ) Hh. unfold returns_at, try_except.
  rewrite Heq. destruct r as [a|e].
  - exists a, added. eauto.
  - destruct (Hh e added) as (a & added2 & Heq2 & HP2 & HQ2).
    exists a, (added ++ added2). rewrite Heq2, !app_assoc.
    split; [reflexivity|]. split; [|exact HQ2].
    rewrite acts_app. apply Forall_app. split.
    + eapply Forall_impl; [exact HP|]. intros x Hx ext.
      specialize (Hx (added2 ++ ext)). by rewrite !app_assoc in *.
    + eapply Forall_impl; [exact HP2|]. intros x Hx ext.
      specialize (Hx ext). by rewrite !app_assoc in *.
Qed.

End TraceLogic.

Lemma returns_emit (P : list effect -> act -> Prop) (e : effect)
    (tr : list effect) :
  act_of e = [] -> returns_at P (fun t _ => t = tr ++ [e]) (emit e) tr.
Proof.
  intros He. exists tt, [e]. split; [reflexivity|]. split; [|reflexivity].
  unfold acts. simpl. rewrite He. constructor.
Qed.

Lemma returns_print (P : list effect -> act -> Prop) (m : message)
    (tr : list effect) :
  returns_at P (fun t _ => t = tr ++ [Print m]) (print m) tr.
Proof. by apply returns_emit. Qed.

(** The termination step as a statement of this logic. *)
Lemma kill_selected_processes_returns (w : world) (processes : list ProcessInfo)
    (P : list effect -> act -> Prop) (tr : list effect) :
  (forall question t, P t (Asked question)) ->
  (forall proc sig ext, proc ∈ processes -> selected proc = true ->
                        P (tr ++ ext) (Killed (pid proc) sig)) ->
  returns_at P (fun _ _ => True)
    (ProcessTerminator.kill_selected_processes w processes) tr.
Proof.
  intros Hask Hkill.
  destruct (kill_signals_selected_only w processes tr) as (added & Hrun & Hsig).
  exists tt, added. split; [exact Hrun|]. split; [|exact I].
  apply Forall_forall. intros [question|p sig] Hin ext; [apply Hask|].
  destruct (Hsig p sig Hin) as (proc & Hproc & Hflag & <-).
  by apply Hkill.
Qed.

(** The selection step: it asks no yes/no question and sends no signal; and
    when no record was selected before, a record selected after has the pid
    of a record that passed the pre-filter. *)
Lemma select_processes_runs (self : ProcessDisplay.t) (w : world)
    (processes : list ProcessInfo) (nf : option string)
    (sysf exf namef : option (ProcessInfo -> bool))
    (P : list effect -> act -> Prop) (tr : list effect) :
  (forall p, p ∈ processes -> selected p = false) ->
  runs_at P
    (fun _ after => forall p', p' ∈ after -> selected p' = true ->
       exists q, q ∈ processes /\ pid q = pid p'
         /\ ProcessDisplay.kept (os_getpid w) nf sysf exf namef q = true)
    (ProcessDisplay.select_processes self w processes nf sysf exf namef) tr.
Proof.
  intros Hunsel.
  assert (Hsame : forall p', p' ∈ processes -> selected p' = true ->
            exists q, q ∈ processes /\ pid q = pid p'
              /\ ProcessDisplay.kept (os_getpid w) nf sysf exf namef q = true).
  { intros p' Hin Hflag. rewrite (Hunsel p' Hin) in Hflag. discriminate. }
  set (filtered := ProcessDisplay.filtered_processes (os_getpid w) nf sysf exf
                     namef processes).
  destruct (decide (filtered = [])) as [Hnil|Hne].
  { exists (Ok processes),
      (if list_truthy processes then [Print MsgNoProcessesToDisplay] else []).
    split; [|split; [by destruct (list_truthy processes)|
                     intros a Ha; by inversion Ha; subst]].
    unfold ProcessDisplay.select_processes.
    destruct (list_truthy processes); cbn [negb].
    - fold filtered. rewrite Hnil. reflexivity.
    - unfold mret, M_ret. by rewrite app_nil_r. }
  pose proof (select_processes_entered self w processes nf sysf exf namef tr Hne)
    as Hcall.
  cbv zeta in Hcall. fold filtered in Hcall.
  set (choices := ProcessDisplay.make_choices w filtered) in *.
  destruct (select_multiple_custom _ _ _ _ _ _) as [[indices|]|e] eqn:Hanswer.
  - destruct (negb (list_truthy indices)).
    + exists (Ok processes), ([SelectMultiple choices] ++ [Print MsgNoProcessesSelected]).
      split; [exact Hcall|]. split; [constructor|].
      intros a Ha. by inversion Ha; subst.
    + exists (Ok (ProcessDisplay.commit filtered indices processes)),
        [SelectMultiple choices].
      split; [exact Hcall|]. split; [constructor|].
      intros a Ha. inversion Ha; subst a. clear Ha.
      intros p' Hin Hflag.
      apply list_elem_of_lookup_1 in Hin as [i Hi].
      assert (Hlt : (i < length processes)%nat).
      { rewrite <- (length_commit filtered indices processes).
        by eapply lookup_lt_Some. }
      destruct (lookup_lt_is_Some_2 processes i Hlt) as [p Hp].
      destruct (commit_lookup filtered indices processes i p Hp) as (b & Hb & Hd).
      rewrite Hb in Hi. inversion Hi; subst p'. clear Hi.
      simpl in Hflag. subst b.
      apply existsb_designates in Hd as (idx & q & _ & _ & Hq & Hpid);
        [|reflexivity].
      apply list_elem_of_lookup_2, list_elem_of_In in Hq.
      unfold filtered, ProcessDisplay.filtered_processes in Hq.
      apply filter_In in Hq as [Hqin Hkept].
      exists q. split; [by apply list_elem_of_In|]. split; [exact Hpid|exact Hkept].
  - exists (Ok processes), [SelectMultiple choices].
    split; [exact Hcall|]. split; [constructor|].
    intros a Ha. by inversion Ha; subst.
  - exists (Err e), [SelectMultiple choices].
    split; [exact Hcall|]. split; [constructor|discriminate].
Qed.

(** What the controller may ask and signal in a run that has reached the
    trace [t]: any question; a signal only to a pid other than the tool's
    own that a [ps] call recorded in [t] reported for a process that is no
    system process, is not excluded and matches the name filter. *)
Definition eligible (self : ProcessKiller.t) (w : world) (t : list effect)
    (a : act) : Prop :=
  match a with
  | Asked _ => True
  | Killed p _ =>
      p <> os_getpid w
      /\ exists before records proc,
           (before ++ [RunPs]) `prefix_of` t
           /\ ps_records w (before ++ [RunPs]) = Some records
           /\ proc ∈ records /\ pid proc = p
           /\ is_system_process proc = false
           /\ ProcessFilter.is_excluded (ProcessKiller.filter self) proc = false
           /\ ProcessFilter.matches_name_filter (ProcessKiller.filter self) proc
              = true
  end.

Lemma kept_inv (self : ProcessKiller.t) (w : world) (q : ProcessInfo) :
  ProcessDisplay.kept (os_getpid w)
    (ProcessFilter.name_filter (ProcessKiller.filter self))
    (Some (ProcessFilter.is_system_process (ProcessKiller.filter self)))
    (Some (ProcessFilter.is_excluded (ProcessKiller.filter self)))
    (Some (ProcessFilter.matches_name_filter (ProcessKiller.filter self))) q = true ->
  pid q <> os_getpid w
  /\ is_system_process q = false
  /\ ProcessFilter.is_excluded (ProcessKiller.filter self) q = false
  /\ ProcessFilter.matches_name_filter (ProcessKiller.filter self) q = true.
Proof.
  unfold ProcessDisplay.kept, ProcessDisplay.holds, ProcessFilter.is_system_process.
  destruct (Z.eqb_spec (pid q) (os_getpid w)) as [|Hpid]; [discriminate|].
  destruct (is_system_process q); [discriminate|].
  destruct (ProcessFilter.is_excluded _ q); [discriminate|].
  intros H. split; [exact Hpid|]. split; [reflexivity|]. split; [reflexivity|].
  unfold ProcessFilter.matches_name_filter in *.
  destruct (ProcessFilter.name_filter _) as [f|]; [|reflexivity].
  destruct (str_truthy f); cbn [negb andb] in *; [|reflexivity].
  by destruct (str_in _ _).
Qed.

(** One round: snapshot, sort, selection, termination. *)
Lemma execute_sort_option_runs (excl : option (list string)) (nf : option string)
    (w : world) (choice : string) (tr : list effect) :
  let self := ProcessKiller.init excl nf in
  runs_at (eligible self w) (fun _ _ => True)
    (ProcessKiller._execute_sort_option self w choice) tr.
Proof.
  intros self. unfold ProcessKiller._execute_sort_option.
  eapply runs_bind; [apply returns_runs, returns_print|]. intros _ added0 _.
  eapply runs_bind
    with (Q := fun t all_processes =>
                 all_processes = []
                 \/ exists before records,
                      (before ++ [RunPs]) `prefix_of` t
                      /\ ps_records w (before ++ [RunPs]) = Some records
                      /\ all_processes = map (set_selected false) records).
  { unfold ProcessCollector.get_process_info.
    eapply runs_bind; [by apply returns_runs, returns_emit|].
    intros ? added1 Hadded1. cbv beta in Hadded1.
    eapply runs_bind; [apply returns_runs, returns_observe|].
    intros parsed added2 [Hadded2 Hparsed].
    rewrite Hparsed, Hadded2, Hadded1. clear Hparsed parsed.
    destruct (ps_records w ((tr ++ added0) ++ [RunPs])) as [records|] eqn:Hps.
    - apply returns_runs, returns_mret. right.
      exists (tr ++ added0), records. by split.
    - eapply runs_bind; [apply returns_runs, returns_print|]. intros _ added3 _.
      apply returns_runs, returns_mret. by left. }
  intros all_processes added1 Hall.
  destruct (list_truthy all_processes) eqn:Htruthy; cbn [negb].
  2:{ eapply returns_runs, returns_weaken; [|apply returns_print]. done. }
  destruct Hall as [->|(before & records & Hprefix & Hps & ->)]; [discriminate|].
  change (ProcessKiller.sort_options self) with ProcessSorter.sort_options.
  destruct (ProcessSorter.lookup choice ProcessSorter.sort_options)
    as [[name sort_func]|] eqn:Hlookup; [|apply runs_raise].
  destruct (lookup_sort_options _ _ _ Hlookup) as (Hin & _ & _).
  pose proof (sort_options_perm _ _ _ (map (set_selected false) records) Hin)
    as Hperm.
  set (sorted_processes := sort_func (map (set_selected false) records)) in *.
  cbv zeta.
  destruct (list_truthy sorted_processes); cbn [negb].
  2:{ eapply returns_runs, returns_weaken; [|apply returns_print]. done. }
  assert (Hfrom : forall q, q ∈ sorted_processes ->
            exists proc, proc ∈ records /\ q = set_selected false proc).
  { intros q Hq. apply list_elem_of_In in Hq.
    eapply Permutation_in in Hq; [|exact Hperm].
    apply in_map_iff in Hq as (proc & <- & Hproc).
    exists proc. split; [by apply list_elem_of_In|reflexivity]. }
  eapply runs_bind.
  { apply select_processes_runs.
    intros p Hp. destruct (Hfrom p Hp) as (proc & _ & ->). reflexivity. }
  intros after added2 Hafter. cbv beta in Hafter.
  apply returns_runs, kill_selected_processes_returns.
  - intros question t. exact I.
  - intros p' sig ext Hp' Hflag.
    destruct (Hafter p' Hp' Hflag) as (q & Hq & Hpid & Hkept).
    apply kept_inv in Hkept as (Hown & Hsys & Hexcl & Hname).
    destruct (Hfrom q Hq) as (proc & Hproc & ->).
    simpl. split; [by rewrite <- Hpid|].
    exists before, records, proc.
    split; [by do 2 apply prefix_app_r|].
    split; [exact Hps|]. split; [exact Hproc|]. split; [by rewrite <- Hpid|].
    split; [exact Hsys|]. split; [exact Hexcl|exact Hname].
Qed.

Lemma handle_exception_returns (P : list effect -> act -> Prop) (e : exn)
    (tr : list effect) :
  returns_at P (fun _ _ => True) (ProcessKiller.handle_exception e) tr.
Proof.
  assert (Hexit : returns_at P (fun _ (_ : bool) => True)
                    (print (MsgExiting true) ;; mret true) tr).
  { eapply returns_bind; [apply returns_print|]. intros _ added _.
    by apply returns_mret. }
  assert (Herror : returns_at P (fun _ (_ : bool) => True)
                     (print (MsgErrorOccurred e) ;; print MsgStackTrace ;;
                      print MsgTraceback ;; mret false) tr).
  { eapply returns_bind; [apply returns_print|]. intros _ added1 _.
    eapply returns_bind; [apply returns_print|]. intros _ added2 _.
    eapply returns_bind; [apply returns_print|]. intros _ added3 _.
    by apply returns_mret. }
  destruct e; [exact Hexit|exact Herror|exact Hexit|exact Herror|exact Herror].
Qed.

Lemma show_menu_runs (P : list effect -> act -> Prop) (self : ProcessKiller.t)
    (reply : ask_outcome string) (tr : list effect) :
  runs_at P (fun _ _ => True) (ProcessKiller.show_menu self reply) tr.
Proof.
  unfold ProcessKiller.show_menu. apply runs_try_except.
  - eapply runs_bind with (Q := fun _ _ => True).
    + unfold select_single.
      eapply runs_bind; [by apply returns_runs, returns_emit|].
      intros _ added _.
      destruct reply as [[v|]| |];
        [by apply returns_runs, returns_mret|apply runs_raise..].
    + intros selected added _. by apply returns_runs, returns_mret.
  - intros e added. destruct e; try apply runs_raise.
    by apply returns_runs, returns_mret.
Qed.

Lemma menu_turn_returns (excl : option (list string)) (nf : option string)
    (w : world) (reply : ask_outcome string) (tr : list effect) :
  let self := ProcessKiller.init excl nf in
  returns_at (eligible self w) (fun _ _ => True)
    (ProcessKiller.menu_turn self w reply) tr.
Proof.
  intros self. unfold ProcessKiller.menu_turn.
  apply returns_try_except; [|intros; apply handle_exception_returns].
  eapply runs_bind; [apply show_menu_runs|]. intros choice added0 _.
  destruct (String.eqb choice "exit").
  - eapply runs_bind; [apply returns_runs, returns_print|]. intros _ added1 _.
    by apply returns_runs, returns_mret.
  - eapply runs_bind with (Q := fun _ _ => True).
    + destruct (ProcessKiller.is_sort_option self choice).
      * apply execute_sort_option_runs.
      * by apply returns_runs, returns_mret.
    + intros _ added1 _. by apply returns_runs, returns_mret.
Qed.

Lemma menu_loop_returns (excl : option (list string)) (nf : option string)
    (w : world) (replies : list (ask_outcome string)) (tr : list effect) :
  let self := ProcessKiller.init excl nf in
  returns_at (eligible self w) (fun _ _ => True)
    (ProcessKiller.menu_loop self w replies) tr.
Proof.
  intros self. revert tr.
  induction replies as [|reply rest IH]; intros tr;
    cbn [ProcessKiller.menu_loop].
  - eapply returns_bind; [by apply returns_emit|]. intros _ added _.
    by apply returns_mret.
  - eapply returns_bind; [apply menu_turn_returns|]. intros leave added _.
    destruct leave; [by apply returns_mret|apply IH].
Qed.

(** The whole of [run]: no exception leaves it, and with a sort mode it
    ends after one round. *)
Lemma run_returns (excl : option (list string)) (nf : option string)
    (w : world) (sort_by : option string) (replies : list (ask_outcome string))
    (tr : list effect) :
  let self := ProcessKiller.init excl nf in
  returns_at (eligible self w)
    (fun _ st => forall by_, sort_by = Some by_ -> str_truthy by_ = true ->
                 st = ProcessKiller.Finished)
    (ProcessKiller.run self w sort_by replies) tr.
Proof.
  intros self. unfold ProcessKiller.run.
  eapply returns_bind; [apply returns_print|]. intros _ added0 _.
  destruct sort_by as [by_|].
  - destruct (str_truthy by_) eqn:Htruthy.
    + destruct (ProcessKiller.is_sort_option self by_); cbn [negb].
      * eapply returns_bind with (Q := fun _ _ => True).
        { apply returns_try_except; [|intros; apply handle_exception_returns].
          eapply runs_bind; [apply execute_sort_option_runs|]. intros _ added1 _.
          by apply returns_runs, returns_mret. }
        intros _ added1 _. by apply returns_mret.
      * eapply returns_bind; [apply returns_print|]. intros _ added1 _.
        eapply returns_bind; [apply returns_print|]. intros _ added2 _.
        by apply returns_mret.
    + eapply returns_weaken; [|apply menu_loop_returns].
      intros t st _ by' Hby Hby'. inversion Hby; subst. congruence.
  - eapply returns_weaken; [|apply menu_loop_returns].
    intros t st _ by' Hby. discriminate.
Qed.

(** X15. Whatever the options, the answers of the user and the failures of
    the system, no exception leaves [run], it only adds to the trace, with a
    sort mode it returns after one round, and every signal it sends goes to
    a pid that is not the tool's own and that a [ps] call of the trace so
    far reported for a process that is no system process, is not excluded
    and matches the name filter. *)
Theorem run_signals_only_eligible (excl : option (list string))
    (nf : option string) (w : world) (sort_by : option string)
    (replies : list (ask_outcome string)) (tr : list effect) :
  let self := ProcessKiller.init excl nf in
  exists st added,
    ProcessKiller.run self w sort_by replies tr = (Ok st, tr ++ added)
    /\ (forall by_, sort_by = Some by_ -> str_truthy by_ = true ->
        st = ProcessKiller.Finished)
    /\ forall p sig, Killed p sig ∈ acts added ->
         p <> os_getpid w
         /\ exists before records proc,
              (before ++ [RunPs]) `prefix_of` (tr ++ added)
              /\ ps_records w (before ++ [RunPs]) = Some records
              /\ proc ∈ records /\ pid proc = p
              /\ is_system_process proc = false
              /\ ProcessFilter.is_excluded (ProcessKiller.filter self) proc = false
              /\ ProcessFilter.matches_name_filter (ProcessKiller.filter self) proc
                 = true.
Proof.
  intros self.
  destruct (run_returns excl nf w sort_by replies tr)
    as (st & added & Hrun & Hacts & Hst).
  exists st, added. split; [exact Hrun|]. split; [exact Hst|].
  intros p sig Hin.
  rewrite Forall_forall in Hacts.
  specialize (Hacts _ Hin []). by rewrite app_nil_r in Hacts.
Qed.

(** ** The menu *)

(** What one failed menu prompt leaves in the trace. *)
Definition failure_report (self : ProcessKiller.t) : list effect :=
  [SelectSingle (ProcessKiller.menu_choices self);
   Print (MsgErrorOccurred OtherError); Print MsgStackTrace; Print MsgTraceback].

Lemma menu_loop_failed (self : ProcessKiller.t) (w : world)
    (rest : list (ask_outcome string)) (tr : list effect) :
  ProcessKiller.menu_loop self w (AskFailed :: rest) tr
  = ProcessKiller.menu_loop self w rest (tr ++ failure_report self).
Proof.
  cbn [ProcessKiller.menu_loop].
  unfold mbind at 1. unfold M_bind at 1.
  assert (Hturn : ProcessKiller.menu_turn self w AskFailed tr
                  = (Ok false, tr ++ failure_report self)).
  { unfold ProcessKiller.menu_turn, ProcessKiller.show_menu, select_single,
      failure_report.
    unfold try_except, mbind, M_bind, emit, raise. cbn beta iota.
    unfold ProcessKiller.handle_exception, mbind, M_bind, print, emit, mret, M_ret.
    cbn beta iota. by rewrite <- !app_assoc. }
  by rewrite Hturn.
Qed.

(** X16. With no sort mode (or an empty one), answering the menu with
    "Exit", pressing Escape or Control-C there, or an empty answer, ends the
    run at once: after the banner and the menu only the exit message is
    printed; no snapshot is taken, no question is asked and no signal is
    sent, and the answers that follow are not read. *)
Theorem menu_exit_ends_run (self : ProcessKiller.t) (w : world)
    (sort_by : option string) (reply : ask_outcome string)
    (rest : list (ask_outcome string)) (tr : list effect) :
  sort_by = None \/ sort_by = Some ""%string ->
  reply = Answered (Some "exit"%string) \/ reply = Answered (Some ""%string)
  \/ reply = Answered None \/ reply = AskInterrupted ->
  ProcessKiller.run self w sort_by (reply :: rest) tr
  = (Ok ProcessKiller.Finished,
     tr ++ [Print MsgStarting; SelectSingle (ProcessKiller.menu_choices self);
            Print (MsgExiting match reply with
                              | AskInterrupted => true
                              | _ => false
                              end)]).
Proof.
  intros Hmode Hreply.
  assert (Hloop :
    ProcessKiller.menu_loop self w (reply :: rest) (tr ++ [Print MsgStarting])
    = (Ok ProcessKiller.Finished,
       tr ++ [Print MsgStarting; SelectSingle (ProcessKiller.menu_choices self);
              Print (MsgExiting match reply with
                                | AskInterrupted => true
                                | _ => false
                                end)])).
  { cbn [ProcessKiller.menu_loop].
    unfold ProcessKiller.menu_turn, ProcessKiller.show_menu, select_single.
    destruct Hreply as [-> | [-> | [-> | ->]]];
      unfold try_except, mbind, M_bind, emit, raise, mret, M_ret; cbn beta iota;
      unfold ProcessKiller.handle_exception, mbind, M_bind, print, emit, mret,
        M_ret; cbn;
      by rewrite <- !app_assoc. }
  unfold ProcessKiller.run.
  unfold mbind at 1. unfold M_bind at 1. unfold print, emit. cbn beta iota.
  destruct Hmode as [-> | ->]; cbn [str_truthy]; exact Hloop.
Qed.

Lemma menu_exit_ends_run_witness :
  ProcessKiller.run (ProcessKiller.init None None) (demo_world []) None
    [Answered None; Answered (Some "cpu"%string)] []
  = (Ok ProcessKiller.Finished,
     [] ++ [Print MsgStarting;
            SelectSingle (ProcessKiller.menu_choices (ProcessKiller.init None None));
            Print (MsgExiting false)]).
Proof.
  apply (menu_exit_ends_run (ProcessKiller.init None None) (demo_world []) None
           (Answered None) [Answered (Some "cpu"%string)] []).
  - by left.
  - right. right. by left.
Defined.

(** X17. A menu prompt that fails with an exception other than the
    interrupt and the cancellation does not end the run: the error and the
    stack trace are printed and the menu is shown again. After [n] such
    failures the loop goes on with the answers that follow, and a run whose
    prompt fails every time is still at the menu, however many failures
    there were. *)
Theorem failing_menu_prompt_is_retried (self : ProcessKiller.t) (w : world)
    (n : nat) (rest : list (ask_outcome string)) (tr : list effect) :
  ProcessKiller.menu_loop self w (repeat AskFailed n ++ rest) tr
  = ProcessKiller.menu_loop self w rest
      (tr ++ mjoin (repeat (failure_report self) n))
  /\ ProcessKiller.run self w None (repeat AskFailed n) tr
     = (Ok ProcessKiller.AwaitingMenuAnswer,
        tr ++ Print MsgStarting :: mjoin (repeat (failure_report self) n)
           ++ [SelectSingle (ProcessKiller.menu_choices self)]).
Proof.
  assert (Hloop : forall rest tr,
    ProcessKiller.menu_loop self w (repeat AskFailed n ++ rest) tr
    = ProcessKiller.menu_loop self w rest
        (tr ++ mjoin (repeat (failure_report self) n))).
  { clear rest tr. induction n as [|n IH]; intros rest tr.
    - simpl. by rewrite app_nil_r.
    - cbn [repeat app]. rewrite menu_loop_failed, IH.
      cbn [mjoin list_join]. by rewrite <- app_assoc. }
  split; [apply Hloop|].
  unfold ProcessKiller.run.
  unfold mbind at 1. unfold M_bind at 1. unfold print, emit. cbn beta iota.
  rewrite <- (app_nil_r (repeat AskFailed n)), Hloop.
  cbn [ProcessKiller.menu_loop].
  unfold mbind, M_bind, emit, mret, M_ret.
  rewrite <- !app_assoc. reflexivity.
Qed.

(** ** A failed snapshot *)

(** X18. When [ps] fails or reports no process, a round ends after the
    failure is printed, for any sort key, known or not: no selection
    session is opened, no question asked and no signal sent. *)
Theorem failed_snapshot_ends_round (self : ProcessKiller.t) (w : world)
    (choice : string) (tr : list effect) :
  let collected := tr ++ [Print MsgCollecting; RunPs] in
  ps_records w collected = None \/ ps_records w collected = Some [] ->
  ProcessKiller._execute_sort_option self w choice tr
  = (Ok tt,
     collected
     ++ match ps_records w collected with
        | None => [Print MsgPsFailed]
        | Some _ => []
        end
     ++ [Print MsgRetrieveFailed]).
Proof.
  intros collected Hps.
  unfold ProcessKiller._execute_sort_option, ProcessCollector.get_process_info.
  unfold mbind, M_bind, print, emit, observe. cbn beta iota.
  replace ((tr ++ [Print MsgCollecting]) ++ [RunPs]) with collected
    by (subst collected; by rewrite <- app_assoc).
  destruct Hps as [Hps|Hps]; rewrite Hps; unfold mret, M_ret; cbn.
  - by rewrite <- !app_assoc.
  - reflexivity.
Qed.

(** A world in which [ps] fails. *)
Definition no_ps_world : world :=
  {| os_getpid := 999;
     ps_records := fun _ => None;
     format_label := fun _ proc => name proc;
     ui_events := fun _ => [];
     yes_no_reply := fun _ => Answered (Some true);
     os_kill_raises := fun _ _ _ => false |}.

Lemma failed_snapshot_ends_round_witness :
  ProcessKiller._execute_sort_option (ProcessKiller.init None None) no_ps_world
    "cpu" []
  = (Ok tt, [Print MsgCollecting; RunPs; Print MsgPsFailed; Print MsgRetrieveFailed]).
Proof.
  apply (failed_snapshot_ends_round (ProcessKiller.init None None) no_ps_world
           "cpu" []).
  by left.
Defined.

(** ** An empty exclusion keyword *)

Lemma str_in_empty (hay : string) : str_in "" hay = true.
Proof. by destruct hay. Qed.

(** X19. The empty string is contained in every name: with an empty keyword
    in the exclusion list every process counts as excluded, so a round on a
    non-empty snapshot shows "No processes to display.", opens no selection
    session and sends no signal. *)
Theorem empty_exclude_keyword_hides_everything (excl : list string)
    (nf : option string) (w : world) (choice name : string)
    (sort_func : list ProcessInfo -> list ProcessInfo)
    (records : list ProcessInfo) (tr : list effect) :
  let self := ProcessKiller.init (Some excl) nf in
  let collected := tr ++ [Print MsgCollecting; RunPs] in
  In ""%string excl ->
  ProcessSorter.lookup choice ProcessSorter.sort_options = Some (name, sort_func) ->
  ps_records w collected = Some records ->
  records <> [] ->
  (forall proc, ProcessFilter.is_excluded (ProcessKiller.filter self) proc = true)
  /\ ProcessKiller._execute_sort_option self w choice tr
     = (Ok tt,
        collected ++ [Print MsgNoProcessesToDisplay; Print MsgNoProcessesSelected]).
Proof.
  intros self collected Hempty Hlookup Hps Hrecords.
  assert (Hexcluded : forall proc,
            ProcessFilter.is_excluded (ProcessKiller.filter self) proc = true).
  { intros proc. unfold ProcessFilter.is_excluded. cbn.
    destruct excl as [|k rest] eqn:Hexcl; [done|]. cbn [list_truthy negb].
    rewrite <- Hexcl in *. apply existsb_exists.
    exists ""%string. split; [exact Hempty|apply str_in_empty]. }
  split; [exact Hexcluded|].
  destruct (lookup_sort_options _ _ _ Hlookup) as (Hin & _ & _).
  pose proof (sort_options_perm _ _ _ (map (set_selected false) records) Hin)
    as Hperm.
  set (sorted_processes := sort_func (map (set_selected false) records)) in *.
  assert (Hunselected : forall p, In p sorted_processes -> selected p = false).
  { intros p Hp. eapply Permutation_in in Hp; [|exact Hperm].
    apply in_map_iff in Hp as (q & <- & _). reflexivity. }
  assert (Hall : list_truthy (map (set_selected false) records) = true)
    by (by destruct records).
  assert (Hsorted : list_truthy sorted_processes = true).
  { destruct sorted_processes; [|reflexivity].
    apply Permutation_nil in Hperm. by rewrite Hperm in Hall. }
  assert (Hfiltered : forall l,
    ProcessDisplay.filtered_processes (os_getpid w) nf
      (Some (ProcessFilter.is_system_process (ProcessKiller.filter self)))
      (Some (ProcessFilter.is_excluded (ProcessKiller.filter self)))
      (Some (ProcessFilter.matches_name_filter (ProcessKiller.filter self)))
      l = []).
  { unfold ProcessDisplay.filtered_processes.
    induction l as [|p rest IH]; [reflexivity|].
    cbn [List.filter]. unfold ProcessDisplay.kept at 1.
    cbn [ProcessDisplay.holds]. rewrite Hexcluded.
    destruct (pid p =? os_getpid w);
      [|destruct (ProcessFilter.is_system_process _ p)]; exact IH. }
  unfold ProcessKiller._execute_sort_option, ProcessCollector.get_process_info.
  unfold mbind, M_bind, print, emit, observe. cbn beta iota.
  replace ((tr ++ [Print MsgCollecting]) ++ [RunPs]) with collected
    by (subst collected; by rewrite <- app_assoc).
  rewrite Hps. unfold mret, M_ret. cbn beta iota.
  rewrite Hall. cbn [negb].
  change (ProcessKiller.sort_options self) with ProcessSorter.sort_options.
  rewrite Hlookup. fold sorted_processes. rewrite Hsorted. cbn [negb].
  change (ProcessKiller.name_filter self) with nf.
  unfold ProcessDisplay.select_processes.
  rewrite Hsorted. cbn [negb]. rewrite Hfiltered. cbn [list_truthy negb].
  unfold mbind, M_bind, print, emit, mret, M_ret.
  rewrite kill_nothing_selected by exact Hunselected.
  by rewrite <- !app_assoc.
Qed.

Lemma empty_exclude_keyword_hides_everything_witness :
  ProcessKiller._execute_sort_option
    (ProcessKiller.init (Some ["chrome"; ""]%string) None)
    (demo_world [Key (Char " "); Key KeyEnter]) "cpu" []
  = (Ok tt,
     [Print MsgCollecting; RunPs; Print MsgNoProcessesToDisplay;
      Print MsgNoProcessesSelected]).
Proof.
  refine (proj2 (empty_exclude_keyword_hides_everything ["chrome"; ""]%string None
                   (demo_world [Key (Char " "); Key KeyEnter]) "cpu" "CPU usage"
                   ProcessSorter.sort_cpu
                   [user_process 100 "alpha"; user_process 101 "beta"] []
                   _ eq_refl eq_refl _)).
  - right. by left.
  - discriminate.
Defined.

(** ** System process names in mixed case *)

Lemma lower_ascii_idemp (c : ascii) : lower_ascii (lower_ascii c) = lower_ascii c.
Proof. by destruct c as [[] [] [] [] [] [] [] []]. Qed.

Lemma prefix_of_lowered (needle hay : string) :
  String.prefix needle (lower hay) = true -> lower needle = needle.
Proof.
  revert hay. induction needle as [|c needle IH]; intros hay H; [reflexivity|].
  destruct hay as [|d hay]; [discriminate|].
  cbn [lower String.prefix] in H.
  destruct (ascii_dec c (lower_ascii d)) as [->|]; [|discriminate].
  cbn [lower]. by rewrite lower_ascii_idemp, (IH hay H).
Qed.

(** A string found in a lower-cased text holds no upper-case letter. *)
Lemma str_in_lowered (needle hay : string) :
  str_in needle (lower hay) = true -> lower needle = needle.
Proof.
  induction hay as [|d hay IH]; cbn [lower str_in]; intros H.
  - rewrite orb_false_r in H. by apply (prefix_of_lowered needle "").
  - apply orb_prop in H as [H|H]; [|by apply IH].
    by apply (prefix_of_lowered needle (String d hay)).
Qed.

Lemma existsb_filter_same {A} (f g : A -> bool) (l : list A) :
  (forall x, f x = true -> g x = true) ->
  existsb f l = existsb f (List.filter g l).
Proof.
  intros H. induction l as [|x rest IH]; [reflexivity|].
  cbn [existsb List.filter].
  destruct (g x) eqn:Hg; cbn [existsb]; rewrite <- IH; [reflexivity|].
  destruct (f x) eqn:Hf; [|reflexivity].
  rewrite (H x Hf) in Hg. discriminate.
Qed.

(** X20. The process name is lower-cased before the system names are looked
    for in it, so the names of [SYSTEM_PROCESS_NAMES] written with an
    upper-case letter ([WindowServer], [UserEventAgent],
    [com.apple.WebKit], [VTDecoderXPCService]) never match: a process that
    is not pid 1, whose user is no system user, whose command starts with no
    system path and whose lower-cased name contains none of the all-lower-case
    system names is not a system process, whatever its name. *)
Theorem mixed_case_system_names_never_match (proc : ProcessInfo) :
  pid proc <> 1 ->
  str_member (user proc) SYSTEM_USERS = false ->
  existsb (fun path => startswith (lower (command proc)) path) SYSTEM_PATHS = false ->
  existsb (fun sys_name => str_in sys_name (lower (name proc)))
    (List.filter (fun sys_name => String.eqb (lower sys_name) sys_name)
       SYSTEM_PROCESS_NAMES) = false ->
  is_system_process proc = false.
Proof.
  intros Hpid Huser Hpath Hname.
  rewrite <- (existsb_filter_same
                (fun sys_name => str_in sys_name (lower (name proc)))) in Hname.
  - unfold is_system_process.
    apply Z.eqb_neq in Hpid. rewrite Hpid, Huser.
    cbv zeta. rewrite Hname, Hpath.
    destruct (String.eqb (ppid proc) "1"); reflexivity.
  - intros sys_name Hin. apply String.eqb_eq. by eapply str_in_lowered.
Qed.

(** A user's process with the name of the macOS window server. *)
Definition window_server : ProcessInfo :=
  {| user := "alice"; pid := 4243; ppid := "1"; cpu := 0%float; mem := 0%float;
     stat := "S"; start := "10:00"; uptime := "5m";
     command := "/opt/tools/WindowServer -daemon"; name := "tools / WindowServer";
     type := "WindowServer"; selected := false |}.

Lemma mixed_case_system_names_never_match_witness :
  str_member "WindowServer" SYSTEM_PROCESS_NAMES = true
  /\ is_system_process window_server = false.
Proof.
  split; [reflexivity|].
  apply (mixed_case_system_names_never_match window_server).
  - vm_compute. discriminate.
  - reflexivity.
  - reflexivity.
  - reflexivity.
Defined.

Example mixed_case_system_names :
  List.filter (fun sys_name => negb (String.eqb (lower sys_name) sys_name))
    SYSTEM_PROCESS_NAMES
  = ["WindowServer"; "UserEventAgent"; "com.apple.WebKit";
     "VTDecoderXPCService"]%string.
Proof. reflexivity. Qed.

(** ** The sort by start text *)

Lemma ltb_asym (a b : string) :
  String.ltb a b = true -> String.ltb b a = false.
Proof.
  unfold String.ltb. rewrite (String.compare_antisym b a).
  by destruct (String.compare a b).
Qed.

Lemma ltb_lt (a b : string) :
  String.ltb a b = true <-> OrderedTypeEx.String_as_OT.lt a b.
Proof.
  rewrite <- OrderedTypeEx.String_as_OT.cmp_lt.
  unfold String.ltb, OrderedTypeEx.String_as_OT.cmp.
  destruct (String.compare a b); split; congruence.
Qed.

(** [not (y < x)] and [not (z < y)] give [not (z < x)]. *)
Lemma not_ltb_trans (x y z : string) :
  String.ltb y x = false -> String.ltb z y = false -> String.ltb z x = false.
Proof.
  intros Hyx Hzy. destruct (String.ltb z x) eqn:Hzx; [|reflexivity].
  destruct (String.compare y z) eqn:Hc.
  - apply String.compare_eq_iff in Hc. subst z. congruence.
  - assert (Hyz : String.ltb y z = true) by (unfold String.ltb; by rewrite Hc).
    apply ltb_lt in Hyz, Hzx.
    pose proof (OrderedTypeEx.String_as_OT.lt_trans _ _ _ Hyz Hzx) as Hlt.
    apply ltb_lt in Hlt. congruence.
  - assert (Hzy' : String.ltb z y = true).
    { unfold String.ltb. rewrite String.compare_antisym, Hc. reflexivity. }
    congruence.
Qed.

Section Insertion.

Context {A : Type} (key : A -> string).

Let before (y x : A) : bool := String.ltb (key y) (key x).
Let ordered (a b : A) : Prop := String.ltb (key b) (key a) = false.

Lemma insert_stable_Forall (P : A -> Prop) (x : A) (l : list A) :
  P x -> Forall P l -> Forall P (ProcessSorter.insert_stable before x l).
Proof.
  intros Hx Hl. induction Hl as [|y rest Hy Hrest IH]; simpl.
  - by constructor.
  - destruct (before y x); constructor; auto.
Qed.

Lemma insert_stable_sorted (x : A) (l : list A) :
  StronglySorted ordered l ->
  StronglySorted ordered (ProcessSorter.insert_stable before x l).
Proof.
  intros Hl. induction Hl as [|y rest Hrest IH Hy]; simpl.
  - constructor; constructor.
  - destruct (before y x) eqn:Hb.
    + constructor; [exact IH|].
      apply insert_stable_Forall; [|exact Hy].
      unfold ordered. by apply ltb_asym.
    + constructor; [by constructor|].
      constructor; [exact Hb|].
      eapply Forall_impl; [exact Hy|].
      intros z Hz. unfold ordered in *. by eapply not_ltb_trans.
Qed.

Lemma sorted_stable_sorted (l : list A) :
  StronglySorted ordered (ProcessSorter.sorted_stable before l).
Proof.
  induction l as [|x rest IH]; simpl; [constructor|].
  by apply insert_stable_sorted.
Qed.

Lemma insert_stable_filter (k : string) (x : A) (l : list A) :
  List.filter (fun a => String.eqb (key a) k)
    (ProcessSorter.insert_stable before x l)
  = List.filter (fun a => String.eqb (key a) k) (x :: l).
Proof.
  induction l as [|y rest IH]; [reflexivity|].
  cbn [ProcessSorter.insert_stable].
  destruct (before y x) eqn:Hb; [|reflexivity].
  cbn [List.filter] in *. rewrite IH.
  destruct (String.eqb_spec (key x) k) as [Hx|Hx];
    destruct (String.eqb_spec (key y) k) as [Hy|Hy]; try reflexivity.
  exfalso. unfold before in Hb. rewrite Hx, Hy in Hb.
  unfold String.ltb in Hb.
  assert (Hk : String.compare k k = Eq).
  { pose proof (String.compare_antisym k k) as Ha.
    destruct (String.compare k k); [reflexivity|discriminate..]. }
  by rewrite Hk in Hb.
Qed.

Lemma sorted_stable_filter (k : string) (l : list A) :
  List.filter (fun a => String.eqb (key a) k) (ProcessSorter.sorted_stable before l)
  = List.filter (fun a => String.eqb (key a) k) l.
Proof.
  induction l as [|x rest IH]; [reflexivity|].
  cbn [ProcessSorter.sorted_stable foldr].
  rewrite insert_stable_filter. cbn [List.filter].
  fold (ProcessSorter.sorted_stable before rest). by rewrite IH.
Qed.

End Insertion.

(** X21. The sort "uptime (oldest first)" orders the records by the text of
    their [start] column, compared as strings: in the result no record is
    followed, at any distance, by one with a smaller start text; the records
    with one and the same start text keep the order they had in the
    snapshot; and no record is lost or added. *)
Theorem sort_uptime_orders_by_start_text (processes : list ProcessInfo) :
  StronglySorted (fun a b => String.ltb (start b) (start a) = false)
    (ProcessSorter.sort_uptime processes)
  /\ (forall text,
        List.filter (fun p => String.eqb (start p) text)
          (ProcessSorter.sort_uptime processes)
        = List.filter (fun p => String.eqb (start p) text) processes)
  /\ Permutation (ProcessSorter.sort_uptime processes) processes.
Proof.
  split; [apply (sorted_stable_sorted start)|].
  split; [intros text; apply (sorted_stable_filter start)|].
  apply sorted_stable_perm.
Qed.

(* ===================================================================== *)
(** ** The command bar and the detail overlay *)
(* ===================================================================== *)

Lemma length_append (a b : string) :
  String.length (a +:+ b) = (String.length a + String.length b)%nat.
Proof. induction a as [|c a IH]; simpl; [reflexivity|by rewrite IH]. Qed.

Lemma length_substring (n m : nat) (s : string) :
  String.length (String.substring n m s) = Nat.min m (String.length s - n).
Proof.
  revert n m. induction s as [|c s IH]; intros n m.
  - destruct n, m; reflexivity.
  - destruct n as [|n]; [destruct m as [|m]; simpl; [reflexivity|]|].
    + rewrite IH. f_equal. f_equal. lia.
    + simpl. by rewrite IH.
Qed.

Lemma substring_nothing (n : nat) (s : string) : String.substring n 0 s = "".
Proof.
  revert n. induction s as [|c s IH]; intros [|n]; simpl; auto.
Qed.

Lemma substring_all (s : string) : String.substring 0 (String.length s) s = s.
Proof. induction s as [|c s IH]; simpl; [reflexivity|by rewrite IH]. Qed.

Lemma substring_split (n m k : nat) (s : string) :
  String.substring n m s +:+ String.substring (n + m) k s
  = String.substring n (m + k) s.
Proof.
  revert n m. induction s as [|c s IH]; intros n m.
  - destruct n, m, k; reflexivity.
  - destruct n as [|n].
    + destruct m as [|m]; simpl.
      * destruct k; reflexivity.
      * change (String c (String.substring 0 m s +:+ String.substring (0 + m) k s)
                = String c (String.substring 0 (m + k) s)).
        f_equal. apply (IH 0%nat m).
    + simpl. apply IH.
Qed.

Lemma str_len_spaces (n : Z) : 0 <= n -> str_len (spaces n) = n.
Proof.
  intros Hn. unfold str_len, spaces.
  rewrite <- (Z2Nat.id n Hn) at 2. f_equal.
  induction (Z.to_nat n) as [|k IH]; simpl; [reflexivity|by rewrite IH].
Qed.

Lemma str_len_ljust (s : string) (width : Z) :
  str_len s <= width -> str_len (ljust s width) = width.
Proof.
  intros H. unfold ljust.
  assert (Hs := str_len_spaces (width - str_len s) ltac:(lia)).
  unfold str_len in *. rewrite length_append. lia.
Qed.

Lemma str_len_slice (s : string) (a b : Z) :
  0 <= a -> a <= b ->
  str_len (str_slice s a b) = Z.min b (str_len s) - Z.min a (str_len s).
Proof.
  intros Ha Hb. unfold str_slice, str_len, clamp.
  destruct (Z.ltb_spec a 0); [lia|]. destruct (Z.ltb_spec b 0); [lia|].
  rewrite length_substring. lia.
Qed.

Lemma str_len_nonneg (s : string) : 0 <= str_len s.
Proof. unfold str_len. lia. Qed.

(** X23. On a terminal of any width the command bar above the list is made
    of two lines of exactly that width (the command is cut and padded), so
    it never wraps; and with the cursor on or after the first row and choice
    values that are positions, as [select_processes] passes them, drawing
    the bar raises nothing. *)
Theorem current_command_fits_terminal (c : closure) (s : state)
    (terminal_width : Z) :
  0 <= terminal_width ->
  (forall result, get_current_command c s terminal_width = Some result ->
     exists line1 line2,
       result = [("bg:#004060", line1); ("", newline); ("bg:#004060", line2)]
       /\ str_len line1 = terminal_width /\ str_len line2 = terminal_width)
  /\ (0 <= current_index s ->
      (forall value label, (value, label) ∈ choices c -> 0 <= value) ->
      get_current_command c s terminal_width <> None).
Proof.
  intros Hw.
  assert (Hblank : exists line1 line2,
            blank_bar terminal_width
            = [("bg:#004060", line1); ("", newline); ("bg:#004060", line2)]
            /\ str_len line1 = terminal_width /\ str_len line2 = terminal_width).
  { exists (spaces terminal_width), (spaces terminal_width).
    split; [reflexivity|]. split; by apply str_len_spaces. }
  split.
  - intros result. unfold get_current_command.
    destruct (_ <? _); [|intros H; by inversion H; subst].
    destruct (py_getitem _ _) as [[value label]|]; [|discriminate].
    cbv zeta.
    destruct (process_data c) as [pd|]; [|intros H; by inversion H; subst].
    destruct (_ && _); [|intros H; by inversion H; subst].
    destruct (py_getitem pd value) as [proc|]; [|discriminate].
    set (cmd := if terminal_width * 2 <? _ then _ else _).
    intros H. inversion H; subst result. clear H.
    eexists _, _. split; [reflexivity|].
    pose proof (str_len_nonneg cmd).
    destruct (Z.ltb_spec terminal_width (str_len cmd)).
    + split; apply str_len_ljust; rewrite str_len_slice; lia.
    + split; apply str_len_ljust; [lia|exact Hw].
  - intros Hcursor Hvalues. unfold get_current_command.
    destruct (Z.ltb_spec (current_index s) (len (get_filtered_choices c s)))
      as [Hlt|]; [|discriminate].
    unfold py_getitem at 1.
    destruct (Z.leb_spec 0 (current_index s)); [|lia].
    destruct (get_filtered_choices c s !! Z.to_nat (current_index s))
      as [[value label]|] eqn:Hrow.
    2:{ apply lookup_ge_None in Hrow. unfold len in Hlt. lia. }
    cbv zeta.
    destruct (process_data c) as [pd|]; [|discriminate].
    destruct (list_truthy pd && (value <? len pd)) eqn:Hguard; [|discriminate].
    apply andb_prop in Hguard as [_ Hvalue]. apply Z.ltb_lt in Hvalue.
    assert (0 <= value).
    { apply (Hvalues value label).
      eapply elem_of_sublist; [by eapply list_elem_of_lookup_2|].
      apply filtered_from_sublist_all. }
    unfold py_getitem.
    destruct (Z.leb_spec 0 value); [|lia].
    destruct (pd !! Z.to_nat value) eqn:Hproc; [discriminate|].
    apply lookup_ge_None in Hproc. unfold len in Hvalue. lia.
Qed.


Lemma current_command_fits_terminal_witness :
  get_current_command two_processes (initial_state None true) 10 <> None.
Proof.
  refine (proj2 (current_command_fits_terminal two_processes
                   (initial_state None true) 10 _) _ _).
  - lia.
  - simpl. lia.
  - intros value label Hin. apply list_elem_of_In in Hin. simpl in Hin.
    destruct Hin as [Hin|[Hin|[]]]; inversion Hin; lia.
Defined.

(** The bar for a command longer than two lines of a terminal of ten
    columns. *)
Example long_command_is_cut :
  get_current_command
    {| choices := [(0, "tools / alpha")];
       process_data :=
         Some [user_process 100 "alpha --serve --port 8080"];
       exclude_list := None |}
    (initial_state None true) 10
  = Some [("bg:#004060", "/opt/tools"); ("", newline); ("bg:#004060", "/alpha ...")].
Proof. reflexivity. Qed.

Lemma concat_empty_cons (x : string) (l : list string) :
  String.concat "" (x :: l) = x +:+ String.concat "" l.
Proof.
  destruct l as [|y l]; cbn [String.concat]; [|reflexivity].
  induction x as [|c x IH]; [reflexivity|].
  change (String c x = String c (x +:+ "")). by rewrite <- IH.
Qed.

Lemma str_slice_tail (s : string) (i : Z) :
  str_len s <= i -> str_slice s i (str_len s) = "".
Proof.
  intros H. pose proof (str_len_nonneg s). unfold str_slice, clamp.
  destruct (Z.ltb_spec i 0); [lia|].
  destruct (Z.ltb_spec (str_len s) 0); [lia|].
  replace (Z.to_nat (Z.min (str_len s) (str_len s) - Z.min i (str_len s)))
    with 0%nat by lia.
  apply substring_nothing.
Qed.

Lemma str_slice_step (s : string) (i j : Z) :
  0 <= i -> i <= j ->
  str_slice s i j +:+ str_slice s j (str_len s) = str_slice s i (str_len s).
Proof.
  intros Hi Hj. pose proof (str_len_nonneg s). unfold str_slice, clamp.
  destruct (Z.ltb_spec i 0); [lia|]. destruct (Z.ltb_spec j 0); [lia|].
  destruct (Z.ltb_spec (str_len s) 0); [lia|].
  replace (Z.to_nat (Z.min j (str_len s)))
    with (Z.to_nat (Z.min i (str_len s))
          + Z.to_nat (Z.min j (str_len s) - Z.min i (str_len s)))%nat by lia.
  rewrite substring_split. f_equal. lia.
Qed.

Lemma str_slice_all (s : string) : str_slice s 0 (str_len s) = s.
Proof.
  pose proof (str_len_nonneg s). unfold str_slice, clamp.
  destruct (Z.ltb_spec (str_len s) 0); [lia|]. cbn [Z.ltb Z.compare].
  replace (Z.to_nat (Z.min 0 (str_len s))) with 0%nat by lia.
  replace (Z.to_nat (Z.min (str_len s) (str_len s) - Z.min 0 (str_len s)))
    with (String.length s) by (unfold str_len; lia).
  apply substring_all.
Qed.

(** With a positive width the loop ends within as many turns as the command
    has characters left, plus one. *)
Lemma command_lines_loop_ends (command : string) (max_width : Z) :
  0 < max_width ->
  forall fuel i acc,
    0 <= i ->
    (Z.to_nat (str_len command - i) < fuel)%nat ->
    exists lines,
      command_lines_loop fuel command max_width i acc = Some (acc ++ lines)
      /\ String.concat "" lines = str_slice command i (str_len command)
      /\ Forall (fun line => 0 < str_len line <= max_width) lines.
Proof.
  intros Hwidth. induction fuel as [|fuel IH]; intros i acc Hi Hfuel; [lia|].
  cbn [command_lines_loop].
  destruct (Z.ltb_spec i (str_len command)) as [Hlt|Hge].
  - destruct (IH (i + max_width)
                (acc ++ [str_slice command i (i + max_width)]))
      as (lines & Hrun & Hcat & Hall); [lia|lia|].
    exists (str_slice command i (i + max_width) :: lines).
    split; [by rewrite Hrun, <- app_assoc|]. split.
    + rewrite concat_empty_cons, Hcat. apply str_slice_step; lia.
    + constructor; [|exact Hall]. rewrite str_len_slice by lia. lia.
  - exists []. rewrite app_nil_r. split; [reflexivity|].
    split; [by rewrite str_slice_tail|constructor].
Qed.

Lemma command_lines_loop_stuck (command : string) (max_width : Z) :
  max_width <= 0 -> command <> ""%string ->
  forall fuel i acc,
    i <= 0 -> command_lines_loop fuel command max_width i acc = None.
Proof.
  intros Hwidth Hcommand.
  assert (0 < str_len command).
  { destruct command; [done|]. unfold str_len. simpl. lia. }
  induction fuel as [|fuel IH]; intros i acc Hi; [reflexivity|].
  cbn [command_lines_loop].
  destruct (Z.ltb_spec i (str_len command)); [|lia].
  apply IH. lia.
Qed.

(** X24. On a terminal more than four columns wide the detail overlay cuts
    a command into lines within as many turns of its loop as the command has
    characters: no line is empty or longer than the width less four, and the
    lines put end to end are the command, nothing lost and nothing added. *)
Theorem command_lines_round_trip (fuel : nat) (command : string)
    (terminal_width : Z) :
  4 < terminal_width ->
  command <> ""%string ->
  (String.length command < fuel)%nat ->
  exists lines,
    command_lines fuel command terminal_width = Some lines
    /\ String.concat "" lines = command
    /\ Forall (fun line => 0 < str_len line <= terminal_width - 4) lines.
Proof.
  intros Hwidth Hcommand Hfuel. unfold command_lines.
  destruct command as [|ch rest] eqn:Hc; [done|]. cbn [str_truthy].
  rewrite <- Hc in *.
  destruct (command_lines_loop_ends command (terminal_width - 4) ltac:(lia)
              fuel 0 [] ltac:(lia)) as (lines & Hrun & Hcat & Hall).
  { unfold str_len. lia. }
  exists lines. split; [exact Hrun|]. split; [|exact Hall].
  by rewrite Hcat, str_slice_all.
Qed.

Lemma command_lines_round_trip_witness :
  exists lines,
    command_lines 20 "/opt/tools/alpha" 10 = Some lines
    /\ String.concat "" lines = "/opt/tools/alpha"%string.
Proof.
  destruct (command_lines_round_trip 20 "/opt/tools/alpha" 10)
    as (lines & Hrun & Hcat & _).
  - lia.
  - discriminate.
  - simpl. lia.
  - exists lines. split; [exact Hrun|exact Hcat].
Defined.

Example command_lines_of_ten_columns :
  command_lines 20 "/opt/tools/alpha" 10 = Some ["/opt/t"; "ools/a"; "lpha"]%string.
Proof. reflexivity. Qed.

(** X25. On a terminal of four columns or fewer the loop that cuts the
    command into lines never ends: the position does not advance (or moves
    backwards), so for a process with a command no number of turns suffices
    and the detail overlay is never drawn. *)
Theorem detail_overlay_hangs_on_narrow_terminal (fuel : nat) (command : string)
    (terminal_width : Z) :
  terminal_width <= 4 ->
  command <> ""%string ->
  command_lines fuel command terminal_width = None.
Proof.
  intros Hwidth Hcommand. unfold command_lines.
  destruct command as [|ch rest] eqn:Hc; [done|]. cbn [str_truthy].
  rewrite <- Hc in *.
  apply command_lines_loop_stuck; [lia|exact Hcommand|lia].
Qed.


Lemma detail_overlay_hangs_on_narrow_terminal_witness :
  command_lines 1000 "/opt/tools/alpha" 4 = None.
Proof.
  apply (detail_overlay_hangs_on_narrow_terminal 1000 "/opt/tools/alpha" 4).
  - lia.
  - discriminate.
Defined.

(* ===================================================================== *)
(** ** The command line *)
(* ===================================================================== *)

Lemma str_split_nonempty (sep : ascii) (s : string) : str_split sep s <> [].
Proof.
  destruct s as [|ch rest]; cbn [str_split]; [done|].
  destruct (Ascii.eqb ch sep); [done|]. by destruct (str_split sep rest).
Qed.

Lemma str_split_trailing (sep : ascii) (s : string) :
  str_split sep (s +:+ String sep "") = str_split sep s ++ [""].
Proof.
  induction s as [|ch rest IH].
  - simpl. by rewrite Ascii.eqb_refl.
  - change (String ch rest +:+ String sep "")
      with (String ch (rest +:+ String sep "")).
    cbn [str_split]. rewrite IH.
    destruct (Ascii.eqb ch sep); [reflexivity|].
    pose proof (str_split_nonempty sep rest).
    by destruct (str_split sep rest).
Qed.

(** X26. [--excludes] is cut at the commas and each item is stripped, empty
    items included: when an item is empty or blank (after a trailing comma,
    between two commas, or a lone space) the exclusion list holds the empty
    keyword, and the filter of the controller built from it counts every
    process as excluded. *)
Theorem blank_excludes_item_hides_everything (excludes keyword : string)
    (name : option string) (proc : ProcessInfo) :
  excludes <> ""%string ->
  keyword ∈ str_split "," excludes ->
  strip keyword = ""%string ->
  ProcessFilter.is_excluded
    (ProcessKiller.filter
       (ProcessKiller.init (Some (Cli.exclude_list (Some excludes))) name)) proc
  = true.
Proof.
  intros Hexcludes Hin Hblank.
  assert (Hlist : Cli.exclude_list (Some excludes)
                  = map strip (str_split "," excludes)).
  { unfold Cli.exclude_list. by destruct excludes. }
  assert (Hempty : In ""%string (Cli.exclude_list (Some excludes))).
  { rewrite Hlist. apply in_map_iff. exists keyword.
    split; [exact Hblank|by apply list_elem_of_In]. }
  unfold ProcessFilter.is_excluded.
  change (ProcessFilter.exclude_list _) with (Cli.exclude_list (Some excludes)).
  destruct (Cli.exclude_list (Some excludes)) as [|k rest] eqn:Hl; [done|].
  cbn [list_truthy negb]. rewrite <- Hl in *. apply existsb_exists.
  exists ""%string. split; [exact Hempty|apply str_in_empty].
Qed.

Lemma blank_excludes_item_hides_everything_witness :
  Cli.exclude_list (Some "chrome, ,slack,"%string) = ["chrome"; ""; "slack"; ""]%string
  /\ ProcessFilter.is_excluded
       (ProcessKiller.filter
          (ProcessKiller.init (Some (Cli.exclude_list (Some "chrome, ,slack,"%string)))
             None)) (user_process 100 "alpha")
     = true.
Proof.
  split; [reflexivity|].
  apply (blank_excludes_item_hides_everything "chrome, ,slack," " " None
           (user_process 100 "alpha")).
  - discriminate.
  - vm_compute. apply list_elem_of_In. simpl. auto.
  - reflexivity.
Defined.

(** A trailing comma gives an empty last item. *)
Example trailing_comma_gives_empty_item (text : string) :
  last (str_split "," (text +:+ ",")) = Some ""%string.
Proof. rewrite str_split_trailing. apply last_snoc. Qed.
